(** * Minesweeper: the minefield engine of [game.py]

    A shallow embedding of the field generator, the reveal cascade, flag
    toggling and the win/loss handling of [game.py], followed by the
    properties of the engine.

    Tiles are the one-character strings of the program (["x"] a mine,
    ["0"].. the adjacency counts, [" "] hidden, ["f"] flagged); grids are
    lists of rows; coordinates are Python integers ([Z]); the global
    [state] dictionary is a record threaded through every function.
    Exceptions are values of the [result] type. *)

From Stdlib Require Import ZArith Lia DecimalString DecimalNat.
From stdpp Require Import base list list_numbers strings.

(** ** Exceptions *)

Inductive exn := IndexError | ValueError.

(** [OutOfFuel] is produced only by the bounded model of the [while] loop of
    [explore_tile]; [explore_tile_total] shows that [explore_tile] never
    returns it. *)
Inductive result (A : Type) :=
  | Ok (a : A)
  | Raise (e : exn)
  | OutOfFuel.
Arguments Ok {A} a.
Arguments Raise {A} e.
Arguments OutOfFuel {A}.

#[global] Instance result_ret : MRet result := fun A a => Ok a.
#[global] Instance result_bind : MBind result := fun A B k m =>
  match m with
  | Ok a => k a
  | Raise e => Raise e
  | OutOfFuel => OutOfFuel
  end.

(** [for i, a in enumerate(l)] over a list that the body does not change,
    threading the loop state [s]. *)
Fixpoint for_enumerate_from {A T} (i : nat) (body : T -> nat -> A -> result T)
    (l : list A) (s : T) : result T :=
  match l with
  | [] => Ok s
  | a :: l' => s' ← body s i a; for_enumerate_from (S i) body l' s'
  end.

Definition for_enumerate {A T} (body : T -> nat -> A -> result T)
    (l : list A) (s : T) : result T :=
  for_enumerate_from 0 body l s.

(** [for y, row in enumerate(grid): for x, tile in enumerate(row): body] *)
Definition for_tiles {T} (body : T -> nat -> nat -> string -> result T)
    (g : list (list string)) (s : T) : result T :=
  for_enumerate (fun s y row =>
    for_enumerate (fun s x tile => body s y x tile) row s) g s.

(** ** Python lists *)

(** [l[i]]: a negative index counts from the end, an index outside
    [-len(l) .. len(l)-1] raises [IndexError]. *)
Definition py_index {A} (l : list A) (i : Z) : Z :=
  if (i <? 0)%Z then (i + Z.of_nat (length l))%Z else i.

Definition py_getitem {A} (l : list A) (i : Z) : result A :=
  let j := py_index l i in
  if (j <? 0)%Z then Raise IndexError
  else match l !! Z.to_nat j with
       | Some a => Ok a
       | None => Raise IndexError
       end.

(** [l[i] = v] *)
Definition py_setitem {A} (l : list A) (i : Z) (v : A) : result (list A) :=
  let j := py_index l i in
  if (j <? 0)%Z then Raise IndexError
  else if (Z.to_nat j <? length l)%nat then Ok (<[Z.to_nat j := v]> l)
  else Raise IndexError.

(** [l[i]] for an index the program has just tested to satisfy
    [0 <= i < len(l)]; the default is never returned there. *)
Definition item {A} (d : A) (l : list A) (i : Z) : A :=
  default d (l !! Z.to_nat i).

(** [l[i:j]]: both ends are clamped to the list. *)
Definition py_slice_end {A} (l : list A) (k : Z) : Z :=
  if (k <? 0)%Z then Z.max 0 (k + Z.of_nat (length l))
  else Z.min k (Z.of_nat (length l)).

Definition py_slice {A} (l : list A) (i j : Z) : list A :=
  let a := py_slice_end l i in
  let b := py_slice_end l j in
  take (Z.to_nat (b - a)) (drop (Z.to_nat a) l).

(** [range(0, stop, step)]: [ValueError] when the step is zero. *)
Definition py_range_step (stop step : Z) : result (list Z) :=
  if (step =? 0)%Z then Raise ValueError
  else if (0 <? step)%Z then
    Ok ((fun k => (Z.of_nat k * step)%Z) <$>
          seq 0 (Z.to_nat ((stop + step - 1) / step)))
  else
    Ok ((fun k => (Z.of_nat k * step)%Z) <$>
          seq 0 (Z.to_nat ((stop + step + 1) / step))).

(** [[v] * n]: empty when [n] is negative. *)
Definition py_repeat {A} (v : A) (n : Z) : list A := replicate (Z.to_nat n) v.

(** [str(n)] for a non-negative integer: its decimal digits. *)
Definition str (n : nat) : string := NilEmpty.string_of_uint (Nat.to_uint n).

(** ** Tiles, grids and the game state *)

Abbreviation tile := string (only parsing).
Abbreviation grid := (list (list string)) (only parsing).
Abbreviation coord := (Z * Z)%type (only parsing).

(** What [save_game_data] takes from the state for the game it appends
    to [data.json]: [dimensions], [mines], [result = [won, unflagged mines]]
    and [clicks]. The date, the clock and the elapsed time of the game
    come from the clock: [current_game] joins them to the record, and
    [WithFile.save_game_data] reads them. *)
Record game_record := {
  rec_dimensions : nat * nat;
  rec_mines : Z;
  rec_result : bool * nat;
  rec_clicks : nat
}.

(** The [state] dictionary; [saved] lists the records that
    [save_game_data] has taken from the state, oldest first. *)
Record State := {
  running : bool;
  won : bool;
  field : grid;
  visible : grid;
  clicks : nat;
  mines : Z;
  saved : list game_record
}.

Definition set_visible (st : State) (v : grid) : State :=
  {| running := running st; won := won st; field := field st; visible := v;
     clicks := clicks st; mines := mines st; saved := saved st |}.

(** [grid[y][x]] *)
Definition get2 (g : grid) (y x : Z) : result tile :=
  row ← py_getitem g y; py_getitem row x.

(** [grid[y][x] = v]: the row object is updated in place. No two rows of a
    grid built by [create_field] are the same object. *)
Definition set2 (g : grid) (y x : Z) (v : tile) : result grid :=
  row ← py_getitem g y;
  row' ← py_setitem row x v;
  py_setitem g y row'.

(** ** Field generation *)

Definition chunks {A} (list_ : list A) (size : Z) : result (list (list A)) :=
  starts ← py_range_step (Z.of_nat (length list_)) size;
  Ok ((fun i => py_slice list_ i (i + size)) <$> (starts : list Z)).

Definition count_surrounding_mines (x y : Z) (field : grid) : nat :=
  foldl (fun mines d_y =>
    if (0 <=? y + d_y)%Z && (y + d_y <? Z.of_nat (length field))%Z then
      let row := item [] field (y + d_y) in
      foldl (fun mines d_x =>
        if (0 <=? x + d_x)%Z && (x + d_x <? Z.of_nat (length row))%Z then
          if String.eqb (item "" row (x + d_x)) "x" then S mines else mines
        else mines) mines (seqZ (-1) 3)
    else mines) 0%nat (seqZ (-1) 3).

(** The body of the double loop of [create_field] at [(x, y)]: the tile is
    read from the grid as it is at that moment, and a tile that is not a
    mine is overwritten in place. *)
Definition fill_tile (y x : nat) (field : grid) : grid :=
  let row := item [] field (Z.of_nat y) in
  let tile := item "" row (Z.of_nat x) in
  if negb (String.eqb tile "x") then
    <[y := <[x := str (count_surrounding_mines (Z.of_nat x) (Z.of_nat y) field)]> row]> field
  else field.

Definition fill_row (field : grid) (y : nat) : grid :=
  foldl (fun field x => fill_tile y x field) field
        (seq 0 (length (item [] field (Z.of_nat y)))).

Definition fill_counts (field : grid) : grid :=
  foldl fill_row field (seq 0 (length field)).

Definition create_field (shuffle : list tile -> list tile)
    (width height mines : Z) : result (grid * grid) :=
  let tiles := py_repeat "x" mines ++ py_repeat "0" (width * height - mines) in
  let tiles := shuffle tiles in
  field ← chunks tiles width;
  let field := fill_counts field in
  let visible := py_repeat (py_repeat " " width) height in
  Ok (field, visible).

(** ** Flags, counters and the end of the game *)

Definition toggle_flag (x y : Z) (st : State) : result State :=
  v ← get2 (visible st) y x;
  if String.eqb v " " then
    vis ← set2 (visible st) y x "f"; Ok (set_visible st vis)
  else if String.eqb v "f" then
    vis ← set2 (visible st) y x " "; Ok (set_visible st vis)
  else Ok st.

Definition count_unexplored_tiles (st : State) : result nat :=
  for_tiles (fun tiles y x tile =>
    if negb (String.eqb tile "x") then
      v ← get2 (visible st) (Z.of_nat y) (Z.of_nat x);
      Ok (if String.eqb v " " || String.eqb v "f" then S tiles else tiles)
    else Ok tiles) (field st) 0%nat.

Definition count_unflagged_mines (st : State) : result nat :=
  for_tiles (fun mines y x tile =>
    if String.eqb tile "x" then
      v ← get2 (visible st) (Z.of_nat y) (Z.of_nat x);
      Ok (if negb (String.eqb v "f") then S mines else mines)
    else Ok mines) (field st) 0%nat.

Definition show_unflagged_mines (st : State) : result State :=
  vis ← for_tiles (fun vis y x tile =>
    if String.eqb tile "x" then
      v ← get2 vis (Z.of_nat y) (Z.of_nat x);
      if negb (String.eqb v "f") then set2 vis (Z.of_nat y) (Z.of_nat x) "x"
      else Ok vis
    else Ok vis) (field st) (visible st);
  Ok (set_visible st vis).

Definition flag_all_mines (st : State) : result State :=
  vis ← for_tiles (fun vis y x tile =>
    if String.eqb tile "x" then set2 vis (Z.of_nat y) (Z.of_nat x) "f"
    else Ok vis) (field st) (visible st);
  Ok (set_visible st vis).

(** [save_game_data] as far as the state goes: the record of the game
    is listed in [saved]. This is what the function does with a data file
    that it can append to; the file, the clock and the exceptions that a
    file of another shape raises are in [WithFile.save_game_data]. *)
Definition save_game_data (st : State) : result State :=
  row0 ← py_getitem (field st) 0;
  unflagged ← count_unflagged_mines st;
  let current :=
    {| rec_dimensions := (length row0, length (field st));
       rec_mines := mines st;
       rec_result := (won st, unflagged);
       rec_clicks := clicks st |} in
  Ok {| running := running st; won := won st; field := field st;
        visible := visible st; clicks := clicks st; mines := mines st;
        saved := saved st ++ [current] |}.

Definition lose_game (st : State) : result State :=
  let st := {| running := false; won := won st; field := field st;
               visible := visible st; clicks := clicks st; mines := mines st;
               saved := saved st |} in
  st ← show_unflagged_mines st;
  save_game_data st.

Definition win_game (st : State) : result State :=
  let st := {| running := false; won := true; field := field st;
               visible := visible st; clicks := clicks st; mines := mines st;
               saved := saved st |} in
  st ← flag_all_mines st;
  save_game_data st.

(** ** The reveal cascade *)

Definition get_surrounding_tiles (x y : Z) (st : State) : list coord :=
  foldl (fun tiles d_y =>
    if (0 <=? y + d_y)%Z && (y + d_y <? Z.of_nat (length (field st)))%Z then
      foldl (fun tiles d_x =>
        if (0 <=? x + d_x)%Z &&
           (x + d_x <? Z.of_nat (length (item [] (field st) (y + d_y))))%Z then
          if negb ((d_x =? 0)%Z && (d_y =? 0)%Z) then
            tiles ++ [((x + d_x)%Z, (y + d_y)%Z)]
          else tiles
        else tiles) tiles (seqZ (-1) 3)
    else tiles) [] (seqZ (-1) 3).

(** [for tile in tiles: if tile not in to_explore: to_explore.append(tile)] *)
Definition append_new (to_explore tiles : list coord) : list coord :=
  foldl (fun to_explore tile =>
    if bool_decide (tile ∈ to_explore) then to_explore
    else to_explore ++ [tile]) to_explore tiles.

(** One round of the [while] loop of [explore_tile], for the coordinate
    read at [to_explore[index]]: the new work list and the new state. *)
Definition explore_body (to_explore : list coord) (check : coord)
    (st : State) : result (list coord * State) :=
  let '(check_x, check_y) := check in
  tile ← get2 (field st) check_y check_x;
  vis ← set2 (visible st) check_y check_x tile;
  let st := set_visible st vis in
  v ← get2 (visible st) check_y check_x;
  if String.eqb v "x" then
    st ← lose_game st; Ok (to_explore, st)
  else
    unexplored ← count_unexplored_tiles st;
    if (unexplored =? 0)%nat then
      st ← win_game st; Ok (to_explore, st)
    else if String.eqb v "0" then
      Ok (append_new to_explore (get_surrounding_tiles check_x check_y st), st)
    else Ok (to_explore, st).

(** The [while index < len(to_explore)] loop; each unit of fuel pays for
    one evaluation of the loop test. The work list is returned with the
    final state. *)
Fixpoint explore_loop (fuel : nat) (to_explore : list coord) (index : nat)
    (st : State) : result (list coord * State) :=
  match fuel with
  | O => OutOfFuel
  | S fuel' =>
    match to_explore !! index with
    | None => Ok (to_explore, st)
    | Some check =>
        '(to_explore, st) ← explore_body to_explore check st;
        explore_loop fuel' to_explore (S index) st
    end
  end.

(** The work list never holds more than the seed and every tile of the
    field once, so this fuel is never used up ([explore_tile_total]). *)
Definition explore_fuel (st : State) : nat :=
  S (S (length (concat (field st)))).

Definition explore_tile (x y : Z) (st : State) : result State :=
  '(_, st') ← explore_loop (explore_fuel st) [(x, y)] 0 st;
  Ok st'.

(** ** Mouse input *)

(** The mouse button constants of the window library; [handle_mouse]
    treats every button other than the left and the right one alike. *)
Inductive button := MOUSE_LEFT | MOUSE_MIDDLE | MOUSE_RIGHT.

Definition add_click (st : State) : State :=
  {| running := running st; won := won st; field := field st;
     visible := visible st; clicks := S (clicks st); mines := mines st;
     saved := saved st |}.

(** [handle_mouse(x, y, button, _)]; closing the window after the game has
    ended does not touch the state. The tests [0 <= x < len(field[0])] and
    [0 <= y < len(field)] are evaluated left to right and stop at the first
    one that fails. *)
Definition handle_mouse (x y : Z) (b : button) (st : State) : result State :=
  if negb (running st) then Ok st
  else
    let x := (x / 40)%Z in
    let y := (y / 40)%Z in
    inside ←
      (if (0 <=? x)%Z then
         row0 ← py_getitem (field st) 0;
         Ok ((x <? Z.of_nat (length row0))%Z && (0 <=? y)%Z &&
             (y <? Z.of_nat (length (field st)))%Z)
       else Ok false);
    if inside : bool then
      match b with
      | MOUSE_LEFT =>
          v ← get2 (visible st) y x;
          if String.eqb v " " then explore_tile x y (add_click st) else Ok st
      | MOUSE_RIGHT => toggle_flag x y st
      | MOUSE_MIDDLE => Ok st
      end
    else Ok st.

(** ** Starting a game *)

(** What the player types at a prompt: an integer, or a line that [int]
    rejects. *)
Definition entry := option Z.

(** [get_positive_integer]: entries are read until one is a positive
    integer; [None] when the player stops typing before that. *)
Fixpoint get_positive_integer (inputs : list entry) : option (Z * list entry) :=
  match inputs with
  | [] => None
  | None :: rest => get_positive_integer rest
  | Some number :: rest =>
      if (number >? 0)%Z then Some (number, rest)
      else get_positive_integer rest
  end.

(** The [while True] loop of [init_game] that asks for the mine count; it
    reads at least one entry per round, so the number of entries bounds the
    number of rounds. *)
Fixpoint ask_mines (rounds : nat) (inputs : list entry) (width height : Z)
    : option (Z * list entry) :=
  match rounds with
  | O => None
  | S rounds' =>
      match get_positive_integer inputs with
      | None => None
      | Some (mines, rest) =>
          if (mines <? 1)%Z || (mines >? width * height)%Z then
            ask_mines rounds' rest width height
          else Some (mines, rest)
      end
  end.

(** The prompts of [init_game]: the width, height and mine count with
    which it goes on to call [create_field]; [None] when the player never
    completes the three answers. *)
Definition init_game_config (inputs : list entry) : option (Z * Z * Z) :=
  match get_positive_integer inputs with
  | None => None
  | Some (width, inputs) =>
  match get_positive_integer inputs with
  | None => None
  | Some (height, inputs) =>
  match ask_mines (length inputs) inputs width height with
  | None => None
  | Some (mines, _) => Some (width, height, mines)
  end end end.

(** [init_game] up to the call of [play]: the state with which the window
    is opened. *)
Definition init_game (shuffle : list tile -> list tile) (inputs : list entry)
    : option (result State) :=
  match init_game_config inputs with
  | None => None
  | Some (width, height, mines) =>
      Some ('(field, visible) ← create_field shuffle width height mines;
            Ok {| running := true; won := false; field := field;
                  visible := visible; clicks := 0; mines := mines;
                  saved := [] |})
  end.

(** ** Sessions *)

(** The states a session can be in: the state with which [init_game] opens
    the window, for any answers of the player and any outcome of the
    shuffle, and every state a mouse event leads to from there. *)
Inductive reachable : State -> Prop :=
  | reach_init shuffle inputs st :
      (forall l, l ≡ₚ shuffle l) ->
      init_game shuffle inputs = Some (Ok st) ->
      reachable st
  | reach_mouse st x y b st' :
      reachable st ->
      handle_mouse x y b st = Ok st' ->
      reachable st'.

(** A sequence of mouse events [(x, y, button)]. *)
Fixpoint handle_events (evs : list (Z * Z * button)) (st : State)
    : result State :=
  match evs with
  | [] => Ok st
  | (x, y, b) :: evs' => st' ← handle_mouse x y b st; handle_events evs' st'
  end.

(** ** Vocabulary of the properties *)

(** The tile of a grid at the coordinate [(x, y)], when it lies inside. *)
Definition cell (g : grid) (c : coord) : option tile :=
  if (0 <=? c.1)%Z && (0 <=? c.2)%Z then
    g !! Z.to_nat c.2 ≫= fun row => row !! Z.to_nat c.1
  else None.

Definition in_grid (g : grid) (c : coord) : Prop := is_Some (cell g c).

Definition shape (g : grid) : list nat := length <$> g.

(** [height] rows of [width] tiles. *)
Definition rectangular (width height : nat) (g : grid) : Prop :=
  shape g = replicate height width.

Definition grid_put (g : grid) (c : coord) (v : tile) : grid :=
  <[Z.to_nat c.2 := <[Z.to_nat c.1 := v]> (item [] g c.2)]> g.

(** The eight coordinates around a coordinate, and the relation they
    enumerate. *)
Definition around (c : coord) : list coord :=
  let '(x, y) := c in
  [(x - 1, y - 1); (x, y - 1); (x + 1, y - 1);
   (x - 1, y);                 (x + 1, y);
   (x - 1, y + 1); (x, y + 1); (x + 1, y + 1)]%Z.

Definition adjacent (c c' : coord) : Prop :=
  c <> c' /\ (-1 <= c'.1 - c.1 <= 1)%Z /\ (-1 <= c'.2 - c.2 <= 1)%Z.

Definition is_mine (g : grid) (c : coord) : bool :=
  bool_decide (cell g c = Some "x").

(** The number of mines among the neighbours of a tile that lie inside the
    grid, counted one neighbour at a time. *)
Definition mine_neighbours (g : grid) (c : coord) : nat :=
  length (List.filter (is_mine g) (around c)).

Definition mine_count (g : grid) : nat :=
  length (List.filter (fun t => String.eqb t "x") (concat g)).

(** Every tile that is not a mine shows the number of mines around it. *)
Definition counts_consistent (g : grid) : Prop :=
  forall c t, cell g c = Some t -> t <> "x" -> t = str (mine_neighbours g c).

(** The three states of a tile of the visibility grid. *)
Definition Hidden (v : tile) : Prop := v = " ".
Definition Flagged (v : tile) : Prop := v = "f".
Definition Revealed (v : tile) : Prop := v <> " " /\ v <> "f".

(** Every tile that is not a mine is revealed. *)
Definition all_clear (st : State) : Prop :=
  forall c t v, cell (field st) c = Some t -> t <> "x" ->
    cell (visible st) c = Some v -> Revealed v.

(** The connected region of ["0"] tiles around a seed. *)
Inductive zero_region (g : grid) (seed : coord) : coord -> Prop :=
  | zero_seed : cell g seed = Some "0" -> zero_region g seed seed
  | zero_next c c' :
      zero_region g seed c -> adjacent c c' -> cell g c' = Some "0" ->
      zero_region g seed c'.

(** The region together with the tiles that border it. *)
Definition cascade_area (g : grid) (seed c : coord) : Prop :=
  zero_region g seed c \/
  exists r, zero_region g seed r /\ adjacent r c /\ in_grid g c.

(** What the cascade can reach from a seed of any kind: the seed, and the
    neighbours of every reached ["0"] tile. *)
Inductive reached (g : grid) (seed : coord) : coord -> Prop :=
  | reached_seed : reached g seed seed
  | reached_next c c' :
      reached g seed c -> cell g c = Some "0" -> adjacent c c' ->
      in_grid g c' -> reached g seed c'.

(** The coordinates of a grid, row by row. *)
Definition all_coords (g : grid) : list coord :=
  concat (imap (fun y row => imap (fun x _ => (Z.of_nat x, Z.of_nat y)) row) g).

(** The facts that hold of every state of a session. *)
Record Inv (st : State) : Prop := {
  inv_rect : exists w h, (0 < w)%nat /\ (0 < h)%nat /\
                         rectangular w h (field st);
  inv_counts : counts_consistent (field st);
  inv_shape : shape (visible st) = shape (field st);
  inv_visible : forall c t v, cell (field st) c = Some t ->
      cell (visible st) c = Some v -> v = " " \/ v = "f" \/ v = t;
  inv_running : running st = true ->
      won st = false /\
      forall c v, cell (field st) c = Some "x" ->
        cell (visible st) c = Some v -> v = " " \/ v = "f";
  inv_won : won st = true ->
      all_clear st /\
      forall c, cell (field st) c = Some "x" ->
        cell (visible st) c = Some "f"
}.

(** The tile under the pixel [(x, y)] of the window. *)
Definition tile_at (x y : Z) : coord := ((x / 40)%Z, (y / 40)%Z).

(** The tiles that a row-by-row loop has passed when it stands at [(x, y)]. *)
Definition passed (y x : nat) (c : Z * Z) : Prop :=
  (c.2 < Z.of_nat y)%Z \/ (c.2 = Z.of_nat y /\ c.1 < Z.of_nat x)%Z.

#[global] Instance passed_dec y x c : Decision (passed y x c).
Proof. unfold passed. apply _. Defined.


(** What [show_unflagged_mines] and [flag_all_mines] leave at a tile, from
    the field tile and the tile shown before. *)
Definition show_upd (t v : string) : string :=
  if String.eqb t "x" && negb (String.eqb v "f") then "x" else v.

Definition flag_upd (t v : string) : string :=
  if String.eqb t "x" then "f" else v.

(** What the double loop of [create_field] leaves at a tile, from the tile
    the shuffle put there. *)
Definition filled_tile (orig : grid) (c : coord) (t : tile) : tile :=
  if String.eqb t "x" then "x" else str (count_surrounding_mines c.1 c.2 orig).

(** The grid when that loop stands at [(x, y)]. *)
Definition Filled (orig : grid) (y x : nat) (cur : grid) : Prop :=
  shape cur = shape orig /\
  forall c t, cell orig c = Some t ->
    cell cur c = Some (if decide (passed y x c) then filled_tile orig c t else t).

(** One for a mine, zero otherwise. *)
Definition mine_indicator (g : grid) (c : coord) : nat :=
  if is_mine g c then 1 else 0.

(** The invariant of the cascade started on a tile [seed] that is not a
    mine, over the field [F] and from the visibility grid [V0]: it relates
    the work list [l], the loop index [i] and the current state. *)
Record Cascade (F V0 : grid) (seed : coord) (l : list coord) (i : nat)
    (st : State) : Prop := {
  casc_field : field st = F;
  casc_shape : shape (visible st) = shape F;
  casc_nodup : NoDup l;
  casc_index : (i <= length l)%nat;
  casc_seed : l !! 0%nat = Some seed;
  casc_reached : forall c, c ∈ l -> reached F seed c;
  casc_clear : forall c t v0, cell F c = Some t -> t <> "x" ->
      cell V0 c = Some v0 ->
      cell (visible st) c = Some (if decide (c ∈ take i l) then t else v0);
  casc_mines : forall c v0, cell F c = Some "x" -> cell V0 c = Some v0 ->
      cell (visible st) c = Some (if running st then v0 else "f");
  casc_running : running st = true ->
      won st = false /\
      (forall k c c', (k < i)%nat -> l !! k = Some c -> cell F c = Some "0" ->
         adjacent c c' -> in_grid F c' -> c' ∈ l) /\
      ((0 < i)%nat -> ~ all_clear st);
  casc_won : running st = false -> won st = true /\ all_clear st
}.

(** ** Sample sessions *)

(** A shuffle that reverses the tiles, so that the mines come last. *)
Definition mines_last (l : list tile) : list tile := rev l.

(** A fresh 3 x 3 session with one mine, in the bottom right corner. *)
Definition corner_mine : State :=
  {| running := true; won := false;
     field := [["0";"0";"0"];["0";"1";"1"];["0";"1";"x"]];
     visible := [[" ";" ";" "];[" ";" ";" "];[" ";" ";" "]];
     clicks := 0; mines := 1; saved := [] |}.

(** The same session after a right click on the mine. *)
Definition corner_mine_flagged : State :=
  {| running := true; won := false;
     field := [["0";"0";"0"];["0";"1";"1"];["0";"1";"x"]];
     visible := [[" ";" ";" "];[" ";" ";" "];[" ";" ";"f"]];
     clicks := 0; mines := 1; saved := [] |}.

(** The same session after a right click on the middle tile. *)
Definition centre_flagged : State :=
  {| running := true; won := false;
     field := [["0";"0";"0"];["0";"1";"1"];["0";"1";"x"]];
     visible := [[" ";" ";" "];[" ";"f";" "];[" ";" ";" "]];
     clicks := 0; mines := 1; saved := [] |}.

(** A 3 x 3 session with two mines after a left click on the top left
    tile. *)
Definition two_mines_opened : State :=
  {| running := true; won := false;
     field := [["0";"0";"0"];["1";"2";"2"];["1";"x";"x"]];
     visible := [["0";"0";"0"];["1";"2";"2"];[" ";" ";" "]];
     clicks := 1; mines := 2; saved := [] |}.

(** A fresh 1 x 1 session: the only tile is a mine. *)
Definition lone_mine : State :=
  {| running := true; won := false; field := [["x"]]; visible := [[" "]];
     clicks := 0; mines := 1; saved := [] |}.

(** ** Vocabulary of the further properties *)

(** Every mine carries a flag. *)
Definition all_flagged (st : State) : Prop :=
  forall c v, cell (field st) c = Some "x" ->
    cell (visible st) c = Some v -> v = "f".

(** The record that [save_game_data] writes for a state whose first row has
    [width] tiles, with the result it is given. *)
Definition end_record (st : State) (width : nat) (is_won : bool)
    (left : nat) : game_record :=
  {| rec_dimensions := (width, length (field st));
     rec_mines := mines st;
     rec_result := (is_won, left);
     rec_clicks := clicks st |}.

(** What the cascade started by a click has recorded when it is in state
    [st], [st0] being the state in which it started: the counters are
    untouched and the only records added are those of a win, none as long
    as the session is running. *)
Definition Recorded (st0 : State) (width : nat) (st : State) : Prop :=
  clicks st = clicks st0 /\ mines st = mines st0 /\
  exists k, saved st = saved st0 ++ replicate k (end_record st0 width true 0) /\
    (running st = true -> k = 0%nat) /\ (running st = false -> (0 < k)%nat).

(** What a right click makes of the tile it lands on. *)
Definition toggled (v : tile) : tile :=
  if String.eqb v " " then "f" else if String.eqb v "f" then " " else v.

(** The 3 x 3 session with its corner mine after a left click on the tile
    left of the mine. *)
Definition edge_opened : State :=
  {| running := true; won := false;
     field := [["0";"0";"0"];["0";"1";"1"];["0";"1";"x"]];
     visible := [[" ";" ";" "];[" ";" ";" "];[" ";"1";" "]];
     clicks := 1; mines := 1; saved := [] |}.

#[global] Instance button_eq_dec : EqDecision button.
Proof. solve_decision. Defined.

(** The records a session has saved. A running session has saved none.
    A session that is over has saved one record, or several copies of it,
    with the size of the field, the mine count, the click count, the
    result and the number [n] of mines it found without a flag. *)
Definition Ledger (st : State) : Prop :=
  if running st then saved st = [] /\ won st = false
  else exists w k n,
    rectangular w (length (field st)) (field st) /\
    saved st = replicate (S k)
      {| rec_dimensions := (w, length (field st)); rec_mines := mines st;
         rec_result := (won st, n); rec_clicks := clicks st |} /\
    (0 < clicks st)%nat /\
    (won st = true -> n = 0%nat) /\
    (won st = false -> k = 0%nat /\ (0 < n)%nat).

(** The session [edge_opened] after a left click on the top left corner:
    the cascade wins the game on its last but one tile. *)
Definition twice_won : State :=
  {| running := false; won := true;
     field := [["0";"0";"0"];["0";"1";"1"];["0";"1";"x"]];
     visible := [["0";"0";"0"];["0";"1";"1"];["0";"1";"f"]];
     clicks := 2; mines := 1;
     saved := replicate 2
       {| rec_dimensions := (3%nat, 3%nat); rec_mines := 1;
          rec_result := (true, 0%nat); rec_clicks := 2 |} |}.

(** ** Drawing *)

(** The calls of the window library that [draw] makes. Of a text only the
    string is kept: where it stands and how it looks is computed in
    floating point from the size of the window and enters no property
    below. *)
Inductive sl_call : Type :=
  | clear_window
  | begin_sprite_draw
  | prepare_sprite (key : string) (x y : Z)
  | draw_sprites
  | draw_text (text : string).

Definition draw (st : State) : result (list sl_call) :=
  calls ← for_tiles (fun calls y x tile =>
      Ok (calls ++ [prepare_sprite tile (Z.of_nat x * 40) (Z.of_nat y * 40)]))
    (visible st) [clear_window; begin_sprite_draw];
  let calls := calls ++ [draw_sprites] in
  if negb (running st) then
    row0 ← py_getitem (field st) 0;
    let width := (Z.of_nat (length row0) * 40)%Z in
    let height := (Z.of_nat (length (field st)) * 40)%Z in
    Ok (calls ++
        [draw_text (if won st then "YOU WIN!" else "GAME OVER!");
         draw_text "(right click to close)"])
  else Ok calls.

(** The calls that prepare a sprite. *)
Definition is_sprite (c : sl_call) : bool :=
  match c with
  | prepare_sprite _ _ _ => true
  | _ => false
  end.

(** The symbols a tile of the visibility grid can show. *)
Definition tile_symbols : list string :=
  [" "; "f"; "x"; "0"; "1"; "2"; "3"; "4"; "5"; "6"; "7"; "8"].

(** ** Exceptions *)


(** ** Prompts *)

(** An entry that a prompt does not take: a line that is no integer, or
    an integer that the prompt does not accept. *)
Definition rejected (accepts : Z -> bool) (e : entry) : Prop :=
  forall k, e = Some k -> accepts k = false.

(** What the prompts of [init_game] accept: a positive integer, and for the
    mine count one between 1 and the number of tiles. *)
Definition positive (k : Z) : bool := (k >? 0)%Z.

Definition mines_in_range (width height k : Z) : bool :=
  negb ((k <? 1)%Z || (k >? width * height)%Z).

(** ** Menus *)

(** The loop of [make_choice]: the index of the first option that starts
    with the choice, counted from [i], or [-1]. *)
Fixpoint make_choice_loop (choice : string) (i : nat) (options : list string)
    : Z :=
  match options with
  | [] => -1
  | option :: options' =>
      if String.prefix choice option then Z.of_nat i
      else make_choice_loop choice (S i) options'
  end.

(** [make_choice(options)] when the player enters [line]; [lower] is
    [str.lower]. A string is held as its bytes: one string starts with
    another exactly when its bytes do. *)
Definition make_choice (lower : string -> string) (line : string)
    (options : list string) : Z :=
  let choice := lower line in
  if (0 <? String.length choice)%nat then make_choice_loop choice 0 options
  else (-1)%Z.

(** ** What the counters count *)

(** A tile that is not a mine and is still hidden or flagged. *)
Definition unexplored (st : State) (c : coord) : bool :=
  match cell (field st) c, cell (visible st) c with
  | Some t, Some v =>
      negb (String.eqb t "x") && (String.eqb v " " || String.eqb v "f")
  | _, _ => false
  end.

(** A mine that carries no flag. *)
Definition unflagged_mine (st : State) (c : coord) : bool :=
  match cell (field st) c, cell (visible st) c with
  | Some t, Some v => String.eqb t "x" && negb (String.eqb v "f")
  | _, _ => false
  end.

(** A tile that is revealed: it shows neither the hidden symbol nor a
    flag. *)
Definition revealed_at (st : State) (c : coord) : bool :=
  match cell (visible st) c with
  | Some v => negb (String.eqb v " ") && negb (String.eqb v "f")
  | None => false
  end.

(** No revealed ["0"] borders a tile that is not revealed. *)
Definition zeros_opened (st : State) : Prop :=
  forall c c', cell (visible st) c = Some "0" -> adjacent c c' ->
    in_grid (field st) c' ->
    exists v, cell (visible st) c' = Some v /\ Revealed v.

(** No mine is hidden: each shows itself or a flag. *)
Definition mines_shown (st : State) : Prop :=
  forall c, cell (field st) c = Some "x" ->
    cell (visible st) c = Some "x" \/ cell (visible st) c = Some "f".

(** ** The data file *)

(** A Python string as the sequence of its characters (code points). *)
Definition chars (s : string) : list N :=
  Ascii.N_of_ascii <$> String.list_ascii_of_string s.

(** A value that [json.load] returns. A dictionary lists its keys in the
    order of the file, each key once. Of a float only the literal is kept:
    the program's checks look at the type of a value, never at a float. *)
#[warnings="-register-all"] Inductive json : Type :=
  | JNull
  | JBool (b : bool)
  | JInt (n : Z)
  | JFloat (literal : string)
  | JStr (s : list N)
  | JList (items : list json)
  | JDict (entries : list (list N * json)).

(** The exceptions of the code that reads and writes the data;
    [IndexErrorD] is Python's [IndexError], under a name of its own
    beside the one of the engine. *)
Inductive data_exn := KeyError | IndexErrorD | TypeError | AttributeError.

Inductive outcome (A : Type) : Type :=
  | Return (a : A)
  | Throw (e : data_exn).
Arguments Return {A} a.
Arguments Throw {A} e.

#[global] Instance outcome_ret : MRet outcome := fun A a => Return a.
#[global] Instance outcome_bind : MBind outcome := fun A B k m =>
  match m with
  | Return a => k a
  | Throw e => Throw e
  end.

Fixpoint lookup_key (key : list N) (entries : list (list N * json))
    : option json :=
  match entries with
  | [] => None
  | (k, v) :: entries' =>
      if bool_decide (k = key) then Some v else lookup_key key entries'
  end.

(** [obj[key]] for a string [key]: only a dictionary can be indexed by a
    string. *)
Definition getitem_key (obj : json) (key : string) : outcome json :=
  match obj with
  | JDict entries =>
      match lookup_key (chars key) entries with
      | Some v => Return v
      | None => Throw KeyError
      end
  | _ => Throw TypeError
  end.

(** [obj[i]] for an index [i] that is 0 or 1: an item of a list, a
    character of a string; a dictionary read from JSON has only strings as
    keys, and nothing else can be indexed. *)
Definition getitem_index (obj : json) (i : nat) : outcome json :=
  match obj with
  | JList items =>
      match items !! i with
      | Some v => Return v
      | None => Throw IndexErrorD
      end
  | JStr s =>
      match s !! i with
      | Some c => Return (JStr [c])
      | None => Throw IndexErrorD
      end
  | JDict _ => Throw KeyError
  | _ => Throw TypeError
  end.

(** [len(obj)] *)
Definition len (obj : json) : outcome nat :=
  match obj with
  | JList items => Return (length items)
  | JStr s => Return (length s)
  | JDict entries => Return (length entries)
  | _ => Throw TypeError
  end.

(** What [for game in obj] goes through: the items of a list, the keys of
    a dictionary, the characters of a string. *)
Definition iterate (obj : json) : outcome (list json) :=
  match obj with
  | JList items => Return items
  | JDict entries => Return ((fun e => JStr e.1) <$> entries)
  | JStr s => Return ((fun c => JStr [c]) <$> s)
  | _ => Throw TypeError
  end.

(** The types that [validate_data] asks for; [bool] is a subclass of
    [int]. *)
Inductive pytype := py_str | py_list | py_int | py_bool | py_float.

Definition isinstance (v : json) (t : pytype) : bool :=
  match v, t with
  | JStr _, py_str => true
  | JList _, py_list => true
  | JInt _, py_int => true
  | JBool _, py_int => true
  | JBool _, py_bool => true
  | JFloat _, py_float => true
  | _, _ => false
  end.

Fixpoint validate_variables (var_list : list (json * pytype)) : bool :=
  match var_list with
  | [] => true
  | var :: var_list' =>
      if negb (isinstance var.1 var.2) then false
      else validate_variables var_list'
  end.

(** The test of the [if] in the loop of [validate_data]: the list of
    pairs is built first, item by item, then checked, and the two lengths
    are looked at only when the types are right. *)
Definition game_is_broken (game : json) : outcome bool :=
  date ← getitem_key game "date";
  clock ← getitem_key game "clock";
  dimensions ← getitem_key game "dimensions";
  dimensions_0 ← getitem_key game "dimensions" ≫= fun d => getitem_index d 0;
  dimensions_1 ← getitem_key game "dimensions" ≫= fun d => getitem_index d 1;
  mines ← getitem_key game "mines";
  result ← getitem_key game "result";
  result_0 ← getitem_key game "result" ≫= fun r => getitem_index r 0;
  result_1 ← getitem_key game "result" ≫= fun r => getitem_index r 1;
  time ← getitem_key game "time";
  clicks ← getitem_key game "clicks";
  if negb (validate_variables
        [(date, py_str); (clock, py_str); (dimensions, py_list);
         (dimensions_0, py_int); (dimensions_1, py_int); (mines, py_int);
         (result, py_list); (result_0, py_bool); (result_1, py_int);
         (time, py_float); (clicks, py_int)])
  then Return true
  else
    n ← getitem_key game "dimensions" ≫= len;
    if negb (n =? 2)%nat then Return true
    else
      n ← getitem_key game "result" ≫= len;
      Return (negb (n =? 2)%nat).

(** The [for ... else] of [validate_data]: [1] when the loop runs to its
    end, [-1] after a [break]. *)
Fixpoint validate_games (games : list json) : outcome Z :=
  match games with
  | [] => Return 1%Z
  | game :: games' =>
      broken ← game_is_broken game;
      if broken : bool then Return (-1)%Z else validate_games games'
  end.

Definition validate_data (data : json) : outcome Z :=
  let loop : outcome Z :=
    games ← getitem_key data "games";
    games ← iterate games;
    validate_games games in
  match loop with
  | Throw KeyError | Throw IndexErrorD => Return (-1)%Z
  | r => r
  end.

(** [x in obj] for the string ["games"]: a key of a dictionary, an item of
    a list, a part of a string. *)
Fixpoint has_part (part s : list N) : bool :=
  bool_decide (take (length part) s = part) ||
  match s with
  | [] => false
  | _ :: s' => has_part part s'
  end.

Definition contains (obj : json) (key : string) : outcome bool :=
  match obj with
  | JDict entries => Return (bool_decide (is_Some (lookup_key (chars key) entries)))
  | JList items =>
      Return (existsb (fun v => match v with
                                | JStr s => bool_decide (s = chars key)
                                | _ => false
                                end) items)
  | JStr s => Return (has_part (chars key) s)
  | _ => Throw TypeError
  end.

Fixpoint set_key (key : list N) (v : json) (entries : list (list N * json))
    : list (list N * json) :=
  match entries with
  | [] => [(key, v)]
  | (k, v') :: entries' =>
      if bool_decide (k = key) then (k, v) :: entries'
      else (k, v') :: set_key key v entries'
  end.

(** [obj[key] = v] *)
Definition setitem_key (obj : json) (key : string) (v : json) : outcome json :=
  match obj with
  | JDict entries => Return (JDict (set_key (chars key) v entries))
  | _ => Throw TypeError
  end.

(** [data[key].append(v)]: the list is changed in place, inside the
    dictionary; only a list has an [append]. *)
Definition append_at (data : json) (key : string) (v : json) : outcome json :=
  games ← getitem_key data key;
  match games with
  | JList items => setitem_key data key (JList (items ++ [v]))
  | _ => Throw AttributeError
  end.

(** The dictionary [current] that [save_game_data] builds, from the date,
    the clock and the elapsed time it reads and the record of the game. *)
Definition current_game (date clock : list N) (time : string)
    (r : game_record) : json :=
  JDict [(chars "date", JStr date);
         (chars "clock", JStr clock);
         (chars "dimensions",
            JList [JInt (Z.of_nat r.(rec_dimensions).1);
                   JInt (Z.of_nat r.(rec_dimensions).2)]);
         (chars "mines", JInt r.(rec_mines));
         (chars "result",
            JList [JBool r.(rec_result).1; JInt (Z.of_nat r.(rec_result).2)]);
         (chars "time", JFloat time);
         (chars "clicks", JInt (Z.of_nat r.(rec_clicks)))].


(** A game that [validate_data] accepts. *)
Definition is_int (v : json) : Prop :=
  (exists n, v = JInt n) \/ (exists b, v = JBool b).

Definition valid_game (game : json) : Prop :=
  exists entries date clock d0 d1 mines won left time clicks,
    game = JDict entries /\
    lookup_key (chars "date") entries = Some (JStr date) /\
    lookup_key (chars "clock") entries = Some (JStr clock) /\
    lookup_key (chars "dimensions") entries = Some (JList [d0; d1]) /\
    is_int d0 /\ is_int d1 /\
    lookup_key (chars "mines") entries = Some mines /\ is_int mines /\
    lookup_key (chars "result") entries = Some (JList [JBool won; left]) /\
    is_int left /\
    lookup_key (chars "time") entries = Some (JFloat time) /\
    lookup_key (chars "clicks") entries = Some clicks /\ is_int clicks.

(** The data that [validate_data] accepts: a dictionary whose ["games"]
    is a list of such games, or has nothing to go through. *)
Definition valid_data (data : json) : Prop :=
  exists entries games,
    data = JDict entries /\
    lookup_key (chars "games") entries = Some games /\
    (games = JDict [] \/ games = JStr [] \/
     exists items, games = JList items /\ Forall valid_game items).

(** The exceptions of the loop of [validate_data]. *)
Definition no_attribute_error {A} (m : outcome A) : Prop :=
  m <> Throw AttributeError.

Arguments chars : simpl never.

(** ** The session together with its data file *)

(** The definitions above follow a session with the data file left out:
    [save_game_data] only lists, in [saved], the records it appends. The
    module [WithFile] gives the same functions of the program with the
    file: the state of the session, what [data.json] holds and the clock
    that [save_game_data] reads. An exception that leaves the mouse
    handler ends the program, so no state is kept with it. *)
Module WithFile.

(** One reading of the clock by [save_game_data]: the date and the clock
    of [time.localtime()] as it formats them, and the literal of
    [time.time() - state["start_time"]]. *)
Record reading := {
  date : list N;
  clock : list N;
  elapsed : string
}.

(** What lies outside the session: what [json.load] gives for
    [data.json] ([None] when the file is missing or is no JSON; what
    [json.dump] has written is what the next [json.load] gives), the
    successive readings of the clock, and how many have been taken. *)
Record Store := {
  data_file : option json;
  clock_source : nat -> reading;
  reads : nat
}.

Record World := {
  session : State;
  store : Store
}.

Definition with_session (w : World) (st : State) : World :=
  {| session := st; store := store w |}.

(** The exceptions of the engine and those of the code that reads and
    writes the data. *)
Inductive error :=
  | Engine (e : exn)
  | Data (e : data_exn).

Inductive wresult (A : Type) : Type :=
  | WOk (a : A)
  | WRaise (e : error)
  | WOutOfFuel.
Arguments WOk {A} a.
Arguments WRaise {A} e.
Arguments WOutOfFuel {A}.

#[global] Instance wresult_ret : MRet wresult := fun A a => WOk a.
#[global] Instance wresult_bind : MBind wresult := fun A B k m =>
  match m with
  | WOk a => k a
  | WRaise e => WRaise e
  | WOutOfFuel => WOutOfFuel
  end.

Definition engine {A} (m : result A) : wresult A :=
  match m with
  | Ok a => WOk a
  | Raise e => WRaise (Engine e)
  | OutOfFuel => WOutOfFuel
  end.

Definition on_data {A} (m : outcome A) : wresult A :=
  match m with
  | Return a => WOk a
  | Throw e => WRaise (Data e)
  end.

(** [save_game_data], in the order of the source: the file is loaded and
    given a ["games"] list when it has none, [current] is built from the
    clock and the state, it is appended, and the file is written. The
    record is also listed in [saved], as before. *)
Definition save_game_data (w : World) : wresult World :=
  let st := session w in
  let data := default (JDict []) (data_file (store w)) in
  present ← on_data (contains data "games");
  data ← on_data (if negb present then setitem_key data "games" (JList [])
                  else Return data);
  let now := clock_source (store w) (reads (store w)) in
  row0 ← engine (py_getitem (field st) 0);
  unflagged ← engine (count_unflagged_mines st);
  let record :=
    {| rec_dimensions := (length row0, length (field st));
       rec_mines := mines st;
       rec_result := (won st, unflagged);
       rec_clicks := clicks st |} in
  let current := current_game (date now) (clock now) (elapsed now) record in
  data ← on_data (append_at data "games" current);
  WOk {| session :=
           {| running := running st; won := won st; field := field st;
              visible := visible st; clicks := clicks st; mines := mines st;
              saved := saved st ++ [record] |};
         store :=
           {| data_file := Some data;
              clock_source := clock_source (store w);
              reads := S (reads (store w)) |} |}.

Definition lose_game (w : World) : wresult World :=
  let st := session w in
  let st := {| running := false; won := won st; field := field st;
               visible := visible st; clicks := clicks st; mines := mines st;
               saved := saved st |} in
  st ← engine (show_unflagged_mines st);
  save_game_data (with_session w st).

Definition win_game (w : World) : wresult World :=
  let st := session w in
  let st := {| running := false; won := true; field := field st;
               visible := visible st; clicks := clicks st; mines := mines st;
               saved := saved st |} in
  st ← engine (flag_all_mines st);
  save_game_data (with_session w st).

Definition explore_body (to_explore : list coord) (check : coord)
    (w : World) : wresult (list coord * World) :=
  let '(check_x, check_y) := check in
  let st := session w in
  tile ← engine (get2 (field st) check_y check_x);
  vis ← engine (set2 (visible st) check_y check_x tile);
  let st := set_visible st vis in
  v ← engine (get2 (visible st) check_y check_x);
  if String.eqb v "x" then
    w ← lose_game (with_session w st); WOk (to_explore, w)
  else
    unexplored ← engine (count_unexplored_tiles st);
    if (unexplored =? 0)%nat then
      w ← win_game (with_session w st); WOk (to_explore, w)
    else if String.eqb v "0" then
      WOk (append_new to_explore (get_surrounding_tiles check_x check_y st),
           with_session w st)
    else WOk (to_explore, with_session w st).

Fixpoint explore_loop (fuel : nat) (to_explore : list coord) (index : nat)
    (w : World) : wresult (list coord * World) :=
  match fuel with
  | O => WOutOfFuel
  | S fuel' =>
    match to_explore !! index with
    | None => WOk (to_explore, w)
    | Some check =>
        '(to_explore, w) ← explore_body to_explore check w;
        explore_loop fuel' to_explore (S index) w
    end
  end.

Definition explore_tile (x y : Z) (w : World) : wresult World :=
  '(_, w') ← explore_loop (explore_fuel (session w)) [(x, y)] 0 w;
  WOk w'.

Definition handle_mouse (x y : Z) (b : button) (w : World) : wresult World :=
  let st := session w in
  if negb (running st) then WOk w
  else
    let x := (x / 40)%Z in
    let y := (y / 40)%Z in
    inside ←
      engine (if (0 <=? x)%Z then
                row0 ← py_getitem (field st) 0;
                Ok ((x <? Z.of_nat (length row0))%Z && (0 <=? y)%Z &&
                    (y <? Z.of_nat (length (field st)))%Z)
              else Ok false);
    if inside : bool then
      match b with
      | MOUSE_LEFT =>
          v ← engine (get2 (visible st) y x);
          if String.eqb v " " then explore_tile x y (with_session w (add_click st))
          else WOk w
      | MOUSE_RIGHT =>
          st ← engine (toggle_flag x y st); WOk (with_session w st)
      | MOUSE_MIDDLE => WOk w
      end
    else WOk w.

Fixpoint handle_events (evs : list (Z * Z * button)) (w : World)
    : wresult World :=
  match evs with
  | [] => WOk w
  | (x, y, b) :: evs' => w' ← handle_mouse x y b w; handle_events evs' w'
  end.


End WithFile.












(** ** The model at work *)

(** Indices: a negative one counts from the end, one outside the list
    raises. *)
Example python_indexing :
  py_getitem ["a"; "b"; "c"] (-1) = Ok "c" /\
  py_getitem ["a"; "b"; "c"] 3 = Raise IndexError /\
  py_getitem ["a"; "b"; "c"] (-4) = Raise IndexError /\
  py_setitem ["a"; "b"; "c"] (-3) "z" = Ok ["z"; "b"; "c"] /\
  py_slice ["a"; "b"; "c"] 2 5 = ["c"].
Proof. repeat split. Qed.

(** A width of zero is the one input on which [create_field] raises. *)
Example create_field_width_0 :
  create_field mines_last 0 3 1 = Raise ValueError.
Proof. reflexivity. Qed.

Example create_field_3x3 :
  create_field mines_last 3 3 1 = Ok (field corner_mine, visible corner_mine).
Proof. reflexivity. Qed.

(** Scenario A of the specification: the first click on the 1 x 1 field
    loses the game. *)
Example scenario_A :
  handle_mouse 0 0 MOUSE_LEFT lone_mine =
  Ok {| running := false; won := false; field := [["x"]];
        visible := [["x"]]; clicks := 1; mines := 1;
        saved := [{| rec_dimensions := (1%nat, 1%nat); rec_mines := 1;
                     rec_result := (false, 1%nat); rec_clicks := 1 |}] |}.
Proof. vm_compute. reflexivity. Qed.

(** Scenario B: a click in the corner opposite to the mine reveals the
    eight other tiles and wins the game; the mine gets a flag. *)
Example scenario_B :
  handle_mouse 5 5 MOUSE_LEFT corner_mine =
  Ok {| running := false; won := true; field := field corner_mine;
        visible := [["0";"0";"0"];["0";"1";"1"];["0";"1";"f"]];
        clicks := 1; mines := 1;
        saved := [{| rec_dimensions := (3%nat, 3%nat); rec_mines := 1;
                     rec_result := (true, 0%nat); rec_clicks := 1 |}] |}.
Proof. vm_compute. reflexivity. Qed.

(** A flag is put with a right click and taken back with the next one. *)
Example toggle_twice :
  handle_events [(40, 40, MOUSE_RIGHT)]%Z corner_mine = Ok centre_flagged /\
  handle_events [(40, 40, MOUSE_RIGHT); (40, 40, MOUSE_RIGHT)]%Z corner_mine =
    Ok corner_mine.
Proof. split; vm_compute; reflexivity. Qed.

(** ** Decimal strings *)

Lemma str_inj n m : str n = str m -> n = m.
Proof.
  unfold str. intros E. apply Unsigned.to_uint_inj.
  apply (f_equal NilEmpty.uint_of_string) in E.
  rewrite !NilEmpty.usu in E. congruence.
Qed.

Lemma str_zero n : str n = "0" <-> n = 0%nat.
Proof.
  split; [|intros ->; reflexivity].
  intros E. apply str_inj. rewrite E. reflexivity.
Qed.

Lemma str_not_symbol n : str n <> "x" /\ str n <> " " /\ str n <> "f".
Proof.
  unfold str. repeat split; intros E;
    apply (f_equal NilEmpty.uint_of_string) in E;
    rewrite NilEmpty.usu in E; discriminate E.
Qed.

Lemma str_not_x n : str n <> "x".
Proof. apply str_not_symbol. Qed.

Lemma eqb_x_str n : String.eqb (str n) "x" = false.
Proof. apply String.eqb_neq, str_not_x. Qed.

(** ** Python lists: indices inside the list *)

Section py_lists.
Context {A : Type}.
Implicit Types (l : list A) (i : Z).

Lemma py_index_inside l i : (0 <= i)%Z -> py_index l i = i.
Proof. unfold py_index. destruct (Z.ltb_spec i 0); [lia|done]. Qed.

Lemma py_getitem_inside l i a :
  (0 <= i)%Z -> l !! Z.to_nat i = Some a -> py_getitem l i = Ok a.
Proof.
  intros Hi Hl. unfold py_getitem. rewrite py_index_inside by done.
  destruct (Z.ltb_spec i 0); [lia|]. now rewrite Hl.
Qed.

Lemma py_getitem_of_nat l (n : nat) a :
  l !! n = Some a -> py_getitem l (Z.of_nat n) = Ok a.
Proof.
  intros. apply py_getitem_inside; [lia|]. now rewrite Nat2Z.id.
Qed.

Lemma py_getitem_outside l (n : nat) :
  l !! n = None -> py_getitem l (Z.of_nat n) = Raise IndexError.
Proof.
  intros Hl. unfold py_getitem. rewrite py_index_inside by lia.
  destruct (Z.ltb_spec (Z.of_nat n) 0); [lia|].
  now rewrite Nat2Z.id, Hl.
Qed.

Lemma py_setitem_inside l i v :
  (0 <= i)%Z -> (Z.to_nat i < length l)%nat ->
  py_setitem l i v = Ok (<[Z.to_nat i := v]> l).
Proof.
  intros Hi Hl. unfold py_setitem. rewrite py_index_inside by done.
  destruct (Z.ltb_spec i 0); [lia|].
  destruct (Nat.ltb_spec (Z.to_nat i) (length l)); [done|lia].
Qed.

Lemma py_setitem_shape l i v l' :
  py_setitem l i v = Ok l' -> length l' = length l.
Proof.
  unfold py_setitem. repeat case_match; intros [= <-]; try done.
  apply length_insert.
Qed.

Lemma item_lookup (d : A) l i a :
  l !! Z.to_nat i = Some a -> item d l i = a.
Proof. unfold item. now intros ->. Qed.
End py_lists.

(** ** Grids *)

Lemma cell_Some g x y t :
  cell g (x, y) = Some t <->
  (0 <= x)%Z /\ (0 <= y)%Z /\
  exists row, g !! Z.to_nat y = Some row /\ row !! Z.to_nat x = Some t.
Proof.
  unfold cell; simpl. split.
  - destruct (Z.leb_spec 0 x), (Z.leb_spec 0 y); simpl; try discriminate.
    destruct (g !! Z.to_nat y) as [row|] eqn:E; simpl; [|discriminate].
    intros. repeat split; try done. now exists row.
  - intros (Hx & Hy & row & Hr & Ht).
    destruct (Z.leb_spec 0 x), (Z.leb_spec 0 y); try lia; simpl.
    now rewrite Hr.
Qed.

Lemma cell_of_nat g (x y : nat) :
  cell g (Z.of_nat x, Z.of_nat y) = g !! y ≫= fun row => row !! x.
Proof.
  unfold cell; simpl.
  destruct (Z.leb_spec 0 (Z.of_nat x)), (Z.leb_spec 0 (Z.of_nat y)); try lia.
  simpl. now rewrite !Nat2Z.id.
Qed.

Lemma in_grid_shape g c :
  in_grid g c <->
  (0 <= c.1)%Z /\ (0 <= c.2)%Z /\
  exists n, shape g !! Z.to_nat c.2 = Some n /\ (Z.to_nat c.1 < n)%nat.
Proof.
  destruct c as [x y]; simpl. unfold in_grid, shape. split.
  - intros [t Ht]. apply cell_Some in Ht as (Hx & Hy & row & Hr & Ht).
    repeat split; try done. exists (length row). split.
    + now rewrite list_lookup_fmap, Hr.
    + eapply lookup_lt_Some, Ht.
  - intros (Hx & Hy & n & Hn & Hlt).
    rewrite list_lookup_fmap in Hn.
    destruct (g !! Z.to_nat y) as [row|] eqn:Hr; [|discriminate].
    injection Hn as <-.
    destruct (lookup_lt_is_Some_2 row (Z.to_nat x) Hlt) as [t Ht].
    exists t. apply cell_Some. repeat split; try done. now exists row.
Qed.

Lemma in_grid_same_shape g g' c :
  shape g = shape g' -> in_grid g c -> in_grid g' c.
Proof. intros E. rewrite !in_grid_shape, E. done. Qed.

Lemma shape_length g g' : shape g = shape g' -> length g = length g'.
Proof.
  intros E. apply (f_equal length) in E. unfold shape in E.
  now rewrite !length_fmap in E.
Qed.

Lemma get2_cell g x y t : cell g (x, y) = Some t -> get2 g y x = Ok t.
Proof.
  intros (Hx & Hy & row & Hr & Ht)%cell_Some. unfold get2.
  rewrite (py_getitem_inside _ _ _ Hy Hr). simpl.
  now apply py_getitem_inside.
Qed.

Lemma set2_cell g x y v :
  in_grid g (x, y) -> set2 g y x v = Ok (grid_put g (x, y) v).
Proof.
  intros [t (Hx & Hy & row & Hr & Ht)%cell_Some]. unfold set2, grid_put.
  rewrite (py_getitem_inside _ _ _ Hy Hr). simpl.
  rewrite (item_lookup _ _ _ _ Hr).
  rewrite py_setitem_inside; [|done|eapply lookup_lt_Some, Ht]. simpl.
  apply py_setitem_inside; [done|eapply lookup_lt_Some, Hr].
Qed.

Lemma shape_grid_put g c v : shape (grid_put g c v) = shape g.
Proof.
  unfold grid_put, shape. apply list_eq. intros i.
  rewrite !list_lookup_fmap.
  destruct (decide (i = Z.to_nat c.2)) as [->|Hne].
  - destruct (g !! Z.to_nat c.2) as [row|] eqn:Hr.
    + rewrite list_lookup_insert_eq by (eapply lookup_lt_Some, Hr).
      simpl. rewrite length_insert.
      now rewrite (item_lookup _ _ _ _ Hr).
    + rewrite list_insert_ge; [now rewrite Hr|].
      now apply lookup_ge_None.
  - now rewrite list_lookup_insert_ne.
Qed.

Lemma cell_grid_put g c v c' :
  in_grid g c ->
  cell (grid_put g c v) c' = if decide (c' = c) then Some v else cell g c'.
Proof.
  destruct c as [x y], c' as [x' y'].
  intros [t (Hx & Hy & row & Hr & Ht)%cell_Some].
  unfold grid_put; simpl. rewrite (item_lookup _ _ _ _ Hr).
  case_decide as Hc.
  - injection Hc as -> ->. apply cell_Some. repeat split; try done.
    exists (<[Z.to_nat x := v]> row). split.
    + apply list_lookup_insert_eq. eapply lookup_lt_Some, Hr.
    + apply list_lookup_insert_eq. eapply lookup_lt_Some, Ht.
  - unfold cell; simpl.
    destruct (Z.leb_spec 0 x'), (Z.leb_spec 0 y'); simpl; try done.
    destruct (decide (Z.to_nat y' = Z.to_nat y)) as [Ey|Ny].
    + rewrite Ey, Hr.
      rewrite list_lookup_insert_eq by (eapply lookup_lt_Some, Hr). simpl.
      apply list_lookup_insert_ne. intros Ex. apply Hc. f_equal; lia.
    + now rewrite list_lookup_insert_ne.
Qed.

(** ** Loops over the tiles of a grid *)

Lemma for_enumerate_from_inv {A T} (body : T -> nat -> A -> result T)
    (I : nat -> T -> Prop) l i s :
  I i s ->
  (forall k a s, l !! k = Some a -> I (i + k)%nat s ->
     exists s', body s (i + k)%nat a = Ok s' /\ I (S (i + k)) s') ->
  exists s', for_enumerate_from i body l s = Ok s' /\ I (i + length l)%nat s'.
Proof.
  revert i s. induction l as [|a l IH]; intros i s Hs Hbody; simpl.
  - exists s. split; [done|]. now rewrite Nat.add_0_r.
  - pose proof (Hbody 0%nat a s eq_refl) as H0. rewrite Nat.add_0_r in H0.
    destruct (H0 Hs) as (s1 & E1 & Hs1). rewrite E1. simpl.
    destruct (IH (S i) s1 Hs1) as (s2 & E & Hs2).
    + intros k b s' Hk Hs'.
      replace (S i + k)%nat with (i + S k)%nat in * by lia.
      now apply (Hbody (S k)).
    + exists s2. split; [done|].
      now replace (i + S (length l))%nat with (S i + length l)%nat by lia.
Qed.

Lemma for_tiles_inv {T} (body : T -> nat -> nat -> string -> result T)
    (I : nat -> nat -> T -> Prop) (g : list (list string)) s :
  I 0%nat 0%nat s ->
  (forall y row s, g !! y = Some row -> I y (length row) s -> I (S y) 0%nat s) ->
  (forall y row x t s, g !! y = Some row -> row !! x = Some t -> I y x s ->
     exists s', body s y x t = Ok s' /\ I y (S x) s') ->
  exists s', for_tiles body g s = Ok s' /\ I (length g) 0%nat s'.
Proof.
  intros H0 Hrow Hbody. unfold for_tiles, for_enumerate.
  apply (for_enumerate_from_inv _ (fun y s => I y 0%nat s) g 0%nat s H0).
  intros y row s1 Hy Hs1. simpl in *.
  destruct (for_enumerate_from_inv (fun s x tile => body s y x tile)
              (fun x s => I y x s) row 0%nat s1 Hs1) as (s2 & E & Hs2).
  - intros x t s' Hx Hs'. simpl in *. eauto.
  - exists s2. split; [done|]. eapply Hrow; eauto.
Qed.

Lemma passed_start c : (0 <= c.1)%Z -> (0 <= c.2)%Z -> ~ passed 0 0 c.
Proof. unfold passed. lia. Qed.

Lemma passed_row (g : list (list string)) y row c :
  g !! y = Some row -> in_grid g c ->
  passed y (length row) c <-> passed (S y) 0 c.
Proof.
  intros Hy [t Ht]. destruct c as [cx cy].
  apply cell_Some in Ht as (Hx & Hcy & row' & Hr & Ht).
  apply lookup_lt_Some in Ht. unfold passed; simpl. split; [lia|].
  intros [H|H]; [|lia].
  destruct (decide (cy = Z.of_nat y)) as [->|]; [|lia].
  rewrite Nat2Z.id, Hy in Hr. injection Hr as <-. lia.
Qed.

Lemma passed_end (g : list (list string)) c :
  in_grid g c -> passed (length g) 0 c.
Proof.
  intros [t Ht]. destruct c as [cx cy].
  apply cell_Some in Ht as (Hx & Hcy & row' & Hr & Ht).
  apply lookup_lt_Some in Hr. unfold passed; simpl. lia.
Qed.

Lemma passed_next y x c :
  passed y (S x) c <-> passed y x c \/ c = (Z.of_nat x, Z.of_nat y).
Proof.
  destruct c as [cx cy]. unfold passed; simpl. split.
  - intros [H|[H1 H2]]; [tauto|].
    destruct (decide (cx = Z.of_nat x)) as [->|]; [right; congruence|left; lia].
  - intros [[H|H]|[= -> ->]]; lia.
Qed.

(** A loop that rewrites the visibility grid one tile at a time, each new
    tile a function [upd] of the field tile and the old visible tile. *)
Lemma for_tiles_update (upd : string -> string -> string)
    (body : list (list string) -> nat -> nat -> string -> result (list (list string)))
    (fld vis : list (list string)) :
  shape vis = shape fld ->
  (forall vis' (x y : nat) t v,
     shape vis' = shape fld ->
     cell fld (Z.of_nat x, Z.of_nat y) = Some t ->
     cell vis' (Z.of_nat x, Z.of_nat y) = Some v ->
     exists vis'', body vis' y x t = Ok vis'' /\ shape vis'' = shape fld /\
       forall c, cell vis'' c =
         if decide (c = (Z.of_nat x, Z.of_nat y)) then Some (upd t v)
         else cell vis' c) ->
  exists vis', for_tiles body fld vis = Ok vis' /\ shape vis' = shape fld /\
    forall c t v, cell fld c = Some t -> cell vis c = Some v ->
      cell vis' c = Some (upd t v).
Proof.
  intros Hshape Hbody.
  destruct (for_tiles_inv body (fun y x s =>
      shape s = shape fld /\
      forall c t v, cell fld c = Some t -> cell vis c = Some v ->
        cell s c = Some (if decide (passed y x c) then upd t v else v))
      fld vis) as (vis' & E & Hs & Hcells).
  - split; [done|]. intros [cx cy] t v Ht Hv.
    apply cell_Some in Ht as Ht'. destruct Ht' as (Hx & Hy & _).
    rewrite decide_False; [done|]. now apply passed_start.
  - intros y row s Hy [Hs Hc]. split; [done|]. intros c t v Ht Hv.
    rewrite (Hc c t v Ht Hv). f_equal.
    assert (in_grid fld c) as Hin by now exists t.
    pose proof (passed_row fld y row c Hy Hin).
    repeat case_decide; tauto.
  - intros y row x t s Hy Hx [Hs Hc].
    assert (cell fld (Z.of_nat x, Z.of_nat y) = Some t) as Ht.
    { rewrite cell_of_nat, Hy. done. }
    assert (in_grid vis (Z.of_nat x, Z.of_nat y)) as [v Hv].
    { apply (in_grid_same_shape fld); [done|now exists t]. }
    pose proof (Hc _ _ _ Ht Hv) as Hcur.
    rewrite decide_False in Hcur by (unfold passed; simpl; lia).
    destruct (Hbody s x y t v Hs Ht Hcur) as (s' & -> & Hs' & Hc').
    exists s'. split; [done|]. split; [done|].
    intros c t' v' Ht' Hv'. rewrite Hc'. case_decide as Hcase.
    + subst c. rewrite Ht in Ht'. rewrite Hv in Hv'.
      injection Ht' as <-. injection Hv' as <-.
      rewrite decide_True; [done|]. apply passed_next. now right.
    + rewrite (Hc c t' v' Ht' Hv'). f_equal.
      pose proof (passed_next y x c). repeat case_decide; tauto.
  - exists vis'. split; [done|]. split; [done|].
    intros c t v Ht Hv. rewrite (Hcells c t v Ht Hv).
    rewrite decide_True; [done|]. apply passed_end. now exists t.
Qed.

(** ** The loops of the end of the game *)

Lemma cell_unchanged (g : list (list string)) c0 v c :
  cell g c0 = Some v ->
  cell g c = if decide (c = c0) then Some v else cell g c.
Proof. intros. case_decide; congruence. Qed.

Lemma show_unflagged_mines_spec st :
  shape (visible st) = shape (field st) ->
  exists vis, show_unflagged_mines st = Ok (set_visible st vis) /\
    shape vis = shape (field st) /\
    forall c t v, cell (field st) c = Some t -> cell (visible st) c = Some v ->
      cell vis c = Some (show_upd t v).
Proof.
  intros Hshape. unfold show_unflagged_mines.
  edestruct (for_tiles_update show_upd) as (vis & -> & Hs & Hc); [exact Hshape| |].
  2:{ exists vis. simpl. eauto. }
  intros vis' x y t v Hs Ht Hv. unfold show_upd.
  destruct (String.eqb t "x"); simpl.
  - rewrite (get2_cell _ _ _ _ Hv). simpl.
    destruct (String.eqb v "f"); simpl.
    + exists vis'. split; [done|]. split; [done|].
      intros c. now apply cell_unchanged.
    + rewrite set2_cell by now exists v.
      eexists. split; [done|]. split; [now rewrite shape_grid_put|].
      intros c. apply cell_grid_put. now exists v.
  - exists vis'. split; [done|]. split; [done|].
    intros c. now apply cell_unchanged.
Qed.

Lemma flag_all_mines_spec st :
  shape (visible st) = shape (field st) ->
  exists vis, flag_all_mines st = Ok (set_visible st vis) /\
    shape vis = shape (field st) /\
    forall c t v, cell (field st) c = Some t -> cell (visible st) c = Some v ->
      cell vis c = Some (flag_upd t v).
Proof.
  intros Hshape. unfold flag_all_mines.
  edestruct (for_tiles_update flag_upd) as (vis & -> & Hs & Hc); [exact Hshape| |].
  2:{ exists vis. simpl. eauto. }
  intros vis' x y t v Hs Ht Hv. unfold flag_upd.
  destruct (String.eqb t "x"); simpl.
  - rewrite set2_cell by now exists v.
    eexists. split; [done|]. split; [now rewrite shape_grid_put|].
    intros c. apply cell_grid_put. now exists v.
  - exists vis'. split; [done|]. split; [done|].
    intros c. now apply cell_unchanged.
Qed.

Lemma Revealed_eqb v :
  Revealed v <-> String.eqb v " " || String.eqb v "f" = false.
Proof.
  unfold Revealed. rewrite orb_false_iff, !String.eqb_neq. done.
Qed.

Lemma count_unexplored_tiles_spec st :
  shape (visible st) = shape (field st) ->
  exists n, count_unexplored_tiles st = Ok n /\ (n = 0%nat <-> all_clear st).
Proof.
  intros Hshape. unfold count_unexplored_tiles.
  destruct (for_tiles_inv
    (fun tiles y x tile =>
       if negb (String.eqb tile "x") then
         v ← get2 (visible st) (Z.of_nat y) (Z.of_nat x);
         Ok (if String.eqb v " " || String.eqb v "f" then S tiles else tiles)
       else Ok tiles)
    (fun y x n => n = 0%nat <->
       forall c t v, passed y x c -> cell (field st) c = Some t -> t <> "x" ->
         cell (visible st) c = Some v -> Revealed v)
    (field st) 0%nat) as (n & E & Hn).
  - split; [|done]. intros _ [cx cy] t v Hp Ht.
    apply cell_Some in Ht as (Hx & Hy & _).
    now apply passed_start in Hp.
  - intros y row n Hy Hn. rewrite Hn. split; intros H c t v Hp Ht.
    + apply (H c t v); [|done]. eapply passed_row; eauto. now exists t.
    + apply (H c t v); [|done]. eapply passed_row; eauto. now exists t.
  - intros y row x t n Hy Hx Hn.
    assert (cell (field st) (Z.of_nat x, Z.of_nat y) = Some t) as Ht.
    { rewrite cell_of_nat, Hy. done. }
    assert (in_grid (visible st) (Z.of_nat x, Z.of_nat y)) as [v Hv].
    { apply (in_grid_same_shape (field st)); [done|now exists t]. }
    destruct (String.eqb_spec t "x") as [->|Hne]; simpl.
    + exists n. split; [done|]. rewrite Hn. split; intros H c t' v' Hp Ht' Hx'.
      * apply passed_next in Hp as [Hp| ->]; [eauto|congruence].
      * eapply H; eauto. apply passed_next. now left.
    + rewrite (get2_cell _ _ _ _ Hv). simpl. eexists. split; [done|].
      destruct (String.eqb v " " || String.eqb v "f") eqn:Ev.
      * split; [done|]. intros H. exfalso.
        assert (Revealed v) as Hr.
        { apply (H (Z.of_nat x, Z.of_nat y) t v); try done.
          apply passed_next. now right. }
        apply Revealed_eqb in Hr. congruence.
      * rewrite Hn. split; intros H c t' v' Hp Ht' Hx' Hv'.
        -- apply passed_next in Hp as [Hp| ->]; [eauto|].
           rewrite Hv in Hv'. injection Hv' as <-. now apply Revealed_eqb.
        -- eapply H; eauto. apply passed_next. now left.
  - exists n. split; [done|]. rewrite Hn. unfold all_clear.
    split; intros H c t v.
    + intros Ht. apply H; [|done]. apply passed_end. now exists t.
    + intros _. apply H.
Qed.

Lemma count_unflagged_mines_ok st :
  shape (visible st) = shape (field st) ->
  exists n, count_unflagged_mines st = Ok n.
Proof.
  intros Hshape. unfold count_unflagged_mines.
  destruct (for_tiles_inv
    (fun mines y x tile =>
       if String.eqb tile "x" then
         v ← get2 (visible st) (Z.of_nat y) (Z.of_nat x);
         Ok (if negb (String.eqb v "f") then S mines else mines)
       else Ok mines)
    (fun _ _ _ => True) (field st) 0%nat) as (n & E & _); try done.
  - intros y row x t n Hy Hx _.
    assert (cell (field st) (Z.of_nat x, Z.of_nat y) = Some t) as Ht.
    { rewrite cell_of_nat, Hy. done. }
    assert (in_grid (visible st) (Z.of_nat x, Z.of_nat y)) as [v Hv].
    { apply (in_grid_same_shape (field st)); [done|now exists t]. }
    destruct (String.eqb t "x"); [|eauto].
    rewrite (get2_cell _ _ _ _ Hv). simpl. eauto.
  - eauto.
Qed.

Lemma save_game_data_spec st row0 :
  shape (visible st) = shape (field st) ->
  field st !! 0%nat = Some row0 ->
  exists st', save_game_data st = Ok st' /\
    running st' = running st /\ won st' = won st /\
    field st' = field st /\ visible st' = visible st /\
    clicks st' = clicks st /\ mines st' = mines st.
Proof.
  intros Hshape H0. unfold save_game_data.
  rewrite (py_getitem_inside (field st) 0 row0); [|lia|exact H0]. simpl.
  destruct (count_unflagged_mines_ok st Hshape) as [n ->]. simpl.
  eexists. split; [done|]. simpl. done.
Qed.

Lemma lose_game_spec st row0 :
  shape (visible st) = shape (field st) ->
  field st !! 0%nat = Some row0 ->
  exists st', lose_game st = Ok st' /\
    running st' = false /\ won st' = won st /\ field st' = field st /\
    shape (visible st') = shape (field st) /\
    forall c t v, cell (field st) c = Some t -> cell (visible st) c = Some v ->
      cell (visible st') c = Some (show_upd t v).
Proof.
  intros Hshape H0. unfold lose_game.
  edestruct show_unflagged_mines_spec as (vis & -> & Hs & Hc);
    [exact Hshape|]. simpl in *.
  edestruct save_game_data_spec as (st' & -> & Hr & Hw & Hf & Hv & _);
    [| exact H0 |]; [exact Hs|]. simpl in *.
  exists st'. rewrite Hr, Hw, Hf, Hv. done.
Qed.

Lemma win_game_spec st row0 :
  shape (visible st) = shape (field st) ->
  field st !! 0%nat = Some row0 ->
  exists st', win_game st = Ok st' /\
    running st' = false /\ won st' = true /\ field st' = field st /\
    shape (visible st') = shape (field st) /\
    forall c t v, cell (field st) c = Some t -> cell (visible st) c = Some v ->
      cell (visible st') c = Some (flag_upd t v).
Proof.
  intros Hshape H0. unfold win_game.
  edestruct flag_all_mines_spec as (vis & -> & Hs & Hc);
    [exact Hshape|]. simpl in *.
  edestruct save_game_data_spec as (st' & -> & Hr & Hw & Hf & Hv & _);
    [| exact H0 |]; [exact Hs|]. simpl in *.
  exists st'. rewrite Hr, Hw, Hf, Hv. done.
Qed.

(** ** The neighbours of a tile *)

Section guarded_folds.
Context {A B : Type} (q : B -> bool) (body : list A -> B -> list A)
        (k : B -> list A).
Hypothesis body_app : forall acc d, body acc d = acc ++ k d.

Lemma foldl_guard_app ds acc :
  foldl (fun acc d => if q d then body acc d else acc) acc ds =
  acc ++ foldl (fun acc d => if q d then body acc d else acc) [] ds.
Proof.
  revert acc. induction ds as [|d ds IH]; intros acc; simpl.
  - now rewrite app_nil_r.
  - rewrite IH. rewrite (IH (if q d then body [] d else [])).
    destruct (q d); [|done].
    rewrite (body_app acc), (body_app []). simpl.
    now rewrite app_assoc.
Qed.

Lemma elem_of_foldl_guard ds acc c :
  c ∈ foldl (fun acc d => if q d then body acc d else acc) acc ds <->
  c ∈ acc \/ exists d, d ∈ ds /\ q d = true /\ c ∈ k d.
Proof.
  revert acc. induction ds as [|d ds IH]; intros acc; simpl.
  - split; [tauto|]. intros [H|(d & Hd & _)]; [done|].
    now apply elem_of_nil in Hd.
  - rewrite IH. destruct (q d) eqn:Hq.
    + rewrite body_app, elem_of_app. split.
      * intros [[H|H]|(d' & Hd' & H)]; [tauto| |].
        -- right. exists d. split; [left|done].
        -- right. exists d'. split; [now right|done].
      * intros [H|(d' & Hd' & Hq' & H)]; [tauto|].
        apply elem_of_cons in Hd' as [->|Hd']; [tauto|].
        right. exists d'. done.
    + split.
      * intros [H|(d' & Hd' & H)]; [tauto|].
        right. exists d'. split; [now right|done].
      * intros [H|(d' & Hd' & Hq' & H)]; [tauto|].
        apply elem_of_cons in Hd' as [->|Hd']; [congruence|].
        right. exists d'. done.
Qed.
End guarded_folds.

Lemma in_grid_item (g : list (list string)) x y :
  in_grid g (x, y) <->
  (0 <= y < Z.of_nat (length g))%Z /\
  (0 <= x < Z.of_nat (length (item [] g y)))%Z.
Proof.
  split.
  - intros [t (Hx & Hy & row & Hr & Ht)%cell_Some].
    rewrite (item_lookup _ _ _ _ Hr).
    apply lookup_lt_Some in Hr, Ht. lia.
  - intros [Hy Hx].
    destruct (lookup_lt_is_Some_2 g (Z.to_nat y)) as [row Hr]; [lia|].
    rewrite (item_lookup _ _ _ _ Hr) in Hx.
    destruct (lookup_lt_is_Some_2 row (Z.to_nat x)) as [t Ht]; [lia|].
    exists t. apply cell_Some. repeat split; try lia. now exists row.
Qed.

Lemma offset_range d : d ∈ seqZ (-1) 3 <-> (-1 <= d <= 1)%Z.
Proof. rewrite elem_of_seqZ. lia. Qed.

Lemma get_surrounding_tiles_spec x y st c :
  c ∈ get_surrounding_tiles x y st <->
  adjacent (x, y) c /\ in_grid (field st) c.
Proof.
  unfold get_surrounding_tiles.
  rewrite (elem_of_foldl_guard
    (fun d_y => (0 <=? y + d_y)%Z && (y + d_y <? Z.of_nat (length (field st)))%Z)
    (fun tiles d_y =>
       foldl (fun tiles d_x =>
         if (0 <=? x + d_x)%Z &&
            (x + d_x <? Z.of_nat (length (item [] (field st) (y + d_y))))%Z
         then if negb ((d_x =? 0)%Z && (d_y =? 0)%Z)
              then tiles ++ [((x + d_x)%Z, (y + d_y)%Z)] else tiles
         else tiles) tiles (seqZ (-1) 3))
    (fun d_y =>
       foldl (fun tiles d_x =>
         if (0 <=? x + d_x)%Z &&
            (x + d_x <? Z.of_nat (length (item [] (field st) (y + d_y))))%Z
         then if negb ((d_x =? 0)%Z && (d_y =? 0)%Z)
              then tiles ++ [((x + d_x)%Z, (y + d_y)%Z)] else tiles
         else tiles) [] (seqZ (-1) 3))).
  2:{ intros acc d_y.
      apply (foldl_guard_app _
        (fun tiles d_x => if negb ((d_x =? 0)%Z && (d_y =? 0)%Z)
              then tiles ++ [((x + d_x)%Z, (y + d_y)%Z)] else tiles)
        (fun d_x => if negb ((d_x =? 0)%Z && (d_y =? 0)%Z)
              then [((x + d_x)%Z, (y + d_y)%Z)] else [])).
      intros acc' d_x. destruct (negb _); [done|now rewrite app_nil_r]. }
  rewrite elem_of_nil. destruct c as [cx cy]. split.
  - intros [[]|(d_y & Hdy & Hqy & Hc)].
    rewrite (elem_of_foldl_guard _
        (fun tiles d_x => if negb ((d_x =? 0)%Z && (d_y =? 0)%Z)
              then tiles ++ [((x + d_x)%Z, (y + d_y)%Z)] else tiles)
        (fun d_x => if negb ((d_x =? 0)%Z && (d_y =? 0)%Z)
              then [((x + d_x)%Z, (y + d_y)%Z)] else [])) in Hc.
    2:{ intros acc' d_x. destruct (negb _); [done|now rewrite app_nil_r]. }
    rewrite elem_of_nil in Hc. destruct Hc as [[]|(d_x & Hdx & Hqx & Hc)].
    apply offset_range in Hdy, Hdx.
    destruct (negb _) eqn:Hnz; [|now apply elem_of_nil in Hc].
    apply list_elem_of_singleton in Hc. injection Hc as -> ->.
    apply andb_true_iff in Hqy as [?%Z.leb_le ?%Z.ltb_lt].
    apply andb_true_iff in Hqx as [?%Z.leb_le ?%Z.ltb_lt].
    apply negb_true_iff, andb_false_iff in Hnz.
    split.
    + unfold adjacent; simpl. split; [|lia].
      intros [= Ex Ey]. destruct Hnz as [?%Z.eqb_neq|?%Z.eqb_neq]; lia.
    + apply in_grid_item. lia.
  - intros [(Hne & Hdx & Hdy) Hin]. simpl in Hdx, Hdy.
    apply in_grid_item in Hin as [Hy Hx]. right.
    exists (cy - y)%Z. split; [apply offset_range; lia|]. cbv beta.
    replace (y + (cy - y))%Z with cy by lia.
    split; [apply andb_true_iff; split; [apply Z.leb_le|apply Z.ltb_lt]; lia|].
    rewrite (elem_of_foldl_guard _
        (fun tiles d_x => if negb ((d_x =? 0)%Z && (cy - y =? 0)%Z)
              then tiles ++ [((x + d_x)%Z, cy)] else tiles)
        (fun d_x => if negb ((d_x =? 0)%Z && (cy - y =? 0)%Z)
              then [((x + d_x)%Z, cy)] else [])).
    2:{ intros acc' d_x. destruct (negb _); [done|now rewrite app_nil_r]. }
    right. exists (cx - x)%Z. split; [apply offset_range; lia|]. cbv beta.
    replace (x + (cx - x))%Z with cx by lia.
    split; [apply andb_true_iff; split; [apply Z.leb_le|apply Z.ltb_lt]; lia|].
    destruct (negb _) eqn:Hnz; [apply list_elem_of_singleton; done|].
    apply negb_false_iff, andb_true_iff in Hnz as [?%Z.eqb_eq ?%Z.eqb_eq].
    exfalso. apply Hne. f_equal; lia.
Qed.

(** ** Growing the work list *)

Lemma append_new_spec ts : forall l,
  (exists k, append_new l ts = l ++ k) /\
  (forall c, c ∈ append_new l ts <-> c ∈ l \/ c ∈ ts) /\
  (NoDup l -> NoDup (append_new l ts)).
Proof.
  unfold append_new. induction ts as [|t ts IH]; intros l; simpl.
  - split; [exists []; now rewrite app_nil_r|]. split; [|done].
    intros c. rewrite elem_of_nil. tauto.
  - case_bool_decide as Ht.
    + destruct (IH l) as ((k & Hk) & Hin & Hnd).
      split; [eauto|]. split; [|done].
      intros c. rewrite Hin, elem_of_cons. split; [tauto|].
      intros [H|[->|H]]; tauto.
    + destruct (IH (l ++ [t])) as ((k & Hk) & Hin & Hnd).
      split; [exists ([t] ++ k); now rewrite Hk, <- app_assoc|]. split.
      * intros c. rewrite Hin, elem_of_app, list_elem_of_singleton, elem_of_cons.
        tauto.
      * intros Hl. apply Hnd. apply NoDup_app. split; [done|].
        split; [|apply NoDup_singleton].
        intros c Hc ->%list_elem_of_singleton. done.
Qed.

(** ** One round of the cascade *)

Lemma explore_body_spec l c st t row0 st1 :
  shape (visible st) = shape (field st) ->
  field st !! 0%nat = Some row0 ->
  cell (field st) c = Some t ->
  st1 = set_visible st (grid_put (visible st) c t) ->
  exists l' st', explore_body l c st = Ok (l', st') /\
    field st' = field st /\ shape (visible st') = shape (field st) /\
    ((t = "x" /\ l' = l /\ running st' = false /\ won st' = won st /\
      forall c' t' v', cell (field st) c' = Some t' ->
        cell (visible st1) c' = Some v' ->
        cell (visible st') c' = Some (show_upd t' v')) \/
     (t <> "x" /\ all_clear st1 /\ l' = l /\
      running st' = false /\ won st' = true /\
      forall c' t' v', cell (field st) c' = Some t' ->
        cell (visible st1) c' = Some v' ->
        cell (visible st') c' = Some (flag_upd t' v')) \/
     (t <> "x" /\ ~ all_clear st1 /\ st' = st1 /\
      l' = if String.eqb t "0"
           then append_new l (get_surrounding_tiles c.1 c.2 st1) else l)).
Proof.
  intros Hshape H0 Ht E1.
  assert (in_grid (visible st) c) as Hin.
  { apply (in_grid_same_shape (field st)); [done|now exists t]. }
  assert (field st1 = field st) as Hf1 by now subst st1.
  assert (shape (visible st1) = shape (field st1)) as Hshape1.
  { subst st1. simpl. now rewrite shape_grid_put. }
  assert (cell (grid_put (visible st) c t) c = Some t) as Hv1.
  { rewrite cell_grid_put by done. now rewrite decide_True. }
  destruct c as [x y]. unfold explore_body.
  rewrite (get2_cell _ _ _ _ Ht). simpl.
  rewrite (set2_cell _ _ _ _ Hin). simpl.
  rewrite (get2_cell _ _ _ _ Hv1). simpl. rewrite <- E1.
  rewrite <- Hf1 in H0 |- *.
  destruct (String.eqb_spec t "x") as [->|Hne].
  - destruct (lose_game_spec st1 row0 Hshape1 H0)
      as (st' & -> & Hr & Hw & Hf & Hs & Hc). simpl.
    exists l, st'. split; [done|]. split; [done|]. split; [done|].
    left. rewrite Hw. now subst st1.
  - destruct (count_unexplored_tiles_spec st1 Hshape1) as (n & -> & Hn). simpl.
    destruct (Nat.eqb_spec n 0) as [->|Hn0].
    + destruct (win_game_spec st1 row0 Hshape1 H0)
        as (st' & -> & Hr & Hw & Hf & Hs & Hc). simpl.
      exists l, st'. split; [done|]. split; [done|]. split; [done|].
      right; left. split; [done|]. split; [now apply Hn|]. done.
    + assert (~ all_clear st1) as Hnc by (intros H; now apply Hn in H).
      simpl. destruct (String.eqb t "0"); eexists _, st1;
        (split; [reflexivity|]); (split; [done|]); (split; [done|]);
        right; right; done.
Qed.

Lemma cell_after_put st c t c' :
  in_grid (visible st) c ->
  cell (visible (set_visible st (grid_put (visible st) c t))) c' =
  if decide (c' = c) then Some t else cell (visible st) c'.
Proof. intros. simpl. now apply cell_grid_put. Qed.

(** ** The cascade loop *)

(** The rule of the [while] loop: an invariant that each round keeps, and
    that bounds the work list, holds when the loop ends, and the loop ends
    before the fuel does. *)
Lemma explore_loop_inv (I : list (Z * Z) -> nat -> State -> Prop) (bound : nat) :
  (forall l i st c, I l i st -> l !! i = Some c ->
     exists l' st', explore_body l c st = Ok (l', st') /\ I l' (S i) st') ->
  (forall l i st, I l i st -> (i <= length l <= bound)%nat) ->
  forall fuel l i st, I l i st -> (bound < fuel + i)%nat ->
    exists l' st', explore_loop fuel l i st = Ok (l', st') /\
                   I l' (length l') st'.
Proof.
  intros Hbody Hbound. induction fuel as [|fuel IH]; intros l i st HI Hfuel.
  - apply Hbound in HI. lia.
  - simpl. destruct (l !! i) as [c|] eqn:Hc.
    + destruct (Hbody l i st c HI Hc) as (l' & st' & -> & HI'). simpl.
      apply IH; [done|lia].
    + exists l, st. split; [done|].
      apply lookup_ge_None in Hc. pose proof (Hbound _ _ _ HI).
      now replace (length l) with i by lia.
Qed.

Lemma explore_loop_more_fuel fuel : forall fuel' l i st r,
  explore_loop fuel l i st = Ok r -> (fuel <= fuel')%nat ->
  explore_loop fuel' l i st = Ok r.
Proof.
  induction fuel as [|fuel IH]; intros fuel' l i st r E Hle; [done|].
  destruct fuel' as [|fuel']; [lia|]. simpl in *.
  destruct (l !! i); [|done].
  destruct (explore_body l p st) as [[l' st']| |]; simpl in *; try done.
  apply IH; [done|lia].
Qed.

(** ** Counting the coordinates of a grid *)

Lemma length_concat_imap {A B C} (f : nat -> A -> C) (g : nat -> list A -> list B)
    (G : list (list A)) :
  (forall y row, length (g y row) = length row) ->
  length (concat (imap g G)) = length (concat G).
Proof.
  revert g. induction G as [|row G IH]; intros g Hg; [done|].
  rewrite imap_cons. simpl. rewrite !length_app, Hg. f_equal.
  apply IH. intros y r. apply Hg.
Qed.

Lemma length_all_coords (g : list (list string)) :
  length (all_coords g) = length (concat g).
Proof.
  unfold all_coords. apply (length_concat_imap (fun _ _ => tt)).
  intros y row. apply length_imap.
Qed.

Lemma elem_of_all_coords (g : list (list string)) c :
  in_grid g c -> c ∈ all_coords g.
Proof.
  destruct c as [x y].
  intros [t (Hx & Hy & row & Hr & Ht)%cell_Some].
  unfold all_coords. apply list_elem_of_In, in_concat.
  exists (imap (fun x _ => (Z.of_nat x, Z.of_nat (Z.to_nat y))) row). split.
  - apply list_elem_of_In.
    apply (elem_of_lookup_imap_2
      (fun y row => imap (fun x (_ : string) => (Z.of_nat x, Z.of_nat y)) row) g row _ Hr).
  - apply list_elem_of_In.
    replace (x, y) with (Z.of_nat (Z.to_nat x), Z.of_nat (Z.to_nat y))
      by (f_equal; lia).
    apply (elem_of_lookup_imap_2
      (fun x (_ : string) => (Z.of_nat x, Z.of_nat (Z.to_nat y))) row t _ Ht).
Qed.

Lemma work_list_bound (g : list (list string)) (l : list (Z * Z)) :
  NoDup l -> (forall c, c ∈ l -> in_grid g c) ->
  (length l <= length (concat g))%nat.
Proof.
  intros Hnd Hin. rewrite <- length_all_coords.
  apply submseteq_length, NoDup_submseteq; [done|].
  intros c Hc. now apply elem_of_all_coords, Hin.
Qed.

Lemma length_concat_rectangular w h (g : list (list string)) :
  rectangular w h g -> length (concat g) = (w * h)%nat.
Proof.
  unfold rectangular, shape. revert h.
  induction g as [|row g IH]; intros [|h] E; simpl in *; try done; try lia.
  injection E as E1 E2. rewrite length_app, (IH h E2). lia.
Qed.

(** The invariant behind termination: the field and the shape of the
    visibility grid never change, and the work list holds distinct
    coordinates of the grid. *)
Lemma explore_terminates_inv F row0 :
  F !! 0%nat = Some row0 ->
  forall l i st c,
    (field st = F /\ shape (visible st) = shape F /\ NoDup l /\
     (forall c, c ∈ l -> in_grid F c) /\ (i <= length l)%nat) ->
    l !! i = Some c ->
    exists l' st', explore_body l c st = Ok (l', st') /\
      (field st' = F /\ shape (visible st') = shape F /\ NoDup l' /\
       (forall c, c ∈ l' -> in_grid F c) /\ (S i <= length l')%nat).
Proof.
  intros H0 l i st c (Hf & Hs & Hnd & Hin & Hi) Hc. subst F.
  assert (in_grid (field st) c) as [t Ht].
  { apply Hin. eapply list_elem_of_lookup_2, Hc. }
  apply lookup_lt_Some in Hc as Hlt.
  destruct (explore_body_spec l c st t row0 _ Hs H0 Ht eq_refl)
    as (l' & st' & E & Hf' & Hs' & Hcases).
  exists l', st'. split; [done|]. split; [done|]. split; [done|].
  destruct Hcases as [(_ & -> & _)|[(_ & _ & -> & _)|(_ & _ & _ & ->)]];
    try (split; [done|]; split; [done|]; lia).
  destruct (String.eqb t "0"); [|split; [done|]; split; [done|]; lia].
  destruct (append_new_spec
    (get_surrounding_tiles c.1 c.2
       (set_visible st (grid_put (visible st) c t))) l)
    as ((k & Hk) & Hmem & Hnd').
  split; [auto|]. split.
  - intros c' [H|H]%Hmem; [auto|].
    now apply get_surrounding_tiles_spec in H as [_ H].
  - rewrite Hk, length_app. lia.
Qed.

(** ** Splitting the shuffled tiles into rows *)

Lemma py_slice_inside {A} (l : list A) i j :
  (0 <= i <= j)%Z -> (j <= Z.of_nat (length l))%Z ->
  py_slice l i j = take (Z.to_nat (j - i)) (drop (Z.to_nat i) l).
Proof.
  intros Hi Hj. unfold py_slice, py_slice_end.
  destruct (Z.ltb_spec i 0), (Z.ltb_spec j 0); try lia.
  now rewrite !Z.min_l by lia.
Qed.

Lemma rows_exact {A} (w : nat) : forall h (l : list A),
  length l = (h * w)%nat ->
  length <$> ((fun k => take w (drop (k * w) l)) <$> seq 0 h) = replicate h w /\
  concat ((fun k => take w (drop (k * w) l)) <$> seq 0 h) = l.
Proof.
  induction h as [|h IH]; intros l Hl.
  - simpl in *. now apply nil_length_inv in Hl as ->.
  - destruct (IH (drop w l)) as [IH1 IH2].
    { rewrite length_drop, Hl. lia. }
    rewrite <- cons_seq, <- fmap_S_seq. rewrite !fmap_cons.
    rewrite <- (list_fmap_compose S (fun k => take w (drop (k * w) l))).
    rewrite (list_fmap_ext _ (fun k => take w (drop (k * w) (drop w l))) (seq 0 h)).
    2:{ intros i k _. simpl. rewrite drop_drop. f_equal. }
    simpl concat. rewrite IH1, IH2. simpl. rewrite drop_0, take_drop.
    split; [|done]. f_equal. rewrite length_take, Hl. lia.
Qed.

Lemma chunks_spec {A} (l : list A) (w h : nat) :
  (0 < w)%nat -> length l = (h * w)%nat ->
  exists rows, chunks l (Z.of_nat w) = Ok rows /\
    length <$> rows = replicate h w /\ concat rows = l.
Proof.
  intros Hw Hl. unfold chunks, py_range_step.
  destruct (Z.eqb_spec (Z.of_nat w) 0); [lia|].
  destruct (Z.ltb_spec 0 (Z.of_nat w)); [|lia]. simpl.
  replace (Z.to_nat ((Z.of_nat (length l) + Z.of_nat w - 1) / Z.of_nat w)) with h.
  2:{ rewrite Hl.
      rewrite <- (Z.div_unique _ _ (Z.of_nat h) (Z.of_nat w - 1)); lia. }
  eexists. split; [done|].
  rewrite <- (list_fmap_compose (fun k : nat => (Z.of_nat k * Z.of_nat w)%Z)
                (fun i => py_slice l i (i + Z.of_nat w))).
  rewrite (list_fmap_ext _ (fun k => take w (drop (k * w) l)) (seq 0 h)).
  - now apply rows_exact.
  - intros i k Hk. simpl. apply lookup_seq in Hk as [-> Hi]. simpl.
    rewrite py_slice_inside by nia.
    f_equal; [lia|]. f_equal. lia.
Qed.

(** ** Counting the mines around a tile *)

Lemma is_mine_inside (g : list (list string)) x y :
  (0 <= y < Z.of_nat (length g))%Z ->
  (0 <= x < Z.of_nat (length (item [] g y)))%Z ->
  is_mine g (x, y) = String.eqb (item "" (item [] g y) x) "x".
Proof.
  intros Hy Hx.
  destruct (lookup_lt_is_Some_2 g (Z.to_nat y)) as [row Hr]; [lia|].
  rewrite (item_lookup _ _ _ _ Hr) in *.
  destruct (lookup_lt_is_Some_2 row (Z.to_nat x)) as [t Ht]; [lia|].
  rewrite (item_lookup _ _ _ _ Ht).
  assert (cell g (x, y) = Some t) as Hc.
  { apply cell_Some. repeat split; try lia. now exists row. }
  unfold is_mine. rewrite Hc.
  destruct (String.eqb_spec t "x") as [->|Hne].
  - now apply bool_decide_eq_true.
  - apply bool_decide_eq_false. congruence.
Qed.

Lemma is_mine_outside (g : list (list string)) c :
  ~ in_grid g c -> is_mine g c = false.
Proof.
  intros Hout. unfold is_mine. apply bool_decide_eq_false.
  intros Hc. apply Hout. now exists "x".
Qed.

Lemma tile_indicator (g : list (list string)) x y acc :
  (0 <= y < Z.of_nat (length g))%Z ->
  (if (0 <=? x)%Z && (x <? Z.of_nat (length (item [] g y)))%Z
   then if String.eqb (item "" (item [] g y) x) "x" then S acc else acc
   else acc) = (acc + mine_indicator g (x, y))%nat.
Proof.
  intros Hy. unfold mine_indicator.
  destruct (Z.leb_spec 0 x), (Z.ltb_spec x (Z.of_nat (length (item [] g y))));
    simpl.
  - rewrite is_mine_inside by lia.
    destruct (String.eqb _ _); lia.
  - rewrite is_mine_outside; [lia|]. rewrite in_grid_item. lia.
  - rewrite is_mine_outside; [lia|]. rewrite in_grid_item. lia.
  - rewrite is_mine_outside; [lia|]. rewrite in_grid_item. lia.
Qed.

Lemma row_indicator (g : list (list string)) x y acc :
  (if (0 <=? y)%Z && (y <? Z.of_nat (length g))%Z
   then foldl (fun mines d_x =>
          if (0 <=? x + d_x)%Z &&
             (x + d_x <? Z.of_nat (length (item [] g y)))%Z
          then if String.eqb (item "" (item [] g y) (x + d_x)) "x"
               then S mines else mines
          else mines) acc [-1; 0; 1]%Z
   else acc) =
  (acc + mine_indicator g ((x - 1)%Z, y) + mine_indicator g (x, y) +
   mine_indicator g ((x + 1)%Z, y))%nat.
Proof.
  destruct (Z.leb_spec 0 y), (Z.ltb_spec y (Z.of_nat (length g))); simpl.
  - rewrite !tile_indicator by lia.
    now rewrite Z.add_0_r.
  - unfold mine_indicator.
    rewrite !is_mine_outside; [lia| | |]; rewrite in_grid_item; lia.
  - unfold mine_indicator.
    rewrite !is_mine_outside; [lia| | |]; rewrite in_grid_item; lia.
  - unfold mine_indicator.
    rewrite !is_mine_outside; [lia| | |]; rewrite in_grid_item; lia.
Qed.

Lemma length_filter_cons {A} (p : A -> bool) a l :
  length (List.filter p (a :: l)) =
  ((if p a then 1 else 0) + length (List.filter p l))%nat.
Proof. simpl. now destruct (p a). Qed.

Lemma foldl_three {A B} (f : A -> B -> A) a x y z :
  foldl f a [x; y; z] = f (f (f a x) y) z.
Proof. reflexivity. Qed.

Lemma count_surrounding_mines_spec (g : list (list string)) x y :
  count_surrounding_mines x y g =
  (mine_neighbours g (x, y) + mine_indicator g (x, y))%nat.
Proof.
  unfold count_surrounding_mines.
  change (seqZ (-1) 3) with [-1; 0; 1]%Z.
  rewrite foldl_three. cbv beta zeta. rewrite !row_indicator.
  unfold mine_neighbours, around. rewrite !length_filter_cons. simpl.
  rewrite Z.add_0_r. unfold mine_indicator.
  change (y + -1)%Z with (y - 1)%Z.
  repeat match goal with |- context [is_mine g ?c] =>
    generalize (is_mine g c); intro end.
  repeat match goal with b : bool |- _ => destruct b end; reflexivity.
Qed.

Lemma mine_neighbours_ext (g g' : list (list string)) c :
  (forall c', is_mine g c' = is_mine g' c') ->
  mine_neighbours g c = mine_neighbours g' c.
Proof.
  intros E. unfold mine_neighbours. f_equal.
  apply List.filter_ext. exact E.
Qed.

Lemma count_surrounding_mines_ext (g g' : list (list string)) x y :
  (forall c, is_mine g c = is_mine g' c) ->
  count_surrounding_mines x y g = count_surrounding_mines x y g'.
Proof.
  intros E. rewrite !count_surrounding_mines_spec.
  unfold mine_indicator. now rewrite E, (mine_neighbours_ext g g' _ E).
Qed.

(** ** The double loop of [create_field] *)

Lemma foldl_seq_inv {T} (f : T -> nat -> T) (I : nat -> T -> Prop) n s :
  I 0%nat s ->
  (forall k s, (k < n)%nat -> I k s -> I (S k) (f s k)) ->
  I n (foldl f s (seq 0 n)).
Proof.
  intros H0. induction n as [|n IH]; intros Hstep; [done|].
  rewrite seq_S, foldl_snoc. simpl. apply Hstep; [lia|].
  apply IH. intros k s' Hk. apply Hstep. lia.
Qed.

Lemma filled_tile_mine orig c t :
  String.eqb (filled_tile orig c t) "x" = String.eqb t "x".
Proof.
  unfold filled_tile. destruct (String.eqb_spec t "x"); [done|].
  apply eqb_x_str.
Qed.

Lemma Filled_is_mine orig y x cur :
  Filled orig y x cur -> forall c, is_mine cur c = is_mine orig c.
Proof.
  intros [Hs Hc] c. destruct (cell orig c) as [t|] eqn:Ht.
  - unfold is_mine. rewrite (Hc c t Ht), Ht.
    apply bool_decide_ext. case_decide.
    + pose proof (filled_tile_mine orig c t) as E.
      split; intros [= Hx]; f_equal.
      * rewrite Hx in E. simpl in E. symmetry in E. now apply String.eqb_eq in E.
      * subst t. reflexivity.
    + done.
  - rewrite !is_mine_outside; [done| |].
    + intros [t' Ht']. congruence.
    + intros Hin. apply (in_grid_same_shape _ orig) in Hin; [|done].
      destruct Hin as [t' Ht']. congruence.
Qed.

Lemma Filled_step orig y x cur t :
  Filled orig y x cur ->
  cell orig (Z.of_nat x, Z.of_nat y) = Some t ->
  Filled orig y (S x) (fill_tile y x cur).
Proof.
  intros HF Ht. pose proof HF as [Hs Hc].
  pose proof (Hc _ _ Ht) as Hcur.
  rewrite decide_False in Hcur by (unfold passed; simpl; lia).
  pose proof Hcur as (_ & _ & row & Hr & Hx)%cell_Some.
  rewrite !Nat2Z.id in Hr, Hx.
  assert (in_grid cur (Z.of_nat x, Z.of_nat y)) as Hin by now exists t.
  unfold fill_tile.
  rewrite (item_lookup [] cur (Z.of_nat y) row) by now rewrite Nat2Z.id.
  rewrite (item_lookup "" row (Z.of_nat x) t) by now rewrite Nat2Z.id.
  destruct (String.eqb_spec t "x") as [->|Hne]; simpl.
  - split; [done|]. intros c t' Ht'. rewrite (Hc c t' Ht').
    pose proof (passed_next y x c) as Hn.
    destruct (decide (c = (Z.of_nat x, Z.of_nat y))) as [->|Hneq].
    + rewrite Ht in Ht'. injection Ht' as <-.
      rewrite decide_False by (unfold passed; simpl; lia).
      rewrite decide_True by (apply passed_next; now right).
      done.
    + repeat case_decide; tauto.
  - assert (<[y:=<[x:=str (count_surrounding_mines (Z.of_nat x) (Z.of_nat y) cur)]> row]> cur
            = grid_put cur (Z.of_nat x, Z.of_nat y)
                (str (count_surrounding_mines (Z.of_nat x) (Z.of_nat y) cur))) as ->.
    { unfold grid_put; simpl. rewrite !Nat2Z.id.
      now rewrite (item_lookup [] cur (Z.of_nat y) row) by now rewrite Nat2Z.id. }
    split; [now rewrite shape_grid_put|].
    intros c t' Ht'. rewrite cell_grid_put by done.
    pose proof (passed_next y x c) as Hn.
    case_decide as Hc'.
    + subst c. rewrite Ht in Ht'. injection Ht' as <-.
      rewrite decide_True by tauto. unfold filled_tile.
      destruct (String.eqb_spec t "x"); [done|]. simpl.
      do 2 f_equal. apply count_surrounding_mines_ext.
      eapply Filled_is_mine, HF.
    + rewrite (Hc c t' Ht'). repeat case_decide; tauto.
Qed.

Lemma Filled_row orig y cur :
  Filled orig y 0 cur -> (y < length orig)%nat ->
  Filled orig (S y) 0 (fill_row cur y).
Proof.
  intros HF Hy. pose proof HF as [Hs Hc].
  destruct (lookup_lt_is_Some_2 orig y Hy) as [row Hr].
  assert (length (item [] cur (Z.of_nat y)) = length row) as Hlen.
  { assert (shape cur !! y = Some (length row)) as H.
    { rewrite Hs. unfold shape. now rewrite list_lookup_fmap, Hr. }
    unfold shape in H. rewrite list_lookup_fmap in H.
    destruct (cur !! y) as [row'|] eqn:Hr'; [|done].
    rewrite (item_lookup [] cur (Z.of_nat y) row') by now rewrite Nat2Z.id.
    now injection H. }
  unfold fill_row. rewrite Hlen.
  assert (Filled orig y (length row)
            (foldl (fun field x => fill_tile y x field) cur (seq 0 (length row))))
    as [Hs' Hc'].
  { apply (foldl_seq_inv (fun field x => fill_tile y x field)
             (fun x s => Filled orig y x s)); [done|].
    intros x s Hx Hxs.
    destruct (lookup_lt_is_Some_2 row x Hx) as [t Ht].
    apply (Filled_step orig y x s t Hxs).
    rewrite cell_of_nat, Hr. done. }
  split; [done|]. intros c t Ht. rewrite (Hc' c t Ht).
  assert (in_grid orig c) as Hin by now exists t.
  pose proof (passed_row orig y row c Hr Hin).
  repeat case_decide; tauto.
Qed.

Lemma fill_counts_spec orig :
  shape (fill_counts orig) = shape orig /\
  forall c t, cell orig c = Some t ->
    cell (fill_counts orig) c = Some (filled_tile orig c t).
Proof.
  assert (Filled orig (length orig) 0 (fill_counts orig)) as [Hs Hc].
  { unfold fill_counts.
    apply (foldl_seq_inv fill_row (fun y s => Filled orig y 0 s)).
    - split; [done|]. intros [cx cy] t Ht.
      apply cell_Some in Ht as Ht'. destruct Ht' as (Hx & Hy & _).
      rewrite decide_False; [done|]. now apply passed_start.
    - intros y s Hy Hys. now apply Filled_row. }
  split; [done|]. intros c t Ht. rewrite (Hc c t Ht).
  rewrite decide_True; [done|]. apply passed_end. now exists t.
Qed.

Lemma fill_counts_is_mine orig c :
  is_mine (fill_counts orig) c = is_mine orig c.
Proof.
  destruct (fill_counts_spec orig) as [Hs Hc].
  apply (Filled_is_mine orig (length orig) 0).
  split; [done|]. intros c' t Ht. rewrite (Hc c' t Ht).
  rewrite decide_True; [done|]. apply passed_end. now exists t.
Qed.

Lemma fill_counts_consistent orig : counts_consistent (fill_counts orig).
Proof.
  destruct (fill_counts_spec orig) as [Hs Hc].
  intros c t' Ht' Hne.
  assert (in_grid orig c) as [t Ht].
  { apply (in_grid_same_shape (fill_counts orig)); [done|now exists t']. }
  rewrite (Hc c t Ht) in Ht'. injection Ht' as Et. subst t'.
  unfold filled_tile in *.
  destruct (String.eqb_spec t "x") as [Hx|Hnx]; [done|].
  f_equal. destruct c as [x y]. simpl.
  rewrite count_surrounding_mines_spec.
  unfold mine_indicator.
  assert (is_mine orig (x, y) = false) as ->.
  { unfold is_mine. rewrite Ht. apply bool_decide_eq_false. congruence. }
  rewrite Nat.add_0_r. apply mine_neighbours_ext.
  intros c'. symmetry. apply fill_counts_is_mine.
Qed.

(** ** Counting the mines of a grid *)

Lemma filter_length_perm {A} (p : A -> bool) (l l' : list A) :
  l ≡ₚ l' -> length (List.filter p l) = length (List.filter p l').
Proof.
  induction 1 as [|a l l' _ IH|a b l|l l' l'' _ IH1 _ IH2]; simpl.
  - done.
  - destruct (p a); simpl; now rewrite IH.
  - destruct (p a), (p b); done.
  - now rewrite IH1.
Qed.

Lemma filter_length_replicate {A} (p : A -> bool) n a :
  length (List.filter p (replicate n a)) = if p a then n else 0%nat.
Proof.
  induction n as [|n IH]; simpl; [now destruct (p a)|].
  destruct (p a); simpl; now rewrite IH.
Qed.

Lemma row_mines_ext (row : list string) : forall row',
  length row = length row' ->
  (forall x : nat, row !! x = Some "x" <-> row' !! x = Some "x") ->
  length (List.filter (fun t => String.eqb t "x") row) =
  length (List.filter (fun t => String.eqb t "x") row').
Proof.
  induction row as [|t row IH]; intros [|t' row'] Hlen Hx; try done.
  simpl in *.
  assert (String.eqb t "x" = String.eqb t' "x") as ->.
  { specialize (Hx 0%nat). simpl in Hx.
    destruct (String.eqb_spec t "x") as [->|], (String.eqb_spec t' "x") as [->|];
      try done.
    - destruct Hx as [Hx _]. specialize (Hx eq_refl). congruence.
    - destruct Hx as [_ Hx]. specialize (Hx eq_refl). congruence. }
  assert (length (List.filter (fun t => String.eqb t "x") row) =
          length (List.filter (fun t => String.eqb t "x") row')) as E.
  { apply IH; [lia|]. intros x. apply (Hx (S x)). }
  destruct (String.eqb t' "x"); simpl; now rewrite E.
Qed.

Lemma is_mine_of_nat (g : list (list string)) (x y : nat) :
  is_mine g (Z.of_nat x, Z.of_nat y) = true <->
  exists row, g !! y = Some row /\ row !! x = Some "x".
Proof.
  unfold is_mine. rewrite bool_decide_eq_true, cell_Some, !Nat2Z.id.
  split; [tauto|]. intros H. repeat split; try lia. done.
Qed.

Lemma mine_count_ext (g : list (list string)) : forall g',
  shape g = shape g' ->
  (forall c, is_mine g c = is_mine g' c) ->
  mine_count g = mine_count g'.
Proof.
  unfold mine_count.
  induction g as [|row g IH]; intros [|row' g'] Hs Hm; try done.
  simpl in *. injection Hs as Hlen Hs.
  rewrite !List.filter_app, !length_app. f_equal.
  - apply row_mines_ext; [done|]. intros x.
    pose proof (is_mine_of_nat (row :: g) x 0) as H1.
    pose proof (is_mine_of_nat (row' :: g') x 0) as H2.
    rewrite Hm in H1. simpl in *. split; intros Hx.
    + destruct H1 as [_ H1].
      specialize (H1 (ex_intro _ row (conj eq_refl Hx))).
      apply H2 in H1 as (r & [= <-] & Hr). exact Hr.
    + destruct H2 as [_ H2].
      specialize (H2 (ex_intro _ row' (conj eq_refl Hx))).
      apply H1 in H2 as (r & [= <-] & Hr). exact Hr.
  - apply IH; [done|]. intros [x y].
    destruct (decide (0 <= x /\ 0 <= y)%Z) as [[Hx Hy]|Hneg].
    + specialize (Hm (x, y + 1)%Z). unfold is_mine, cell in *. simpl in *.
      destruct (Z.leb_spec 0 x), (Z.leb_spec 0 y), (Z.leb_spec 0 (y + 1));
        try lia. simpl in *.
      replace (Z.to_nat (y + 1)) with (S (Z.to_nat y)) in Hm by lia.
      exact Hm.
    + unfold is_mine, cell. simpl.
      destruct (Z.leb_spec 0 x), (Z.leb_spec 0 y); try lia; done.
Qed.

(** ** Field generation *)

Lemma create_field_spec shuffle (width height mines : Z) :
  (forall l, l ≡ₚ shuffle l) ->
  (1 <= width)%Z -> (1 <= height)%Z -> (1 <= mines <= width * height)%Z ->
  exists field,
    create_field shuffle width height mines =
      Ok (field, replicate (Z.to_nat height) (replicate (Z.to_nat width) " ")) /\
    rectangular (Z.to_nat width) (Z.to_nat height) field /\
    mine_count field = Z.to_nat mines /\
    counts_consistent field.
Proof.
  intros Hperm Hw Hh Hm. unfold create_field, py_repeat.
  set (tiles := replicate (Z.to_nat mines) "x" ++
                replicate (Z.to_nat (width * height - mines)) "0").
  assert (length (shuffle tiles) = (Z.to_nat height * Z.to_nat width)%nat) as Hlen.
  { rewrite <- (Permutation_length (Hperm tiles)). unfold tiles.
    rewrite length_app, !length_replicate. nia. }
  destruct (chunks_spec (shuffle tiles) (Z.to_nat width) (Z.to_nat height))
    as (rows & E & Hshape & Hconcat); [lia|done|].
  rewrite Z2Nat.id in E by lia. rewrite E. simpl.
  exists (fill_counts rows). split; [done|].
  destruct (fill_counts_spec rows) as [Hs _].
  split; [unfold rectangular; now rewrite Hs|].
  split; [|apply fill_counts_consistent].
  rewrite (mine_count_ext (fill_counts rows) rows Hs (fill_counts_is_mine rows)).
  unfold mine_count. rewrite Hconcat.
  rewrite <- (filter_length_perm _ _ _ (Hperm tiles)). unfold tiles.
  rewrite List.filter_app, length_app, !filter_length_replicate. simpl. lia.
Qed.

Lemma rectangular_rows w h (g : list (list string)) :
  rectangular w h g <->
  length g = h /\ Forall (fun row => length row = w) g.
Proof.
  unfold rectangular, shape. revert h.
  induction g as [|row g IH]; intros [|h]; simpl; split; try done.
  - intros [? _]. done.
  - intros [? _]. done.
  - intros [= Hr Hg]. apply IH in Hg as [Hl Hf]. split; [lia|].
    now constructor.
  - intros [Hl Hf]. inversion Hf; subst. f_equal. apply IH. split; [lia|done].
Qed.

(** ** The prompts *)

Lemma get_positive_integer_spec inputs n rest :
  get_positive_integer inputs = Some (n, rest) ->
  (1 <= n)%Z /\ (length rest < length inputs)%nat.
Proof.
  induction inputs as [|[k|] inputs IH]; simpl; try done.
  - destruct (Z.gtb_spec k 0).
    + intros [= -> ->]. lia.
    + intros E. apply IH in E. lia.
  - intros E. apply IH in E. lia.
Qed.

Lemma ask_mines_spec rounds : forall inputs width height mines rest,
  ask_mines rounds inputs width height = Some (mines, rest) ->
  (1 <= mines <= width * height)%Z.
Proof.
  induction rounds as [|rounds IH]; intros inputs w h m rest; simpl; [done|].
  destruct (get_positive_integer inputs) as [[k rest']|]; [|done].
  destruct (Z.ltb_spec k 1), (Z.gtb_spec k (w * h)); simpl;
    try (apply IH).
  intros [= -> ->]. lia.
Qed.

Lemma init_game_config_spec inputs width height mines :
  init_game_config inputs = Some (width, height, mines) ->
  (1 <= width)%Z /\ (1 <= height)%Z /\ (1 <= mines <= width * height)%Z.
Proof.
  unfold init_game_config.
  destruct (get_positive_integer inputs) as [[w r1]|] eqn:E1; [|done].
  destruct (get_positive_integer r1) as [[h r2]|] eqn:E2; [|done].
  destruct (ask_mines (length r2) r2 w h) as [[m r3]|] eqn:E3; [|done].
  intros [= -> -> ->].
  apply get_positive_integer_spec in E1, E2. apply ask_mines_spec in E3.
  lia.
Qed.

Lemma create_field_raises shuffle width height mines :
  match create_field shuffle width height mines with
  | Ok _ => width <> 0%Z
  | Raise e => width = 0%Z /\ e = ValueError
  | OutOfFuel => False
  end.
Proof.
  unfold create_field, chunks, py_range_step.
  destruct (Z.eqb_spec width 0); simpl; [done|].
  destruct (0 <? width)%Z; simpl; done.
Qed.

(** ** Tiles next to a ["0"] *)

Lemma adjacent_around c c' : adjacent c c' <-> In c' (around c).
Proof.
  destruct c as [x y], c' as [x' y']. unfold adjacent, around; simpl. split.
  - intros (Hne & Hx & Hy).
    assert (x' = x - 1 \/ x' = x \/ x' = x + 1)%Z as Hx' by lia.
    assert (y' = y - 1 \/ y' = y \/ y' = y + 1)%Z as Hy' by lia.
    destruct Hx' as [ -> | [ -> | -> ] ], Hy' as [ -> | [ -> | -> ] ]; tauto.
  - intros H. repeat destruct H as [H|H]; try done;
      inversion H; subst; (split; [intros [=]; lia|lia]).
Qed.

Lemma zero_no_mine_neighbour (g : list (list string)) c c' :
  counts_consistent g -> cell g c = Some "0" -> adjacent c c' ->
  cell g c' <> Some "x".
Proof.
  intros Hcc Hc Hadj Hmine.
  assert (mine_neighbours g c = 0%nat) as Hz.
  { apply str_zero. symmetry. now apply Hcc. }
  unfold mine_neighbours in Hz. apply length_zero_iff_nil in Hz.
  apply adjacent_around in Hadj.
  assert (In c' (List.filter (is_mine g) (around c))) as Hin.
  { apply List.filter_In. split; [done|]. now apply bool_decide_eq_true. }
  now rewrite Hz in Hin.
Qed.

Lemma reached_clear (g : list (list string)) seed ts c :
  counts_consistent g -> cell g seed = Some ts -> ts <> "x" ->
  reached g seed c -> exists t, cell g c = Some t /\ t <> "x".
Proof.
  intros Hcc Hs Hne. induction 1 as [|c c' _ _ Hz Hadj [t Ht]]; [eauto|].
  exists t. split; [done|]. intros ->.
  now apply (zero_no_mine_neighbour g c c').
Qed.

Lemma counts_revealed (g : list (list string)) c t :
  counts_consistent g -> cell g c = Some t -> t <> "x" -> Revealed t.
Proof.
  intros Hcc Ht Hne. rewrite (Hcc c t Ht Hne).
  destruct (str_not_symbol (mine_neighbours g c)) as (_ & ? & ?). done.
Qed.

(** ** The cascade from a tile that is not a mine *)

Section cascade.
Variables (F V0 : list (list string)) (seed : Z * Z) (row0 : list string)
          (ts : string).
Hypothesis F_row0 : F !! 0%nat = Some row0.
Hypothesis F_counts : counts_consistent F.
Hypothesis V0_shape : shape V0 = shape F.
Hypothesis seed_tile : cell F seed = Some ts.
Hypothesis seed_clear : ts <> "x".

Lemma take_index_next (l k : list (Z * Z)) i c c' :
  NoDup l -> l !! i = Some c ->
  (c' ∈ take (S i) (l ++ k) <-> c' ∈ take i l \/ c' = c) /\ c ∉ take i l.
Proof.
  intros Hnd Hi. apply lookup_lt_Some in Hi as Hlt. split.
  - rewrite take_app_le by lia. rewrite (take_S_r _ _ _ Hi).
    rewrite elem_of_app, list_elem_of_singleton. done.
  - intros (j & Hj & Hji)%elem_of_take.
    pose proof (NoDup_lookup _ _ _ _ Hnd Hj Hi). lia.
Qed.

Lemma all_clear_put st c t :
  field st = F -> shape (visible st) = shape F ->
  cell F c = Some t -> t <> "x" ->
  all_clear st ->
  all_clear (set_visible st (grid_put (visible st) c t)).
Proof.
  intros Hf Hs Ht Hne Hall c' t' v'. simpl. rewrite Hf.
  rewrite cell_grid_put.
  2:{ apply (in_grid_same_shape F); [done|now exists t]. }
  case_decide as Hc.
  - subst c'. intros _ _ [= <-]. now apply (counts_revealed F c).
  - intros Ht' Hne' Hv'. apply (Hall c' t' v'); [now rewrite Hf|done|done].
Qed.

Lemma Cascade_step l i st c :
  Cascade F V0 seed l i st -> l !! i = Some c ->
  exists l' st', explore_body l c st = Ok (l', st') /\
                 Cascade F V0 seed l' (S i) st'.
Proof.
  intros HC Hi. pose proof HC as [Hf Hs Hnd Hidx Hseed Hreach Hclear Hmines Hrun Hwon].
  assert (c ∈ l) as Hcl by (eapply list_elem_of_lookup_2, Hi).
  destruct (reached_clear F seed ts c F_counts seed_tile seed_clear (Hreach c Hcl))
    as (t & Ht & Hne).
  apply lookup_lt_Some in Hi as Hlt.
  assert (in_grid (visible st) c) as Hin.
  { apply (in_grid_same_shape F); [done|now exists t]. }
  set (st1 := set_visible st (grid_put (visible st) c t)).
  assert (forall c', cell (visible st1) c' =
            if decide (c' = c) then Some t else cell (visible st) c') as Hv1.
  { intros c'. unfold st1. simpl. now apply cell_grid_put. }
  assert (shape (visible st1) = shape F) as Hs1.
  { unfold st1. simpl. now rewrite shape_grid_put. }
  rewrite <- Hf in F_row0, Ht.
  destruct (explore_body_spec l c st t row0 st1 ltac:(now rewrite Hf) F_row0 Ht eq_refl)
    as (l' & st' & E & Hf' & Hs' & Hcases).
  rewrite Hf in F_row0, Ht, Hf', Hs', Hcases.
  exists l', st'. split; [done|].
  destruct Hcases as [(Hx & _)|[(_ & Hall1 & -> & Hr' & Hw' & Hv')|
                                (_ & Hnall1 & -> & Hl')]]; [done| |].
  - (* the win *)
    pose proof (take_index_next l [] i c) as Htake.
    rewrite app_nil_r in Htake.
    constructor; try done.
    + intros c' t' v0 Ht' Hne' Hv0.
      destruct (Htake c' Hnd Hi) as [Hmem Hnot].
      assert (exists v1, cell (visible st1) c' = Some v1 /\
                v1 = if decide (c' ∈ take (S i) l) then t' else v0)
        as (v1 & Hc1 & ->).
      { rewrite Hv1. case_decide as Hcc.
        - subst c'. exists t. split; [done|].
          rewrite decide_True by (apply Hmem; now right). congruence.
        - rewrite (Hclear c' t' v0 Ht' Hne' Hv0). eexists. split; [done|].
          repeat case_decide; tauto. }
      rewrite (Hv' c' t' _ Ht' Hc1). unfold flag_upd.
      destruct (String.eqb_spec t' "x"); done.
    + intros c' v0 Ht' Hv0. rewrite Hr'.
      assert (c' <> c) as Hcc by (intros ->; congruence).
      specialize (Hv1 c'). rewrite decide_False in Hv1 by done.
      rewrite (Hmines c' v0 Ht' Hv0) in Hv1.
      rewrite (Hv' c' "x" _ Ht' Hv1). done.
    + intros Hr. congruence.
    + intros _. split; [done|]. intros c' t' v' Ht' Hne' Hv''.
      rewrite Hf' in Ht'.
      assert (in_grid (visible st1) c') as [v1 Hc1].
      { apply (in_grid_same_shape F); [done|now exists t']. }
      rewrite (Hv' c' t' v1 Ht' Hc1) in Hv''. injection Hv'' as <-.
      unfold flag_upd. destruct (String.eqb_spec t' "x"); [done|].
      apply (Hall1 c' t' v1); [unfold st1; simpl; now rewrite Hf|done|done].
  - (* no win *)
    assert (running st = true) as Hr.
    { destruct (running st) eqn:Hr; [done|]. exfalso. apply Hnall1.
      apply all_clear_put; try done. now apply Hwon. }
    destruct (Hrun Hr) as (Hw & Hclosed & Hnot).
    assert (exists k, l' = l ++ k) as [k Hk].
    { subst l'. destruct (String.eqb t "0"); [|exists []; now rewrite app_nil_r].
      apply append_new_spec. }
    assert (NoDup l') as Hnd'.
    { subst l'. destruct (String.eqb t "0"); [|done].
      now apply append_new_spec. }
    assert (forall c', c' ∈ l' <->
              c' ∈ l \/ (t = "0" /\ adjacent c c' /\ in_grid F c')) as Hmem'.
    { intros c'. rewrite Hl'. destruct (String.eqb_spec t "0") as [->|Hn0].
      - destruct (append_new_spec
          (get_surrounding_tiles c.1 c.2 st1) l) as (_ & -> & _).
        rewrite get_surrounding_tiles_spec. simpl. rewrite Hf.
        destruct c. simpl. tauto.
      - tauto. }
    pose proof (take_index_next l k i c) as Htake. rewrite <- Hk in Htake.
    constructor; try done.
    + rewrite Hk, length_app. lia.
    + rewrite Hk. now apply lookup_app_l_Some.
    + intros c' [H|(-> & Hadj & Hin')]%Hmem'; [auto|].
      apply (reached_next F seed c c'); auto.
    + intros c' t' v0 Ht' Hne' Hv0.
      destruct (Htake c' Hnd Hi) as [Hmem Hnot'].
      rewrite Hv1. case_decide as Hcc.
      * subst c'. rewrite decide_True by (apply Hmem; now right). congruence.
      * rewrite (Hclear c' t' v0 Ht' Hne' Hv0). f_equal.
        repeat case_decide; tauto.
    + intros c' v0 Ht' Hv0.
      assert (c' <> c) as Hcc by (intros ->; congruence).
      rewrite Hv1, decide_False by done.
      now rewrite (Hmines c' v0 Ht' Hv0).
    + intros _. split; [done|]. split; [|done].
      intros j cj c' Hj Hcj Hz Hadj Hin'. apply Hmem'.
      destruct (decide (j = i)) as [->|Hji].
      * rewrite Hk, (lookup_app_l_Some _ _ _ _ Hi) in Hcj.
        injection Hcj as <-. right. split; [congruence|done].
      * left. apply (Hclosed j cj c'); try done; [lia|].
        rewrite Hk, lookup_app_l in Hcj by lia. done.
    + intros Hr'. simpl in Hr'. congruence.
Qed.
End cascade.

Lemma Cascade_start st seed ts :
  cell (field st) seed = Some ts ->
  shape (visible st) = shape (field st) ->
  running st = true -> won st = false ->
  Cascade (field st) (visible st) seed [seed] 0 st.
Proof.
  intros Hseed Hs Hr Hw. constructor.
  - done.
  - done.
  - apply NoDup_singleton.
  - simpl. lia.
  - done.
  - intros c ->%list_elem_of_singleton. constructor.
  - intros c t v0 _ _ Hv0. rewrite decide_False; [done|].
    simpl. apply not_elem_of_nil.
  - intros c v0 _ Hv0. now rewrite Hr.
  - intros _. split; [done|]. split; [|lia]. intros k c c' Hk. lia.
  - congruence.
Qed.

Lemma explore_clear_spec st x y ts row0 :
  field st !! 0%nat = Some row0 ->
  counts_consistent (field st) ->
  shape (visible st) = shape (field st) ->
  cell (field st) (x, y) = Some ts -> ts <> "x" ->
  running st = true -> won st = false ->
  exists l st',
    explore_loop (explore_fuel st) [(x, y)] 0 st = Ok (l, st') /\
    explore_tile x y st = Ok st' /\
    Cascade (field st) (visible st) (x, y) l (length l) st'.
Proof.
  intros H0 Hcc Hs Hseed Hne Hr Hw.
  destruct (explore_loop_inv
    (Cascade (field st) (visible st) (x, y)) (length (concat (field st))))
    with (fuel := explore_fuel st) (l := [(x, y)]) (i := 0%nat) (st := st)
    as (l & st' & E & HC).
  - intros l i s c. now apply (Cascade_step _ _ _ row0 ts).
  - intros l i s HC. split; [apply HC|].
    apply work_list_bound; [apply HC|].
    intros c Hc. apply (casc_reached _ _ _ _ _ _ HC) in Hc.
    destruct (reached_clear _ _ ts c Hcc Hseed Hne Hc) as (t & Ht & _).
    now exists t.
  - now apply (Cascade_start st (x, y) ts).
  - unfold explore_fuel. lia.
  - exists l, st'. split; [done|]. split; [|done].
    unfold explore_tile. now rewrite E.
Qed.

Section cascade_end.
Variables (F V0 : list (list string)) (seed : Z * Z) (ts : string)
          (l : list (Z * Z)) (st' : State).
Hypothesis F_counts : counts_consistent F.
Hypothesis V0_shape : shape V0 = shape F.
Hypothesis V0_tiles : forall c t v, cell F c = Some t -> cell V0 c = Some v ->
    v = " " \/ v = "f" \/ v = t.
Hypothesis seed_tile : cell F seed = Some ts.
Hypothesis seed_clear : ts <> "x".
Hypothesis HC : Cascade F V0 seed l (length l) st'.

Lemma cascade_end_take c : c ∈ take (length l) l <-> c ∈ l.
Proof. now rewrite take_ge. Qed.

Lemma cascade_end_status : running st' = negb (won st').
Proof.
  destruct (running st') eqn:Hr.
  - now destruct (casc_running _ _ _ _ _ _ HC Hr) as [-> _].
  - now destruct (casc_won _ _ _ _ _ _ HC Hr) as [-> _].
Qed.

Lemma cascade_end_covers c :
  running st' = true -> reached F seed c -> c ∈ l.
Proof.
  intros Hr. destruct (casc_running _ _ _ _ _ _ HC Hr) as (_ & Hclosed & _).
  induction 1 as [|c c' _ IH Hz Hadj Hin].
  - eapply list_elem_of_lookup_2, (casc_seed _ _ _ _ _ _ HC).
  - apply list_elem_of_lookup_1 in IH as [k Hk].
    apply (Hclosed k c c'); try done. eapply lookup_lt_Some, Hk.
Qed.

Lemma cascade_end_reached c t :
  reached F seed c -> cell F c = Some t -> cell (visible st') c = Some t.
Proof.
  intros Hreach Ht.
  destruct (reached_clear F seed ts c F_counts seed_tile seed_clear Hreach)
    as (t' & Ht' & Hne).
  rewrite Ht in Ht'. injection Ht' as <-.
  assert (in_grid V0 c) as [v0 Hv0].
  { apply (in_grid_same_shape F); [done|now exists t]. }
  pose proof (casc_clear _ _ _ _ _ _ HC c t v0 Ht Hne Hv0) as Hv.
  destruct (running st') eqn:Hr.
  - rewrite Hv, decide_True; [done|].
    apply cascade_end_take. now apply cascade_end_covers.
  - destruct (casc_won _ _ _ _ _ _ HC Hr) as [_ Hall].
    rewrite Hv. f_equal. case_decide; [done|].
    assert (Revealed v0) as [H1 H2].
    { apply (Hall c t v0); [now rewrite (casc_field _ _ _ _ _ _ HC)|done|].
      done. }
    destruct (V0_tiles c t v0 Ht Hv0) as [?|[?|?]]; done.
Qed.

Lemma cascade_end_others c t v0 :
  ~ reached F seed c -> cell F c = Some t -> cell V0 c = Some v0 ->
  cell (visible st') c = Some v0 \/
  (t = "x" /\ won st' = true /\ cell (visible st') c = Some "f").
Proof.
  intros Hn Ht Hv0. destruct (String.eqb_spec t "x") as [->|Hne].
  - rewrite (casc_mines _ _ _ _ _ _ HC c v0 Ht Hv0).
    pose proof cascade_end_status as Hst.
    destruct (running st'), (won st'); try done; [now left|now right].
  - left. rewrite (casc_clear _ _ _ _ _ _ HC c t v0 Ht Hne Hv0).
    rewrite decide_False; [done|]. intros Hc%cascade_end_take.
    apply Hn. now apply (casc_reached _ _ _ _ _ _ HC).
Qed.

Lemma cascade_end_won : won st' = true <-> all_clear st'.
Proof.
  pose proof cascade_end_status as Hst. split.
  - intros Hw. rewrite Hw in Hst. simpl in Hst.
    now apply (casc_won _ _ _ _ _ _ HC).
  - intros Hall. destruct (won st'); [done|]. simpl in Hst.
    destruct (casc_running _ _ _ _ _ _ HC Hst) as (_ & _ & Hnot).
    exfalso. apply Hnot; [|done].
    pose proof (casc_seed _ _ _ _ _ _ HC) as Hs.
    apply lookup_lt_Some in Hs. lia.
Qed.

Lemma cascade_end_mines c v0 :
  won st' = true -> cell F c = Some "x" -> cell V0 c = Some v0 ->
  cell (visible st') c = Some "f".
Proof.
  intros Hw Ht Hv0. rewrite (casc_mines _ _ _ _ _ _ HC c v0 Ht Hv0).
  pose proof cascade_end_status as Hst. rewrite Hw in Hst. simpl in Hst.
  now rewrite Hst.
Qed.
End cascade_end.

(** ** A click on a mine *)

Lemma explore_loop_unfold fuel l i st :
  explore_loop (S fuel) l i st =
  match l !! i with
  | None => Ok (l, st)
  | Some check =>
      '(to_explore, st) ← explore_body l check st;
      explore_loop fuel to_explore (S i) st
  end.
Proof. reflexivity. Qed.

Lemma explore_mine_spec st x y row0 :
  field st !! 0%nat = Some row0 ->
  shape (visible st) = shape (field st) ->
  cell (field st) (x, y) = Some "x" ->
  exists st',
    explore_loop (explore_fuel st) [(x, y)] 0 st = Ok ([(x, y)], st') /\
    explore_tile x y st = Ok st' /\
    running st' = false /\ won st' = won st /\ field st' = field st /\
    shape (visible st') = shape (field st) /\
    forall c t v, cell (field st) c = Some t -> cell (visible st) c = Some v ->
      cell (visible st') c =
      Some (if decide (c = (x, y)) then "x" else show_upd t v).
Proof.
  intros H0 Hs Hseed.
  assert (in_grid (visible st) (x, y)) as Hin.
  { apply (in_grid_same_shape (field st)); [done|now exists "x"]. }
  destruct (explore_body_spec [(x, y)] (x, y) st "x" row0 _ Hs H0 Hseed eq_refl)
    as (l' & st' & E & Hf' & Hs' & Hcases).
  destruct Hcases as [(_ & -> & Hr & Hw & Hv)|[(Hx & _)|(Hx & _)]]; try done.
  assert (explore_loop (explore_fuel st) [(x, y)] 0 st = Ok ([(x, y)], st')) as El.
  { unfold explore_fuel. rewrite explore_loop_unfold.
    assert (([(x, y)] : list (Z * Z)) !! 0%nat = Some (x, y)) as -> by done.
    rewrite E. simpl. done. }
  exists st'. split; [done|]. split; [unfold explore_tile; now rewrite El|].
  split; [done|]. split; [done|]. split; [done|]. split; [done|].
  intros c t v Ht Hc.
  pose proof (cell_after_put st (x, y) "x" c Hin) as Hput.
  case_decide as Hcase.
  - subst c. rewrite (Hv _ _ "x" Ht Hput). rewrite Hseed in Ht.
    now injection Ht as <-.
  - rewrite Hc in Hput. now rewrite (Hv _ _ v Ht Hput).
Qed.

(** ** Mouse events *)

Lemma in_grid_rectangular w h (g : list (list string)) x y :
  rectangular w h g ->
  in_grid g (x, y) <->
  (0 <= x < Z.of_nat w)%Z /\ (0 <= y < Z.of_nat h)%Z.
Proof.
  intros Hrect. rewrite in_grid_shape. simpl. unfold rectangular in Hrect.
  rewrite Hrect. split.
  - intros (Hx & Hy & n & Hn & Hlt).
    apply lookup_replicate in Hn as [-> Hn]. lia.
  - intros [Hx Hy]. repeat split; try lia. exists w. split; [|lia].
    apply lookup_replicate. split; [done|lia].
Qed.

Lemma rectangular_row0 w h (g : list (list string)) :
  rectangular w h g -> (0 < h)%nat ->
  exists row0, g !! 0%nat = Some row0 /\ length row0 = w.
Proof.
  intros Hrect Hh. apply rectangular_rows in Hrect as [Hl Hf].
  destruct g as [|row0 g]; simpl in *; [lia|].
  exists row0. split; [done|]. now inversion Hf.
Qed.

Lemma handle_mouse_running st x y b w h :
  rectangular w h (field st) -> (0 < h)%nat ->
  running st = true ->
  handle_mouse x y b st =
  if decide (in_grid (field st) (tile_at x y)) then
    match b with
    | MOUSE_LEFT =>
        v ← get2 (visible st) (y / 40) (x / 40);
        if String.eqb v " " then explore_tile (x / 40) (y / 40) (add_click st)
        else Ok st
    | MOUSE_RIGHT => toggle_flag (x / 40) (y / 40) st
    | MOUSE_MIDDLE => Ok st
    end
  else Ok st.
Proof.
  intros Hrect Hh Hr. unfold handle_mouse, tile_at. rewrite Hr. simpl.
  destruct (rectangular_row0 w h _ Hrect Hh) as (row0 & H0 & Hw).
  pose proof (in_grid_rectangular w h _ (x / 40) (y / 40) Hrect) as Hin.
  pose proof (rectangular_rows w h (field st)) as [Hrows _].
  destruct (Hrows Hrect) as [Hlen _].
  destruct (decide (in_grid (field st) ((x / 40)%Z, (y / 40)%Z))) as [Hd|Hd];
    rewrite Hin in Hd.
  - destruct (Z.leb_spec 0 (x / 40)); [|lia].
    rewrite (py_getitem_inside _ 0 row0); [|lia|done]. simpl.
    rewrite Hw, Hlen.
    destruct (Z.ltb_spec (x / 40) (Z.of_nat w)), (Z.leb_spec 0 (y / 40)),
             (Z.ltb_spec (y / 40) (Z.of_nat h)); simpl; try lia. done.
  - destruct (Z.leb_spec 0 (x / 40)); [|done].
    rewrite (py_getitem_inside _ 0 row0); [|lia|done]. simpl.
    rewrite Hw, Hlen.
    destruct (Z.ltb_spec (x / 40) (Z.of_nat w)), (Z.leb_spec 0 (y / 40)),
             (Z.ltb_spec (y / 40) (Z.of_nat h)); simpl; try lia; done.
Qed.

Lemma toggle_flag_spec st x y v :
  cell (visible st) (x, y) = Some v ->
  toggle_flag x y st =
  Ok (if String.eqb v " " then set_visible st (grid_put (visible st) (x, y) "f")
      else if String.eqb v "f"
           then set_visible st (grid_put (visible st) (x, y) " ")
           else st).
Proof.
  intros Hv. unfold toggle_flag. rewrite (get2_cell _ _ _ _ Hv). simpl.
  assert (in_grid (visible st) (x, y)) as Hin by now exists v.
  destruct (String.eqb v " "); [now rewrite set2_cell|].
  destruct (String.eqb v "f"); [now rewrite set2_cell|done].
Qed.

(** ** What a left click on a hidden tile does *)

Lemma Inv_row0 st :
  Inv st ->
  exists w h row0, (0 < w)%nat /\ (0 < h)%nat /\
    rectangular w h (field st) /\ field st !! 0%nat = Some row0.
Proof.
  intros [(w & h & Hw & Hh & Hrect) _ _ _ _ _].
  destruct (rectangular_row0 w h _ Hrect Hh) as (row0 & H0 & _).
  exists w, h, row0. done.
Qed.

Lemma click_spec st x y t :
  Inv st -> running st = true ->
  cell (field st) (tile_at x y) = Some t ->
  cell (visible st) (tile_at x y) = Some " " ->
  exists st', handle_mouse x y MOUSE_LEFT st = Ok st' /\
    field st' = field st /\
    ((t = "x" /\ running st' = false /\ won st' = false /\
      shape (visible st') = shape (field st) /\
      forall c t' v, cell (field st) c = Some t' ->
        cell (visible st) c = Some v ->
        cell (visible st') c =
        Some (if decide (c = tile_at x y) then "x" else show_upd t' v)) \/
     (t <> "x" /\
      exists l, Cascade (field st) (visible st) (tile_at x y) l (length l) st')).
Proof.
  intros HI Hr Ht Hv.
  destruct (Inv_row0 st HI) as (w & h & row0 & Hw & Hh & Hrect & H0).
  destruct (inv_running st HI Hr) as [Hwon _].
  rewrite (handle_mouse_running st x y _ w h Hrect Hh Hr).
  rewrite decide_True by now exists t.
  unfold tile_at in *. rewrite (get2_cell _ _ _ _ Hv). simpl.
  destruct (String.eqb_spec t "x") as [->|Hne].
  - destruct (explore_mine_spec (add_click st) (x / 40) (y / 40) row0)
      as (st' & _ & E & Hr' & Hw' & Hf' & Hs' & Hv'); try done.
    { apply (inv_shape st HI). }
    exists st'. split; [done|]. split; [done|]. left.
    simpl in *. rewrite Hw', Hwon. done.
  - destruct (explore_clear_spec (add_click st) (x / 40) (y / 40) t row0)
      as (l & st' & _ & E & HC); try done.
    { apply (inv_counts st HI). }
    { apply (inv_shape st HI). }
    exists st'. split; [done|]. split; [apply HC|].
    right. split; [done|]. now exists l.
Qed.

Lemma reached_from_mine (g : list (list string)) seed c :
  cell g seed = Some "x" -> reached g seed c -> c = seed.
Proof.
  intros Hs. induction 1 as [|c c' _ IH Hz _ _]; [done|].
  subst c. congruence.
Qed.

Lemma handle_mouse_step st x y b :
  Inv st ->
  exists st', handle_mouse x y b st = Ok st' /\ Inv st' /\
    field st' = field st /\
    forall c v, cell (visible st) c = Some v -> Revealed v ->
      cell (visible st') c = Some v.
Proof.
  intros HI. pose proof HI as [Hrect Hcc Hs Hvis Hrun Hwon].
  destruct (running st) eqn:Hr.
  2:{ exists st. unfold handle_mouse. rewrite Hr. done. }
  destruct (Hrun eq_refl) as [Hw Hmines].
  destruct (Inv_row0 st HI) as (w & h & row0 & Hw0 & Hh0 & Hrect' & H0).
  destruct (decide (in_grid (field st) (tile_at x y))) as [Hin|Hout].
  2:{ exists st. rewrite (handle_mouse_running st x y _ w h Hrect' Hh0 Hr).
      now rewrite decide_False. }
  destruct Hin as [t Ht].
  assert (in_grid (visible st) (tile_at x y)) as [v0 Hv0].
  { apply (in_grid_same_shape (field st)); [done|now exists t]. }
  destruct b.
  - (* left button *)
    destruct (String.eqb_spec v0 " ") as [->|Hnh].
    2:{ exists st. rewrite (handle_mouse_running st x y _ w h Hrect' Hh0 Hr).
        rewrite decide_True by now exists t.
        unfold tile_at in *. rewrite (get2_cell _ _ _ _ Hv0). simpl.
        apply String.eqb_neq in Hnh. now rewrite Hnh. }
    destruct (click_spec st x y t HI Hr Ht Hv0)
      as (st' & E & Hf' & [(-> & Hr' & Hw' & Hs' & Hv')|(Hne & l & HC)]).
    + exists st'. split; [done|]. split; [|split; [done|]].
      * constructor; rewrite ?Hf'; try done; try congruence.
        intros c t' v' Ht' Hc'.
        assert (in_grid (visible st) c) as [v Hc].
        { apply (in_grid_same_shape (field st)); [done|now exists t']. }
        rewrite (Hv' c t' v Ht' Hc) in Hc'. injection Hc' as <-.
        case_decide as Hcase; [subst c; right; right; congruence|].
        unfold show_upd. destruct (String.eqb_spec t' "x") as [->|]; simpl.
        -- destruct (String.eqb_spec v "f"); simpl; auto.
        -- apply (Hvis c t' v Ht' Hc).
      * intros c v Hc [Hv1 Hv2].
        assert (in_grid (field st) c) as [t' Ht'].
        { apply (in_grid_same_shape (visible st)); [done|now exists v]. }
        rewrite (Hv' c t' v Ht' Hc). f_equal.
        case_decide as Hcase; [subst c; congruence|].
        unfold show_upd. destruct (String.eqb_spec t' "x") as [->|]; [|done].
        destruct (Hmines c v Ht' Hc); congruence.
    + pose proof (cascade_end_status _ _ _ _ _ HC) as Hst.
      exists st'. split; [done|]. split; [|split; [done|]].
      * constructor; rewrite ?Hf'; try done.
        -- apply HC.
        -- intros c t' v' Ht' Hc'.
           assert (in_grid (visible st) c) as [v Hc].
           { apply (in_grid_same_shape (field st)); [done|now exists t']. }
           destruct (String.eqb_spec t' "x") as [->|Hnx].
           ++ rewrite (casc_mines _ _ _ _ _ _ HC c v Ht' Hc) in Hc'.
              injection Hc' as <-.
              destruct (running st'); [|auto].
              destruct (Hmines c v Ht' Hc); auto.
           ++ rewrite (casc_clear _ _ _ _ _ _ HC c t' v Ht' Hnx Hc) in Hc'.
              injection Hc' as <-. case_decide; [auto|].
              apply (Hvis c t' v Ht' Hc).
        -- intros Hr'. rewrite Hr' in Hst.
           split; [now destruct (won st')|].
           intros c v' Ht' Hc'.
           assert (in_grid (visible st) c) as [v Hc].
           { apply (in_grid_same_shape (field st)); [done|now exists "x"]. }
           rewrite (casc_mines _ _ _ _ _ _ HC c v Ht' Hc), Hr' in Hc'.
           injection Hc' as <-. apply (Hmines c v Ht' Hc).
        -- intros Hw'. split.
           ++ now apply (cascade_end_won _ _ _ _ _ HC).
           ++ intros c Ht'.
              assert (in_grid (visible st) c) as [v Hc].
              { apply (in_grid_same_shape (field st)); [done|now exists "x"]. }
              apply (cascade_end_mines _ _ _ _ _ HC c v Hw' Ht' Hc).
      * intros c v Hc [Hv1 Hv2].
        assert (in_grid (field st) c) as [t' Ht'].
        { apply (in_grid_same_shape (visible st)); [done|now exists v]. }
        destruct (String.eqb_spec t' "x") as [->|Hnx].
        -- destruct (Hmines c v Ht' Hc); congruence.
        -- rewrite (casc_clear _ _ _ _ _ _ HC c t' v Ht' Hnx Hc). f_equal.
           case_decide; [|done].
           destruct (Hvis c t' v Ht' Hc) as [?|[?|?]]; congruence.
  - (* middle button *)
    exists st. rewrite (handle_mouse_running st x y _ w h Hrect' Hh0 Hr).
    now rewrite decide_True by now exists t.
  - (* right button *)
    rewrite (handle_mouse_running st x y _ w h Hrect' Hh0 Hr).
    rewrite decide_True by now exists t.
    unfold tile_at in *. rewrite (toggle_flag_spec st _ _ v0 Hv0).
    assert (forall new, (v0 = " " \/ v0 = "f") -> (new = " " \/ new = "f") ->
      Inv (set_visible st (grid_put (visible st) (x / 40, y / 40)%Z new)) /\
      field (set_visible st (grid_put (visible st) (x / 40, y / 40)%Z new)) =
        field st /\
      forall c v, cell (visible st) c = Some v -> Revealed v ->
        cell (visible (set_visible st
                (grid_put (visible st) (x / 40, y / 40)%Z new))) c = Some v)
      as Htoggle.
    { intros new Hold Hnew.
      assert (forall c, cell (grid_put (visible st) (x / 40, y / 40)%Z new) c =
                if decide (c = (x / 40, y / 40)%Z) then Some new
                else cell (visible st) c) as Hput.
      { intros c. apply cell_grid_put. now exists v0. }
      split; [|split; [done|]].
      - constructor; simpl; try done.
        + now rewrite shape_grid_put.
        + intros c t' v' Ht' Hc'. rewrite (Hput c) in Hc'.
          case_decide; [injection Hc' as <-; tauto|]. eauto.
        + intros _. split; [done|]. intros c v' Ht' Hc'.
          rewrite (Hput c) in Hc'.
          case_decide; [injection Hc' as <-; tauto|]. eauto.
        + congruence.
      - intros c v Hc [Hv1 Hv2]. simpl. rewrite (Hput c).
        case_decide; [|done]. subst c. rewrite Hv0 in Hc.
        injection Hc as <-. destruct Hold; congruence. }
    destruct (String.eqb_spec v0 " ") as [->|Hn1].
    + eexists. split; [done|]. apply Htoggle; auto.
    + destruct (String.eqb_spec v0 "f") as [->|Hn2].
      * eexists. split; [done|]. apply Htoggle; auto.
      * exists st. done.
Qed.

(** ** Every state of a session *)

Lemma cell_blank w h c v :
  cell (replicate h (replicate w " ")) c = Some v -> v = " ".
Proof.
  destruct c as [x y].
  intros (_ & _ & row & Hr & Hv)%cell_Some.
  apply lookup_replicate in Hr as [-> _].
  now apply lookup_replicate in Hv as [-> _].
Qed.

Lemma shape_blank w h :
  shape (replicate h (replicate w " ")) = replicate h w.
Proof.
  unfold shape. rewrite fmap_replicate. now rewrite length_replicate.
Qed.

Lemma init_game_Inv shuffle inputs st :
  (forall l, l ≡ₚ shuffle l) ->
  init_game shuffle inputs = Some (Ok st) -> Inv st.
Proof.
  intros Hperm. unfold init_game.
  destruct (init_game_config inputs) as [[[w h] m]|] eqn:Hcfg; [|done].
  apply init_game_config_spec in Hcfg as (Hw & Hh & Hm).
  destruct (create_field_spec shuffle w h m Hperm Hw Hh Hm)
    as (fld & -> & Hrect & _ & Hcc).
  simpl. intros [= <-]. constructor; simpl.
  - exists (Z.to_nat w), (Z.to_nat h). split; [lia|]. split; [lia|done].
  - done.
  - rewrite shape_blank. symmetry. exact Hrect.
  - intros c t v _ Hv. left. eapply cell_blank, Hv.
  - intros _. split; [done|]. intros c v _ Hv. left. eapply cell_blank, Hv.
  - done.
Qed.

Lemma reachable_Inv st : reachable st -> Inv st.
Proof.
  induction 1 as [shuffle inputs st Hperm Hinit|st x y b st' _ IH Hm].
  - eapply init_game_Inv; eauto.
  - destruct (handle_mouse_step st x y b IH) as (st'' & E & HI & _).
    rewrite E in Hm. now injection Hm as <-.
Qed.

Lemma reachable_events evs : forall st st',
  reachable st -> handle_events evs st = Ok st' -> reachable st'.
Proof.
  induction evs as [|[[x y] b] evs IH]; intros st st' Hr; simpl.
  - now intros [= <-].
  - destruct (handle_mouse x y b st) as [st1| |] eqn:E; simpl; try done.
    apply IH. now apply (reach_mouse st x y b).
Qed.

(** ** The region of a ["0"] seed *)

Lemma zero_region_zero (g : list (list string)) seed c :
  zero_region g seed c -> cell g c = Some "0".
Proof. now destruct 1. Qed.

Lemma reached_area (g : list (list string)) seed c :
  cell g seed = Some "0" ->
  reached g seed c <-> cascade_area g seed c.
Proof.
  intros Hseed. split.
  - induction 1 as [|c c' _ IH Hz Hadj Hin].
    + left. now constructor.
    + right. exists c. split; [|done].
      destruct IH as [IH|(r & Hr & Hrc & _)]; [done|].
      now apply (zero_next g seed r c).
  - assert (forall r, zero_region g seed r -> reached g seed r) as Hzr.
    { induction 1 as [|r r' Hr IH Hadj Hz]; [constructor|].
      apply (reached_next g seed r r'); try done.
      - now apply zero_region_zero in Hr.
      - now exists "0". }
    intros [Hc|(r & Hr & Hadj & Hin)]; [auto|].
    apply (reached_next g seed r c); auto.
    now apply zero_region_zero in Hr.
Qed.

(** ** The sample sessions are sessions *)

Lemma mines_last_perm l : l ≡ₚ mines_last l.
Proof. apply Permutation_rev. Qed.

Lemma corner_mine_reachable : reachable corner_mine.
Proof.
  apply (reach_init mines_last [Some 3; Some 3; Some 1]%Z);
    [apply mines_last_perm|reflexivity].
Qed.

Lemma corner_mine_flagged_reachable : reachable corner_mine_flagged.
Proof.
  apply (reach_mouse corner_mine 80 80 MOUSE_RIGHT);
    [apply corner_mine_reachable|reflexivity].
Qed.

Lemma centre_flagged_reachable : reachable centre_flagged.
Proof.
  apply (reach_mouse corner_mine 40 40 MOUSE_RIGHT);
    [apply corner_mine_reachable|reflexivity].
Qed.

Lemma two_mines_opened_reachable : reachable two_mines_opened.
Proof.
  eapply (reach_mouse _ 0 0 MOUSE_LEFT).
  - apply (reach_init mines_last [Some 3; Some 3; Some 2]%Z);
      [apply mines_last_perm|reflexivity].
  - reflexivity.
Qed.

Lemma lone_mine_reachable : reachable lone_mine.
Proof.
  apply (reach_init (fun l => l) [Some 1; Some 1; Some 1]%Z);
    [reflexivity|reflexivity].
Qed.

Lemma all_clear_count st :
  shape (visible st) = shape (field st) ->
  count_unexplored_tiles st = Ok 0%nat -> all_clear st.
Proof.
  intros Hs E. destruct (count_unexplored_tiles_spec st Hs) as (n & E' & Hn).
  rewrite E in E'. injection E' as <-. now apply Hn.
Qed.

(** ** The fuel of the cascade is never used up *)

Lemma finished_bind {A B} (m : result A) (k : A -> result B) :
  m <> OutOfFuel -> (forall a, m = Ok a -> k a <> OutOfFuel) ->
  m ≫= k <> OutOfFuel.
Proof. destruct m; simpl; auto. Qed.

Lemma py_getitem_finished {A} (l : list A) i : py_getitem l i <> OutOfFuel.
Proof. unfold py_getitem. repeat case_match; done. Qed.


Lemma get2_finished g y x : get2 g y x <> OutOfFuel.
Proof.
  unfold get2. apply finished_bind; [apply py_getitem_finished|].
  intros. apply py_getitem_finished.
Qed.


Lemma for_enumerate_from_finished {A T} (body : T -> nat -> A -> result T) l :
  (forall s i a, body s i a <> OutOfFuel) ->
  forall i s, for_enumerate_from i body l s <> OutOfFuel.
Proof.
  intros Hbody. induction l as [|a l IH]; intros i s; simpl; [done|].
  apply finished_bind; [apply Hbody|]. intros. apply IH.
Qed.

Lemma for_tiles_finished {T} (body : T -> nat -> nat -> string -> result T) g s :
  (forall s y x t, body s y x t <> OutOfFuel) ->
  for_tiles body g s <> OutOfFuel.
Proof.
  intros Hbody. unfold for_tiles, for_enumerate.
  apply for_enumerate_from_finished. intros s' y row.
  apply for_enumerate_from_finished. intros. apply Hbody.
Qed.

Lemma save_game_data_finished st :
  save_game_data st <> OutOfFuel /\
  forall st', save_game_data st = Ok st' -> field st' = field st.
Proof.
  unfold save_game_data. split.
  - apply finished_bind; [apply py_getitem_finished|]. intros row0 _.
    apply finished_bind; [|done]. unfold count_unflagged_mines.
    apply for_tiles_finished. intros s y x t.
    destruct (String.eqb t "x"); [|done].
    apply finished_bind; [apply get2_finished|done].
  - intros st'. destruct (py_getitem (field st) 0); simpl; try done.
    destruct (count_unflagged_mines st); simpl; try done.
    now intros [= <-].
Qed.







(** ** The counters of a session *)

Lemma save_game_data_counters st st' :
  save_game_data st = Ok st' ->
  clicks st' = clicks st /\ mines st' = mines st /\
  running st' = running st /\ won st' = won st /\ visible st' = visible st.
Proof.
  unfold save_game_data.
  destruct (py_getitem (field st) 0); simpl; try done.
  destruct (count_unflagged_mines st); simpl; try done.
  now intros [= <-].
Qed.

Lemma lose_game_counters st st' :
  lose_game st = Ok st' -> clicks st' = clicks st /\ mines st' = mines st.
Proof.
  unfold lose_game, show_unflagged_mines. simpl.
  destruct (for_tiles _ _ _) as [vis| |]; simpl; try done.
  intros E. now apply save_game_data_counters in E.
Qed.

Lemma win_game_counters st st' :
  win_game st = Ok st' -> clicks st' = clicks st /\ mines st' = mines st.
Proof.
  unfold win_game, flag_all_mines. simpl.
  destruct (for_tiles _ _ _) as [vis| |]; simpl; try done.
  intros E. now apply save_game_data_counters in E.
Qed.

Lemma explore_body_counters l c st l' st' :
  explore_body l c st = Ok (l', st') ->
  clicks st' = clicks st /\ mines st' = mines st.
Proof.
  destruct c as [x y]. unfold explore_body.
  destruct (get2 (field st) y x) as [t| |]; simpl; try done.
  destruct (set2 (visible st) y x t) as [vis| |]; simpl; try done.
  destruct (get2 vis y x) as [v| |]; simpl; try done.
  destruct (String.eqb v "x").
  - destruct (lose_game (set_visible st vis)) as [s| |] eqn:E; simpl; try done.
    intros [= <- <-]. now apply lose_game_counters in E.
  - destruct (count_unexplored_tiles (set_visible st vis)) as [n| |];
      simpl; try done.
    destruct (n =? 0)%nat.
    + destruct (win_game (set_visible st vis)) as [s| |] eqn:E; simpl; try done.
      intros [= <- <-]. now apply win_game_counters in E.
    + destruct (String.eqb v "0"); now intros [= <- <-].
Qed.

Lemma explore_loop_counters fuel : forall l i st l' st',
  explore_loop fuel l i st = Ok (l', st') ->
  clicks st' = clicks st /\ mines st' = mines st.
Proof.
  induction fuel as [|fuel IH]; intros l i st l' st'; simpl; [done|].
  destruct (l !! i) as [c|]; [|now intros [= <- <-]].
  destruct (explore_body l c st) as [[l1 st1]| |] eqn:E; simpl; try done.
  intros E'. apply IH in E'. apply explore_body_counters in E.
  destruct E, E'. split; congruence.
Qed.

Lemma explore_tile_counters x y st st' :
  explore_tile x y st = Ok st' ->
  clicks st' = clicks st /\ mines st' = mines st.
Proof.
  unfold explore_tile.
  destruct (explore_loop _ _ _ _) as [[l s]| |] eqn:E; simpl; try done.
  intros [= <-]. now apply explore_loop_counters in E.
Qed.

(** ** The records of finished games *)

Lemma count_unflagged_mines_spec st :
  shape (visible st) = shape (field st) ->
  exists n, count_unflagged_mines st = Ok n /\ (n = 0%nat <-> all_flagged st).
Proof.
  intros Hshape. unfold count_unflagged_mines.
  destruct (for_tiles_inv
    (fun mines y x tile =>
       if String.eqb tile "x" then
         v ← get2 (visible st) (Z.of_nat y) (Z.of_nat x);
         Ok (if negb (String.eqb v "f") then S mines else mines)
       else Ok mines)
    (fun y x n => n = 0%nat <->
       forall c v, passed y x c -> cell (field st) c = Some "x" ->
         cell (visible st) c = Some v -> v = "f")
    (field st) 0%nat) as (n & E & Hn).
  - split; [|done]. intros _ [cx cy] v Hp Ht.
    apply cell_Some in Ht as (Hx & Hy & _).
    now apply passed_start in Hp.
  - intros y row n Hy Hn. rewrite Hn. split; intros H c v Hp Ht.
    + apply (H c v); [|done]. eapply passed_row; eauto. now exists "x".
    + apply (H c v); [|done]. eapply passed_row; eauto. now exists "x".
  - intros y row x t n Hy Hx Hn.
    assert (cell (field st) (Z.of_nat x, Z.of_nat y) = Some t) as Ht.
    { rewrite cell_of_nat, Hy. done. }
    assert (in_grid (visible st) (Z.of_nat x, Z.of_nat y)) as [v Hv].
    { apply (in_grid_same_shape (field st)); [done|now exists t]. }
    destruct (String.eqb_spec t "x") as [->|Hne]; simpl.
    + rewrite (get2_cell _ _ _ _ Hv). simpl. eexists. split; [done|].
      destruct (String.eqb_spec v "f") as [->|Hnf]; simpl.
      * rewrite Hn. split; intros H c v' Hp Ht' Hv'.
        -- apply passed_next in Hp as [Hp| ->]; [eauto|congruence].
        -- eapply H; eauto. apply passed_next. now left.
      * split; [done|]. intros H. exfalso. apply Hnf.
        apply (H (Z.of_nat x, Z.of_nat y) v); try done.
        apply passed_next. now right.
    + exists n. split; [done|]. rewrite Hn. split; intros H c v' Hp Ht' Hv'.
      * apply passed_next in Hp as [Hp| ->]; [eauto|congruence].
      * eapply H; eauto. apply passed_next. now left.
  - exists n. split; [done|]. rewrite Hn. unfold all_flagged.
    split; intros H c v.
    + intros Ht Hv. apply (H c v); [|done|done].
      apply passed_end. now exists "x".
    + intros _. apply H.
Qed.

Lemma save_game_data_saved st row0 :
  shape (visible st) = shape (field st) ->
  field st !! 0%nat = Some row0 ->
  exists n st', save_game_data st = Ok st' /\
    (n = 0%nat <-> all_flagged st) /\
    saved st' = saved st ++ [end_record st (length row0) (won st) n].
Proof.
  intros Hshape H0. unfold save_game_data.
  rewrite (py_getitem_inside (field st) 0 row0); [|lia|exact H0]. simpl.
  destruct (count_unflagged_mines_spec st Hshape) as (n & -> & Hn). simpl.
  exists n. eexists. split; [done|]. split; [done|]. done.
Qed.

Lemma save_game_data_frame st st' :
  save_game_data st = Ok st' ->
  field st' = field st /\ visible st' = visible st.
Proof.
  intros E. split; [now apply save_game_data_finished in E|].
  now apply save_game_data_counters in E.
Qed.

Lemma lose_game_saved st row0 st' :
  shape (visible st) = shape (field st) ->
  field st !! 0%nat = Some row0 ->
  lose_game st = Ok st' ->
  exists n, saved st' = saved st ++ [end_record st (length row0) (won st) n] /\
    (n = 0%nat <-> all_flagged st').
Proof.
  intros Hshape H0. unfold lose_game.
  set (s0 := {| running := false; won := won st; field := field st;
                visible := visible st; clicks := clicks st;
                mines := mines st; saved := saved st |}).
  destruct (show_unflagged_mines_spec s0 Hshape) as (vis & E1 & Hs & Hc).
  destruct (save_game_data_saved (set_visible s0 vis) row0 Hs H0)
    as (n & st'' & E & Hn & Hsaved).
  rewrite E1. simpl. rewrite E. intros [= <-].
  exists n. split; [exact Hsaved|].
  rewrite Hn. apply save_game_data_frame in E as [Hf Hv].
  unfold all_flagged. now rewrite Hf, Hv.
Qed.

Lemma win_game_saved st row0 st' :
  shape (visible st) = shape (field st) ->
  field st !! 0%nat = Some row0 ->
  win_game st = Ok st' ->
  saved st' = saved st ++ [end_record st (length row0) true 0].
Proof.
  intros Hshape H0. unfold win_game.
  set (s0 := {| running := false; won := true; field := field st;
                visible := visible st; clicks := clicks st;
                mines := mines st; saved := saved st |}).
  destruct (flag_all_mines_spec s0 Hshape) as (vis & E1 & Hs & Hc).
  destruct (save_game_data_saved (set_visible s0 vis) row0 Hs H0)
    as (n & st'' & E & Hn & Hsaved).
  rewrite E1. simpl. rewrite E. intros [= <-]. rewrite Hsaved.
  assert (n = 0%nat) as ->; [|done].
  apply Hn. intros c v Ht Hv. simpl in *.
  assert (in_grid (visible st) c) as [v0 Hv0].
  { apply (in_grid_same_shape (field st)); [done|now exists "x"]. }
  rewrite (Hc c "x" v0 Ht Hv0) in Hv. now injection Hv as <-.
Qed.

Lemma lose_game_stops st st' : lose_game st = Ok st' -> running st' = false.
Proof.
  unfold lose_game, show_unflagged_mines. simpl.
  destruct (for_tiles _ _ _) as [vis| |]; simpl; try done.
  intros E. now apply save_game_data_counters in E as (_ & _ & -> & _).
Qed.

Lemma win_game_stops st st' : win_game st = Ok st' -> running st' = false.
Proof.
  unfold win_game, flag_all_mines. simpl.
  destruct (for_tiles _ _ _) as [vis| |]; simpl; try done.
  intros E. now apply save_game_data_counters in E as (_ & _ & -> & _).
Qed.

Lemma explore_body_saved l c st t row0 l' st' :
  shape (visible st) = shape (field st) ->
  field st !! 0%nat = Some row0 ->
  cell (field st) c = Some t ->
  explore_body l c st = Ok (l', st') ->
  (t = "x" /\ running st' = false /\
   exists n, saved st' = saved st ++ [end_record st (length row0) (won st) n] /\
             (n = 0%nat <-> all_flagged st')) \/
  (t <> "x" /\ running st' = false /\
   saved st' = saved st ++ [end_record st (length row0) true 0]) \/
  (t <> "x" /\ running st' = running st /\ saved st' = saved st).
Proof.
  intros Hshape H0 Ht.
  assert (in_grid (visible st) c) as Hin.
  { apply (in_grid_same_shape (field st)); [done|now exists t]. }
  assert (cell (grid_put (visible st) c t) c = Some t) as Hv1.
  { rewrite cell_grid_put by done. now rewrite decide_True. }
  assert (shape (visible (set_visible st (grid_put (visible st) c t))) =
          shape (field (set_visible st (grid_put (visible st) c t)))) as Hs1.
  { simpl. now rewrite shape_grid_put. }
  destruct c as [x y]. unfold explore_body.
  rewrite (get2_cell _ _ _ _ Ht). simpl.
  rewrite (set2_cell _ _ _ _ Hin). simpl.
  rewrite (get2_cell _ _ _ _ Hv1). simpl.
  destruct (String.eqb_spec t "x") as [->|Hne].
  - destruct (lose_game _) as [s| |] eqn:E; simpl; try done.
    intros [= <- <-]. left. split; [done|].
    split; [now apply lose_game_stops in E|].
    apply (lose_game_saved _ row0) in E; done.
  - destruct (count_unexplored_tiles _) as [n| |]; simpl; try done.
    destruct (n =? 0)%nat.
    + destruct (win_game _) as [s| |] eqn:E; simpl; try done.
      intros [= <- <-]. right; left. split; [done|].
      split; [now apply win_game_stops in E|].
      apply (win_game_saved _ row0) in E; done.
    + destruct (String.eqb t "0"); intros [= <- <-]; right; right; done.
Qed.

Lemma Recorded_step F V0 seed row0 ts st0 l i st c l' st' :
  F !! 0%nat = Some row0 ->
  counts_consistent F ->
  cell F seed = Some ts -> ts <> "x" ->
  field st0 = F ->
  Cascade F V0 seed l i st -> Recorded st0 (length row0) st ->
  l !! i = Some c ->
  explore_body l c st = Ok (l', st') ->
  Recorded st0 (length row0) st'.
Proof.
  intros H0 Hcc Hseed Hne Hf0 HC (Hcl & Hm & k & Hsaved & Hk1 & Hk2) Hi E.
  assert (c ∈ l) as Hc by (eapply list_elem_of_lookup_2, Hi).
  destruct (reached_clear F seed ts c Hcc Hseed Hne
              (casc_reached _ _ _ _ _ _ HC c Hc)) as (t & Ht & Hnx).
  pose proof (casc_field _ _ _ _ _ _ HC) as Hf.
  pose proof (casc_shape _ _ _ _ _ _ HC) as Hs.
  rewrite <- Hf in H0, Ht, Hs.
  destruct (explore_body_counters _ _ _ _ _ E) as [Hcl' Hm'].
  destruct (explore_body_saved l c st t row0 l' st' Hs H0 Ht E)
    as [(Hx & _)|[(_ & Hr' & Hsaved')|(_ & Hr' & Hsaved')]]; [done| |].
  - split; [congruence|]. split; [congruence|]. exists (S k).
    split; [|split; [congruence|lia]].
    rewrite Hsaved', Hsaved, replicate_S_end, app_assoc. do 2 f_equal.
    unfold end_record. now rewrite Hf, Hf0, Hcl, Hm.
  - split; [congruence|]. split; [congruence|]. exists k.
    rewrite Hsaved', Hr'. done.
Qed.

Lemma click_records st x y t row0 :
  Inv st -> running st = true ->
  field st !! 0%nat = Some row0 ->
  cell (field st) (tile_at x y) = Some t ->
  cell (visible st) (tile_at x y) = Some " " ->
  exists st', handle_mouse x y MOUSE_LEFT st = Ok st' /\
    clicks st' = S (clicks st) /\ mines st' = mines st /\
    ((t = "x" /\ running st' = false /\
      exists n, saved st' =
        saved st ++ [end_record (add_click st) (length row0) false (S n)]) \/
     (t <> "x" /\
      exists k, saved st' =
        saved st ++ replicate k (end_record (add_click st) (length row0) true 0) /\
        (running st' = true -> k = 0%nat) /\
        (running st' = false -> (0 < k)%nat))).
Proof.
  intros HI Hr H0 Ht Hv.
  destruct (Inv_row0 st HI) as (w & h & row0' & Hw & Hh & Hrect & H0').
  destruct (inv_running st HI Hr) as [Hwon _].
  pose proof (inv_shape st HI) as Hs.
  rewrite (handle_mouse_running st x y _ w h Hrect Hh Hr).
  rewrite decide_True by now exists t.
  unfold tile_at in *. rewrite (get2_cell _ _ _ _ Hv). simpl.
  destruct (String.eqb_spec t "x") as [->|Hne].
  - destruct (explore_body_spec [(x / 40, y / 40)%Z] (x / 40, y / 40)%Z
                (add_click st) "x" row0 _ Hs H0 Ht eq_refl)
      as (l' & st' & E & Hf' & Hs' & Hcases).
    destruct Hcases as [(_ & -> & Hr' & Hw' & Hv')|[(Hx & _)|(Hx & _)]];
      try done.
    assert (explore_tile (x / 40) (y / 40) (add_click st) = Ok st') as Et.
    { unfold explore_tile, explore_fuel. rewrite explore_loop_unfold.
      assert (([(x / 40, y / 40)%Z] : list (Z * Z)) !! 0%nat =
              Some (x / 40, y / 40)%Z) as -> by done.
      rewrite E. simpl. done. }
    exists st'. split; [done|].
    destruct (explore_body_counters _ _ _ _ _ E) as [Hc Hm].
    split; [done|]. split; [done|]. left. split; [done|]. split; [done|].
    destruct (explore_body_saved _ _ (add_click st) "x" row0 _ _ Hs H0 Ht E)
      as [(_ & _ & n & Hsaved & Hn)|[(Hx & _)|(Hx & _)]]; try done.
    destruct n as [|n].
    + exfalso. destruct Hn as [Hn _]. specialize (Hn eq_refl).
      assert (cell (visible st') (x / 40, y / 40)%Z = Some "x") as Hx.
      { assert (in_grid (visible st) (x / 40, y / 40)%Z) as Hin
          by now exists " ".
        rewrite (Hv' _ "x" "x" Ht); [done|].
        simpl. rewrite cell_grid_put by done. now rewrite decide_True. }
      specialize (Hn (x / 40, y / 40)%Z "x"). rewrite Hf' in Hn.
      specialize (Hn Ht Hx). discriminate.
    + exists n. simpl in Hsaved. now rewrite Hwon in Hsaved.
  - destruct (explore_loop_inv
      (fun l i s =>
         Cascade (field st) (visible st) (x / 40, y / 40)%Z l i s /\
         Recorded (add_click st) (length row0) s)
      (length (concat (field st))))
      with (fuel := explore_fuel (add_click st))
           (l := [(x / 40, y / 40)%Z]) (i := 0%nat) (st := add_click st)
      as (l & st' & E & HC & Hcl & Hm & Hrec).
    + intros l i s c [HC HR] Hi.
      destruct (Cascade_step (field st) (visible st) _ row0 t H0
                  (inv_counts st HI) Ht Hne l i s c HC Hi)
        as (l' & s' & E & HC').
      exists l', s'. split; [done|]. split; [done|].
      apply (Recorded_step (field st) (visible st) (x / 40, y / 40)%Z row0 t
               (add_click st) l i s c l' s'); try done.
      apply (inv_counts st HI).
    + intros l i s [HC _]. split; [apply HC|].
      apply work_list_bound; [apply HC|].
      intros c Hc. apply (casc_reached _ _ _ _ _ _ HC) in Hc.
      destruct (reached_clear _ _ t c (inv_counts st HI) Ht Hne Hc)
        as (t' & Ht' & _).
      now exists t'.
    + split.
      * now apply (Cascade_start (add_click st) _ t).
      * split; [done|]. split; [done|]. exists 0%nat. simpl.
        rewrite app_nil_r. split; [done|]. split; [done|]. congruence.
    + unfold explore_fuel. simpl. lia.
    + exists st'. split; [unfold explore_tile; now rewrite E|].
      split; [done|]. split; [done|]. right. done.
Qed.

(** ** Events other than a left click on a hidden tile *)

Lemma grid_put_same (g : list (list string)) c v :
  cell g c = Some v -> grid_put g c v = g.
Proof.
  destruct c as [x y]. intros (Hx & Hy & row & Hr & Hv)%cell_Some.
  unfold grid_put; simpl. rewrite (item_lookup _ _ _ _ Hr).
  rewrite (list_insert_id row _ _ Hv). now apply list_insert_id.
Qed.

Lemma grid_put_twice (g : list (list string)) c v w :
  in_grid g c -> grid_put (grid_put g c v) c w = grid_put g c w.
Proof.
  destruct c as [x y]. intros [t (Hx & Hy & row & Hr & Hv)%cell_Some].
  unfold grid_put; simpl. rewrite (item_lookup _ _ _ _ Hr).
  assert (<[Z.to_nat y:=<[Z.to_nat x:=v]> row]> g !! Z.to_nat y =
          Some (<[Z.to_nat x:=v]> row)) as Hr'.
  { apply list_lookup_insert_eq. eapply lookup_lt_Some, Hr. }
  rewrite (item_lookup _ _ _ _ Hr').
  now rewrite list_insert_insert_eq, list_insert_insert_eq.
Qed.

Lemma set_visible_same st : set_visible st (visible st) = st.
Proof. now destruct st. Qed.

Lemma handle_mouse_quiet st x y b :
  Inv st -> running st = true ->
  (b = MOUSE_LEFT -> cell (visible st) (tile_at x y) <> Some " ") ->
  handle_mouse x y b st =
  Ok (match b, cell (visible st) (tile_at x y) with
      | MOUSE_RIGHT, Some v =>
          set_visible st (grid_put (visible st) (tile_at x y) (toggled v))
      | _, _ => st
      end).
Proof.
  intros HI Hr Hleft.
  destruct (Inv_row0 st HI) as (w & h & row0 & Hw & Hh & Hrect & H0).
  rewrite (handle_mouse_running st x y _ w h Hrect Hh Hr).
  destruct (decide (in_grid (field st) (tile_at x y))) as [Hin|Hout].
  - apply (in_grid_same_shape _ (visible st)) in Hin as [v Hv];
      [|symmetry; apply HI].
    rewrite Hv. unfold tile_at in *. destruct b.
    + rewrite (get2_cell _ _ _ _ Hv). simpl.
      destruct (String.eqb_spec v " ") as [->|]; [|done].
      now destruct (Hleft eq_refl).
    + done.
    + rewrite (toggle_flag_spec st _ _ v Hv). unfold toggled. f_equal.
      destruct (String.eqb_spec v " "); [done|].
      destruct (String.eqb_spec v "f"); [done|].
      rewrite grid_put_same by done. now rewrite set_visible_same.
  - assert (cell (visible st) (tile_at x y) = None) as ->.
    { destruct (cell (visible st) (tile_at x y)) as [v|] eqn:Hv; [|done].
      exfalso. apply Hout.
      apply (in_grid_same_shape (visible st)); [apply HI|now exists v]. }
    now destruct b.
Qed.

Lemma handle_mouse_counters st x y b st' :
  handle_mouse x y b st = Ok st' ->
  mines st' = mines st /\
  (clicks st' = clicks st \/ clicks st' = S (clicks st)).
Proof.
  unfold handle_mouse. destruct (running st); simpl; [|intros [= <-]; auto].
  destruct (0 <=? x / 40)%Z; simpl.
  2:{ intros [= <-]; auto. }
  destruct (py_getitem (field st) 0) as [row0| |]; simpl; try done.
  destruct (_ && _ && _); [|intros [= <-]; auto].
  destruct b.
  - destruct (get2 _ _ _) as [v| |]; simpl; try done.
    destruct (String.eqb v " "); [|intros [= <-]; auto].
    intros E. apply explore_tile_counters in E as [Hc Hm]. simpl in *. auto.
  - intros [= <-]; auto.
  - unfold toggle_flag.
    destruct (get2 _ _ _) as [v| |]; simpl; try done.
    destruct (String.eqb v " ").
    + destruct (set2 _ _ _ _); simpl; try done. intros [= <-]; auto.
    + destruct (String.eqb v "f"); [|intros [= <-]; auto].
      destruct (set2 _ _ _ _); simpl; try done. intros [= <-]; auto.
Qed.

Lemma toggled_twice v : toggled (toggled v) = v.
Proof.
  unfold toggled. destruct (String.eqb_spec v " ") as [->|]; [done|].
  destruct (String.eqb_spec v "f") as [->|]; [done|].
  destruct (String.eqb_spec v " "); [done|].
  now destruct (String.eqb_spec v "f").
Qed.

Lemma edge_opened_reachable : reachable edge_opened.
Proof.
  apply (reach_mouse corner_mine 40 80 MOUSE_LEFT);
    [apply corner_mine_reachable|reflexivity].
Qed.

Lemma reached_from_number (g : list (list string)) seed c :
  cell g seed <> Some "0" -> reached g seed c -> c = seed.
Proof.
  intros Hs. induction 1 as [|c c' _ IH Hz _ _]; [done|].
  subst c. congruence.
Qed.

Lemma rectangular_length w h (g : list (list string)) :
  rectangular w h g -> length g = h.
Proof.
  unfold rectangular, shape. intros E.
  apply (f_equal length) in E. now rewrite length_fmap, length_replicate in E.
Qed.

(** ** The records of a session *)

Lemma twice_won_reachable : reachable twice_won.
Proof.
  apply (reach_mouse edge_opened 0 0 MOUSE_LEFT);
    [apply edge_opened_reachable|].
  vm_compute. reflexivity.
Qed.

Lemma Ledger_init shuffle inputs st :
  init_game shuffle inputs = Some (Ok st) -> Ledger st.
Proof.
  unfold init_game.
  destruct (init_game_config inputs) as [[[w h] m]|]; [|done].
  destruct (create_field shuffle w h m) as [[fld vis]| |]; simpl; try done.
  now intros [= <-].
Qed.

Lemma Ledger_step st x y b st' :
  Inv st -> Ledger st -> handle_mouse x y b st = Ok st' -> Ledger st'.
Proof.
  intros HI HL E. destruct (running st) eqn:Hr.
  2:{ unfold handle_mouse in E. rewrite Hr in E. simpl in E. congruence. }
  unfold Ledger in HL. rewrite Hr in HL. destruct HL as [Hsaved Hwon].
  destruct (decide (b = MOUSE_LEFT /\
                    cell (visible st) (tile_at x y) = Some " "))
    as [[-> Hv]|Hq].
  - assert (in_grid (field st) (tile_at x y)) as [t Ht].
    { apply (in_grid_same_shape (visible st)); [apply HI|now exists " "]. }
    destruct (Inv_row0 st HI) as (w & h & row0 & Hw & Hh & Hrect & H0).
    destruct (rectangular_row0 w h _ Hrect Hh) as (row0' & H0' & Hlen).
    rewrite H0 in H0'. injection H0' as <-.
    pose proof (rectangular_length _ _ _ Hrect) as Hh'.
    destruct (click_spec st x y t HI Hr Ht Hv) as (st1 & E1 & Hf & Hcase).
    destruct (click_records st x y t row0 HI Hr H0 Ht Hv)
      as (st2 & E2 & Hc & Hm & Hrec).
    rewrite E in E1, E2. injection E1 as <-. injection E2 as <-.
    unfold Ledger.
    destruct Hrec as [(-> & Hr' & n & Hs)|(Hne & k & Hs & Hk1 & Hk2)].
    + destruct Hcase as [(_ & _ & Hw' & _)|[? _]]; [|done].
      rewrite Hr'. exists w, 0%nat, (S n).
      rewrite Hf, Hh', Hs, Hsaved, Hw', Hm, Hc, Hlen. unfold end_record.
      simpl. rewrite Hh'. repeat split; try done; lia.
    + destruct Hcase as [[? _]|(_ & l & HC)]; [done|].
      pose proof (cascade_end_status _ _ _ _ _ HC) as Hst.
      destruct (running st') eqn:Hr'.
      * rewrite (Hk1 eq_refl), Hsaved in Hs. split; [done|].
        now destruct (won st').
      * destruct (won st') eqn:Hw'; [|done].
        destruct k as [|k]; [specialize (Hk2 eq_refl); lia|].
        exists w, k, 0%nat.
        rewrite Hf, Hh', Hs, Hsaved, Hm, Hc, Hlen. unfold end_record.
        simpl. rewrite Hh'. repeat split; try done; lia.
  - rewrite handle_mouse_quiet in E; try done.
    2:{ intros -> Hv. now destruct Hq. }
    injection E as <-. unfold Ledger.
    destruct b; try (now rewrite Hr).
    destruct (cell (visible st) (tile_at x y)); simpl; now rewrite Hr.
Qed.

Lemma reachable_Ledger st : reachable st -> Ledger st.
Proof.
  induction 1 as [shuffle inputs st _ Hinit|st x y b st' Hreach IH Hm].
  - now apply (Ledger_init shuffle inputs).
  - apply (Ledger_step st x y b); [now apply reachable_Inv|done|done].
Qed.

Lemma mines_init shuffle inputs st :
  (forall l, l ≡ₚ shuffle l) ->
  init_game shuffle inputs = Some (Ok st) ->
  Z.of_nat (mine_count (field st)) = mines st /\
  exists w, rectangular w (length (field st)) (field st) /\
    (1 <= mines st <= Z.of_nat w * Z.of_nat (length (field st)))%Z.
Proof.
  intros Hperm. unfold init_game.
  destruct (init_game_config inputs) as [[[w h] m]|] eqn:Hcfg; [|done].
  apply init_game_config_spec in Hcfg as (Hw & Hh & Hm).
  destruct (create_field_spec shuffle w h m Hperm Hw Hh Hm)
    as (fld & -> & Hrect & Hcount & _).
  simpl. intros [= <-]. simpl.
  pose proof (rectangular_length _ _ _ Hrect) as Hlen.
  split; [lia|]. exists (Z.to_nat w). rewrite Hlen. split; [done|lia].
Qed.

(** ** Loops that only append *)

Lemma for_enumerate_from_ext {A T} (body body' : T -> nat -> A -> result T) l :
  (forall s i a, body s i a = body' s i a) ->
  forall i s, for_enumerate_from i body l s = for_enumerate_from i body' l s.
Proof.
  intros E. induction l as [|a l IH]; intros i s; simpl; [done|].
  rewrite E. destruct (body' s i a); simpl; auto.
Qed.

Lemma for_enumerate_from_append {A B} (f : nat -> A -> list B) l :
  forall i s,
    for_enumerate_from i (fun s k a => Ok (s ++ f k a)) l s =
    Ok (s ++ concat (imap (fun k => f (i + k)%nat) l)).
Proof.
  induction l as [|a l IH]; intros i s; simpl.
  - now rewrite app_nil_r.
  - rewrite IH, Nat.add_0_r, <- app_assoc. do 4 f_equal.
    apply imap_ext. intros k b _. simpl. f_equal. lia.
Qed.

Lemma for_tiles_append {B} (f : nat -> nat -> string -> B)
    (g : list (list string)) s :
  for_tiles (fun s y x t => Ok (s ++ [f y x t])) g s =
  Ok (s ++ concat (imap (fun y row => imap (fun x t => f y x t) row) g)).
Proof.
  unfold for_tiles, for_enumerate.
  rewrite (for_enumerate_from_ext _
    (fun s y row => Ok (s ++ imap (fun x t => f y x t) row))).
  - now rewrite for_enumerate_from_append.
  - intros s' y row.
    rewrite (for_enumerate_from_append (fun x t => [f y x t])).
    simpl. do 2 f_equal. clear. revert f. induction row as [|t row IH]; intros f.
    + done.
    + simpl. f_equal. apply (IH (fun y x => f y (S x))).
Qed.

Lemma elem_of_concat_imap {B} (f : nat -> nat -> string -> B)
    (g : list (list string)) b :
  b ∈ concat (imap (fun y row => imap (fun x t => f y x t) row) g) <->
  exists x y t, cell g (Z.of_nat x, Z.of_nat y) = Some t /\ b = f y x t.
Proof.
  rewrite list_elem_of_In, in_concat. split.
  - intros (l & Hl & Hb). apply list_elem_of_In in Hl, Hb.
    apply elem_of_lookup_imap_1 in Hl as (y & row & -> & Hy).
    apply elem_of_lookup_imap_1 in Hb as (x & t & -> & Hx).
    exists x, y, t. split; [|done]. rewrite cell_of_nat, Hy. done.
  - intros (x & y & t & Hc & ->). rewrite cell_of_nat in Hc.
    destruct (g !! y) as [row|] eqn:Hy; [|done]. simpl in Hc.
    exists (imap (fun x t => f y x t) row). split; apply list_elem_of_In.
    + apply (elem_of_lookup_imap_2
        (fun y row => imap (fun x t => f y x t) row) g row y Hy).
    + apply (elem_of_lookup_imap_2 (fun x t => f y x t) row t x Hc).
Qed.

Ltac in_list :=
  apply list_elem_of_In; repeat (first [left; reflexivity|right]).

Lemma str_tile_symbol n : (n <= 8)%nat -> str n ∈ tile_symbols.
Proof.
  intros Hn. unfold tile_symbols.
  do 9 (destruct n as [|n]; [in_list|]). lia.
Qed.

Lemma mine_neighbours_bound (g : list (list string)) c :
  (mine_neighbours g c <= 8)%nat.
Proof.
  unfold mine_neighbours.
  etransitivity; [apply List.filter_length_le|]. now destruct c.
Qed.

Lemma visible_tile_symbol st c v :
  Inv st -> cell (visible st) c = Some v -> v ∈ tile_symbols.
Proof.
  intros HI Hv.
  assert (in_grid (field st) c) as [t Ht].
  { apply (in_grid_same_shape (visible st)); [apply HI|now exists v]. }
  assert (t ∈ tile_symbols) as Hsym.
  { destruct (String.eqb_spec t "x") as [->|Hne]; [in_list|].
    rewrite (inv_counts st HI c t Ht Hne).
    apply str_tile_symbol, mine_neighbours_bound. }
  destruct (inv_visible st HI c t v Ht Hv) as [E|[E|E]]; subst v;
    [in_list|in_list|done].
Qed.

Lemma row_sprites_count (f : nat -> string -> sl_call) (row : list string) :
  (forall x t, is_sprite (f x t) = true) ->
  List.filter is_sprite (imap f row) = imap f row.
Proof.
  revert f. induction row as [|t row IH]; intros f Hf; simpl; [done|].
  rewrite Hf. f_equal. apply IH. intros x t'. apply Hf.
Qed.

Lemma sprites_count (f : nat -> nat -> string -> sl_call)
    (g : list (list string)) :
  (forall y x t, is_sprite (f y x t) = true) ->
  length (List.filter is_sprite
            (concat (imap (fun y row => imap (fun x t => f y x t) row) g))) =
  length (concat g).
Proof.
  revert f. induction g as [|row g IH]; intros f Hf; simpl; [done|].
  rewrite List.filter_app, !length_app.
  rewrite (row_sprites_count (fun x t => f 0%nat x t)) by apply Hf.
  rewrite length_imap. f_equal.
  apply (IH (fun y => f (S y))). intros y x t. apply Hf.
Qed.

(** ** Chunks of any list *)

Lemma py_slice_from_inside {A} (l : list A) i j :
  (0 <= i <= Z.of_nat (length l))%Z -> (i <= j)%Z ->
  py_slice l i j = take (Z.to_nat (j - i)) (drop (Z.to_nat i) l).
Proof.
  intros Hi Hj. unfold py_slice, py_slice_end.
  destruct (Z.ltb_spec i 0), (Z.ltb_spec j 0); try lia.
  rewrite (Z.min_l i) by lia.
  destruct (Z.le_gt_cases j (Z.of_nat (length l))).
  - now rewrite Z.min_l by lia.
  - rewrite Z.min_r by lia. rewrite !take_ge; [done| |];
      rewrite length_drop; lia.
Qed.

Lemma rows_concat {A} (w : nat) : forall n (l : list A),
  (length l <= n * w)%nat ->
  concat ((fun k => take w (drop (k * w) l)) <$> seq 0 n) = l.
Proof.
  induction n as [|n IH]; intros l Hl.
  - simpl in *. destruct l; [done|simpl in Hl; lia].
  - rewrite <- cons_seq, <- fmap_S_seq. rewrite !fmap_cons.
    rewrite <- (list_fmap_compose S (fun k => take w (drop (k * w) l))).
    rewrite (list_fmap_ext _ (fun k => take w (drop (k * w) (drop w l))) (seq 0 n)).
    2:{ intros i k _. simpl. rewrite drop_drop. f_equal. }
    simpl concat. rewrite IH by (rewrite length_drop; lia).
    simpl. rewrite drop_0. apply take_drop.
Qed.

Lemma chunks_positive {A} (l : list A) (size : Z) :
  (0 < size)%Z ->
  exists rows, chunks l size = Ok rows /\
    concat rows = l /\
    Z.of_nat (length rows) = ((Z.of_nat (length l) + size - 1) / size)%Z /\
    forall i row, rows !! i = Some row ->
      (0 < length row)%nat /\
      Z.of_nat (length row) =
        Z.min size (Z.of_nat (length l) - Z.of_nat i * size).
Proof.
  intros Hpos. unfold chunks, py_range_step.
  destruct (Z.eqb_spec size 0) as [->|Hne]; [lia|].
  destruct (Z.ltb_spec 0 size) as [_|Hneg]; [|lia]. simpl.
  eexists. split; [reflexivity|].
  set (len := Z.of_nat (length l)).
  set (n := Z.to_nat ((len + size - 1) / size)).
  assert (0 <= (len + size - 1) / size)%Z as Hn0
    by (apply Z.div_pos; lia).
  assert (len <= Z.of_nat n * size)%Z as Hn1.
  { unfold n. rewrite Z2Nat.id by done.
    pose proof (Z.mul_succ_div_gt (len + size - 1) size Hpos). lia. }
  assert (forall k, (k < n)%nat -> (Z.of_nat k * size < len)%Z) as Hn2.
  { intros k Hk. unfold n in Hk.
    assert (Z.of_nat k + 1 <= (len + size - 1) / size)%Z as Hk' by lia.
    pose proof (Z.mul_div_le (len + size - 1) size Hpos). nia. }
  rewrite <- (list_fmap_compose (fun k : nat => (Z.of_nat k * size)%Z)
                (fun i => py_slice l i (i + size))).
  rewrite (list_fmap_ext _
    (fun k => take (Z.to_nat size) (drop (k * Z.to_nat size) l)) (seq 0 n)).
  2:{ intros i k Hk. simpl. apply lookup_seq in Hk as [-> Hi]. simpl.
      specialize (Hn2 i Hi).
      rewrite py_slice_from_inside by (unfold len in *; lia).
      f_equal; [lia|]. f_equal. lia. }
  split; [apply rows_concat; unfold len in *; nia|].
  split; [rewrite length_fmap, length_seq; unfold n; lia|].
  intros i row Hrow. apply list_lookup_fmap_Some in Hrow as (k & -> & Hk).
  apply lookup_seq in Hk as [-> Hi]. simpl in *.
  specialize (Hn2 i Hi). rewrite length_take, length_drop.
  unfold len in *. split; lia.
Qed.

(** ** The neighbours of a tile, as a list *)

Lemma in_grid_guard (g : list (list string)) x y :
  bool_decide (in_grid g (x, y)) =
  ((0 <=? y)%Z && (y <? Z.of_nat (length g))%Z) &&
  ((0 <=? x)%Z && (x <? Z.of_nat (length (item [] g y)))%Z).
Proof.
  case_bool_decide as H; rewrite in_grid_item in H.
  - symmetry. rewrite !andb_true_iff, !Z.leb_le, !Z.ltb_lt. lia.
  - symmetry. apply not_true_is_false.
    rewrite !andb_true_iff, !Z.leb_le, !Z.ltb_lt. lia.
Qed.

Lemma NoDup_around c : NoDup (around c).
Proof.
  destruct c as [x y]. unfold around.
  repeat (apply NoDup_cons; split;
    [rewrite ?elem_of_cons, ?elem_of_nil;
     intros H; repeat destruct H as [H|H]; try done; inversion H; lia|]).
  apply NoDup_nil_2.
Qed.

(** ** The only exception of the cascade *)















(** ** What the prompts read *)

Lemma positive_false k : positive k = false <-> (k <= 0)%Z.
Proof. unfold positive. destruct (Z.gtb_spec k 0); split; (done || lia). Qed.

Lemma get_positive_integer_app s : forall tail,
  (Forall (rejected positive) s /\
   get_positive_integer (s ++ tail) = get_positive_integer tail) \/
  (exists s1 k s2, s = s1 ++ Some k :: s2 /\ (0 < k)%Z /\
     Forall (rejected positive) s1 /\
     get_positive_integer (s ++ tail) = Some (k, s2 ++ tail)).
Proof.
  induction s as [|e s IH]; intros tail; simpl.
  - left. done.
  - destruct e as [k|].
    + destruct (Z.gtb_spec k 0) as [Hk|Hk].
      * right. exists [], k, s. done.
      * destruct (IH tail) as [[Hs E]|(s1 & k' & s2 & -> & Hk' & Hs1 & E)].
        -- left. split; [|done]. constructor; [|done].
           intros k0 [= <-]. now apply positive_false.
        -- right. exists (Some k :: s1), k', s2. repeat split; try done.
           constructor; [|done].
           intros k0 [= <-]. now apply positive_false.
    + destruct (IH tail) as [[Hs E]|(s1 & k' & s2 & -> & Hk' & Hs1 & E)].
      * left. split; [|done]. constructor; [|done]. intros k0 [=].
      * right. exists (None :: s1), k', s2. repeat split; try done.
        constructor; [|done]. intros k0 [=].
Qed.

Lemma get_positive_integer_reads inputs n rest :
  get_positive_integer inputs = Some (n, rest) <->
  exists s, inputs = s ++ Some n :: rest /\
    Forall (rejected positive) s /\ (0 < n)%Z.
Proof.
  split.
  - revert n rest. induction inputs as [|[k|] inputs IH]; intros n rest; simpl.
    + done.
    + destruct (Z.gtb_spec k 0) as [Hk|Hk].
      * intros [= -> ->]. exists []. done.
      * intros (s & -> & Hs & Hn)%IH. exists (Some k :: s).
        repeat split; try done. constructor; [|done].
        intros k0 [= <-]. now apply positive_false.
    + intros (s & -> & Hs & Hn)%IH. exists (None :: s).
      repeat split; try done. constructor; [|done]. intros k0 [=].
  - intros (s & -> & Hs & Hn).
    destruct (get_positive_integer_app s (Some n :: rest))
      as [[_ E]|(s1 & k & s2 & -> & Hk & _ & _)].
    + refine (eq_trans E _). simpl. destruct (Z.gtb_spec n 0); [done|lia].
    + apply Forall_app in Hs as [_ Hs]. apply Forall_cons in Hs as [Hs _].
      specialize (Hs k eq_refl). apply positive_false in Hs. lia.
Qed.

Lemma rejected_positive_range w h e :
  rejected positive e -> rejected (mines_in_range w h) e.
Proof.
  intros H k Hk. specialize (H k Hk). apply positive_false in H.
  unfold mines_in_range. destruct (Z.ltb_spec k 1); [done|lia].
Qed.

Lemma mines_in_range_spec w h k :
  mines_in_range w h k = true <-> (1 <= k <= w * h)%Z.
Proof.
  unfold mines_in_range.
  destruct (Z.ltb_spec k 1), (Z.gtb_spec k (w * h)); simpl; split;
    try done; lia.
Qed.

Lemma ask_mines_reads w h m rest rounds : forall inputs,
  (length inputs <= rounds)%nat ->
  ask_mines rounds inputs w h = Some (m, rest) <->
  exists s, inputs = s ++ Some m :: rest /\
    Forall (rejected (mines_in_range w h)) s /\ (1 <= m <= w * h)%Z.
Proof.
  unfold entry in *.
  induction rounds as [|rounds IH]; intros inputs Hlen; simpl.
  - split; [done|]. intros (s & -> & _). rewrite length_app in Hlen.
    simpl in Hlen. lia.
  - split.
    + destruct (get_positive_integer inputs) as [[k r]|] eqn:E; [|done].
      apply get_positive_integer_reads in E as (s0 & -> & Hs0 & Hk).
      rewrite length_app in Hlen. simpl in Hlen.
      assert (Forall (rejected (mines_in_range w h)) s0) as Hs0'.
      { eapply Forall_impl; [exact Hs0|]. apply rejected_positive_range. }
      destruct ((k <? 1)%Z || (k >? w * h)%Z) eqn:Hout.
      * intros (s & -> & Hs & Hm)%IH; [|lia].
        exists (s0 ++ Some k :: s). split; [now rewrite <- app_assoc|].
        split; [|done]. apply Forall_app. split; [done|].
        constructor; [|done]. intros k0 [= <-]. unfold mines_in_range.
        now rewrite Hout.
      * intros [= -> ->]. exists s0. repeat split; try done;
          apply (mines_in_range_spec w h m); unfold mines_in_range;
          now rewrite Hout.
    + intros (s & -> & Hs & Hm).
      destruct (get_positive_integer_app s (Some m :: rest))
        as [[_ E]|(s1 & k & s2 & -> & Hk & _ & E)].
      * replace (get_positive_integer (s ++ Some m :: rest))
          with (Some (m, rest)).
        2:{ symmetry. refine (eq_trans E _). simpl.
            destruct (Z.gtb_spec m 0); [done|lia]. }
        apply mines_in_range_spec in Hm. unfold mines_in_range in Hm.
        apply negb_true_iff in Hm. now rewrite Hm.
      * replace (get_positive_integer ((s1 ++ Some k :: s2) ++ Some m :: rest))
          with (Some (k, s2 ++ Some m :: rest)).
        apply Forall_app in Hs as [_ Hs]. apply Forall_cons in Hs as [Hk' Hs].
        specialize (Hk' k eq_refl). unfold mines_in_range in Hk'.
        apply negb_false_iff in Hk'. rewrite Hk'.
        apply IH.
        -- rewrite !length_app in *. simpl in *. rewrite ?length_app in Hlen.
           simpl in Hlen. lia.
        -- now exists s2.
Qed.

(** ** Menus *)

Lemma make_choice_loop_spec choice options : forall i,
  (make_choice_loop choice i options = (-1)%Z /\
   Forall (fun o => String.prefix choice o = false) options) \/
  (exists k o, make_choice_loop choice i options = Z.of_nat (i + k) /\
     options !! k = Some o /\ String.prefix choice o = true /\
     forall j o', (j < k)%nat -> options !! j = Some o' ->
       String.prefix choice o' = false).
Proof.
  induction options as [|o options IH]; intros i; simpl.
  - left. done.
  - destruct (String.prefix choice o) eqn:Ho.
    + right. exists 0%nat, o. rewrite Nat.add_0_r.
      repeat split; try done. intros j o' Hj. lia.
    + destruct (IH (S i)) as [[E Hall]|(k & o1 & E & Hk & Ho1 & Hmin)].
      * left. split; [done|]. now constructor.
      * right. exists (S k), o1. rewrite E.
        split; [f_equal; lia|]. repeat split; try done.
        intros [|j] o' Hj; simpl; [now intros [= <-]|].
        apply Hmin. lia.
Qed.

(** ** Checking the data file *)

Lemma isinstance_str v : isinstance v py_str = true <-> exists s, v = JStr s.
Proof. destruct v; simpl; split; try done; try (intros [? [=]]); eauto. Qed.

Lemma isinstance_list v :
  isinstance v py_list = true <-> exists items, v = JList items.
Proof. destruct v; simpl; split; try done; try (intros [? [=]]); eauto. Qed.

Lemma isinstance_int v : isinstance v py_int = true <-> is_int v.
Proof.
  unfold is_int. destruct v; simpl; split; try done; eauto;
    intros [[? [=]]|[? [=]]].
Qed.

Lemma isinstance_bool v : isinstance v py_bool = true <-> exists b, v = JBool b.
Proof. destruct v; simpl; split; try done; try (intros [? [=]]); eauto. Qed.

Lemma isinstance_float v :
  isinstance v py_float = true <-> exists t, v = JFloat t.
Proof. destruct v; simpl; split; try done; try (intros [? [=]]); eauto. Qed.

Lemma game_is_broken_valid game :
  game_is_broken game = Return false <-> valid_game game.
Proof.
  split.
  - intros H. destruct game as [| | | | |?|entries]; try discriminate H.
    unfold game_is_broken in H. simpl in H.
    destruct (lookup_key (chars "date") entries) as [date|] eqn:E1;
      [|discriminate H]. simpl in H.
    destruct (lookup_key (chars "clock") entries) as [clock|] eqn:E2;
      [|discriminate H]. simpl in H.
    destruct (lookup_key (chars "dimensions") entries) as [dims|] eqn:E3;
      [|discriminate H]. simpl in H.
    destruct (getitem_index dims 0) as [d0|] eqn:E4; [|discriminate H].
    simpl in H.
    destruct (getitem_index dims 1) as [d1|] eqn:E5; [|discriminate H].
    simpl in H.
    destruct (lookup_key (chars "mines") entries) as [mines|] eqn:E6;
      [|discriminate H]. simpl in H.
    destruct (lookup_key (chars "result") entries) as [res|] eqn:E7;
      [|discriminate H]. simpl in H.
    destruct (getitem_index res 0) as [r0|] eqn:E8; [|discriminate H].
    simpl in H.
    destruct (getitem_index res 1) as [r1|] eqn:E9; [|discriminate H].
    simpl in H.
    destruct (lookup_key (chars "time") entries) as [time|] eqn:E10;
      [|discriminate H]. simpl in H.
    destruct (lookup_key (chars "clicks") entries) as [clicks|] eqn:E11;
      [|discriminate H]. simpl in H.
    destruct (isinstance date py_str) eqn:T1; [|discriminate H].
    destruct (isinstance clock py_str) eqn:T2; [|discriminate H].
    destruct (isinstance dims py_list) eqn:T3; [|discriminate H].
    destruct (isinstance d0 py_int) eqn:T4; [|discriminate H].
    destruct (isinstance d1 py_int) eqn:T5; [|discriminate H].
    destruct (isinstance mines py_int) eqn:T6; [|discriminate H].
    destruct (isinstance res py_list) eqn:T7; [|discriminate H].
    destruct (isinstance r0 py_bool) eqn:T8; [|discriminate H].
    destruct (isinstance r1 py_int) eqn:T9; [|discriminate H].
    destruct (isinstance time py_float) eqn:T10; [|discriminate H].
    destruct (isinstance clicks py_int) eqn:T11; [|discriminate H].
    simpl in H.
    apply isinstance_str in T1 as [sd ->], T2 as [sc ->].
    apply isinstance_list in T3 as [ld ->], T7 as [lr ->].
    apply isinstance_bool in T8 as [won ->].
    apply isinstance_float in T10 as [t ->].
    apply isinstance_int in T4, T5, T6, T9, T11.
    simpl in H.
    destruct ld as [|a [|b [|c ld]]]; try discriminate H.
    destruct lr as [|a' [|b' [|c' lr]]]; try discriminate H.
    simpl in E4, E5, E8, E9.
    injection E4 as ->. injection E5 as ->.
    injection E8 as ->. injection E9 as ->.
    exists entries, sd, sc, d0, d1, mines, won, r1, t, clicks. done.
  - intros (entries & date & clock & d0 & d1 & mines & won & left & time &
            clicks & -> & E1 & E2 & E3 & T4 & T5 & E6 & T6 & E7 & T9 & E10 &
            E11 & T11).
    unfold game_is_broken. simpl. rewrite E1, E2, E3, E6, E7, E10, E11. simpl.
    apply isinstance_int in T4, T5, T6, T9, T11.
    now rewrite T4, T5, T6, T9, T11.
Qed.

Lemma no_attribute_error_bind {A B} (m : outcome A) (k : A -> outcome B) :
  no_attribute_error m -> (forall a, no_attribute_error (k a)) ->
  no_attribute_error (m ≫= k).
Proof.
  unfold no_attribute_error. destruct m as [a|e]; simpl; [auto|].
  intros H _ [= ->]. done.
Qed.

Lemma getitem_key_no_attribute_error obj key :
  no_attribute_error (getitem_key obj key).
Proof.
  unfold no_attribute_error, getitem_key. now repeat case_match.
Qed.

Lemma getitem_index_no_attribute_error obj i :
  no_attribute_error (getitem_index obj i).
Proof.
  unfold no_attribute_error, getitem_index. now repeat case_match.
Qed.

Lemma len_no_attribute_error obj : no_attribute_error (len obj).
Proof. unfold no_attribute_error, len. now repeat case_match. Qed.

Lemma game_is_broken_no_attribute_error game :
  no_attribute_error (game_is_broken game).
Proof.
  unfold game_is_broken.
  repeat (apply no_attribute_error_bind;
          [first [apply getitem_key_no_attribute_error
                 |apply no_attribute_error_bind;
                  [apply getitem_key_no_attribute_error
                  |intros; apply getitem_index_no_attribute_error]]
          |intros ?]).
  destruct (negb _); [done|].
  apply no_attribute_error_bind.
  { apply no_attribute_error_bind;
      [apply getitem_key_no_attribute_error|apply len_no_attribute_error]. }
  intros n. destruct (negb _); [done|].
  apply no_attribute_error_bind; [|done].
  apply no_attribute_error_bind;
    [apply getitem_key_no_attribute_error|apply len_no_attribute_error].
Qed.

Lemma validate_games_spec games :
  (validate_games games = Return 1%Z <-> Forall valid_game games) /\
  (forall z, validate_games games = Return z -> z = 1%Z \/ z = (-1)%Z) /\
  no_attribute_error (validate_games games).
Proof.
  induction games as [|game games (IH1 & IH2 & IH3)]; simpl.
  - split; [split; [constructor|done]|]. split; [|done].
    intros z [= <-]. now left.
  - pose proof (game_is_broken_valid game) as Hg.
    pose proof (game_is_broken_no_attribute_error game) as Ha.
    destruct (game_is_broken game) as [[|]|e]; simpl.
    + split; [split; [done|]|].
      * intros [Hv _]%Forall_cons. now apply Hg in Hv.
      * split; [|done]. intros z [= <-]. now right.
    + split; [|done]. rewrite IH1, Forall_cons. split; [|tauto].
      intros H. split; [now apply Hg|done].
    + split; [split; [done|]|].
      * intros [Hv _]%Forall_cons. now apply Hg in Hv.
      * split; [done|]. intros [= ->]. now destruct Ha.
Qed.

Lemma validate_games_first_not_dict game games :
  (forall entries, game <> JDict entries) ->
  validate_games (game :: games) = Throw TypeError.
Proof. intros H. simpl. destruct game; try done. now destruct (H entries). Qed.

Lemma validate_data_spec data :
  (validate_data data = Return 1%Z <-> valid_data data) /\
  (validate_data data = Return 1%Z \/ validate_data data = Return (-1)%Z \/
   validate_data data = Throw TypeError).
Proof.
  unfold validate_data, valid_data.
  destruct data as [| | | | |?|entries]; simpl;
    try (split; [split; [done|intros (? & ? & [=] & _)]|auto]).
  destruct (lookup_key (chars "games") entries) as [games|] eqn:Eg; simpl.
  2:{ split; [|auto]. split; [done|]. intros (? & ? & [= <-] & ? & _).
      congruence. }
  assert (forall P : json -> Prop,
    (exists entries' games', JDict entries = JDict entries' /\
       lookup_key (chars "games") entries' = Some games' /\ P games') <->
    P games) as Hex.
  { intros P. split.
    - intros (? & ? & [= <-] & E & HP). congruence.
    - intros HP. now exists entries, games. }
  rewrite Hex. clear Hex.
  destruct games as [| | | |s|items|es]; simpl;
    try (split; [split; [done|intros [?|[?|(? & ? & _)]]; done]|auto]).
  - destruct s as [|c s]; simpl.
    + split; [|auto]. split; [auto|done].
    + split; [|auto]. split; [done|]. intros [?|[?|(? & ? & _)]]; done.
  - destruct (validate_games_spec items) as (H1 & H2 & H3).
    destruct (validate_games items) as [z|e] eqn:E.
    + split.
      * rewrite H1. split.
        -- intros H. right; right. now exists items.
        -- intros [?|[?|(? & [= <-] & H)]]; done.
      * destruct (H2 z eq_refl) as [->| ->]; auto.
    + destruct e; try (now destruct H3); (split; [|auto]);
        (split; [done|]); intros [?|[?|(? & [= <-] & H)]]; try done;
        apply H1 in H; done.
  - destruct es as [|[k v] es]; simpl.
    + split; [|auto]. split; [auto|done].
    + split; [|auto]. split; [done|]. intros [?|[?|(? & ? & _)]]; done.
Qed.

(** ** Writing the data file *)






(** ** Loops that count *)

Lemma for_enumerate_from_count {A} (p : nat -> bool)
    (body : nat -> nat -> A -> result nat) l : forall i n,
  (forall n k a, l !! k = Some a ->
     body n (i + k)%nat a = Ok (if p (i + k)%nat then S n else n)) ->
  for_enumerate_from i body l n =
  Ok (n + length (List.filter p (imap (fun k _ => (i + k)%nat) l)))%nat.
Proof.
  induction l as [|a l IH]; intros i n Hbody; simpl.
  - f_equal. lia.
  - rewrite <- (Nat.add_0_r i) at 1. rewrite (Hbody n 0%nat a eq_refl).
    simpl. rewrite Nat.add_0_r. rewrite IH.
    2:{ intros n' k a' Hk. replace (S i + k)%nat with (i + S k)%nat by lia.
        now apply Hbody. }
    rewrite (imap_ext (fun k _ => (S i + k)%nat)
               ((fun k _ => (i + k)%nat) ∘ S) l)
      by (intros; simpl; lia).
    destruct (p i); simpl; f_equal; lia.
Qed.

Lemma filter_imap_coords (P : Z * Z -> bool) (y : nat) (row : list string) :
  forall f : nat -> nat,
  length (List.filter (fun x => P (Z.of_nat x, Z.of_nat y))
            (imap (fun k _ => f k) row)) =
  length (List.filter P (imap (fun x _ => (Z.of_nat (f x), Z.of_nat y)) row)).
Proof.
  induction row as [|t row IH]; intros f; simpl; [done|].
  destruct (P (Z.of_nat (f 0%nat), Z.of_nat y)); simpl; [f_equal|];
    apply (IH (f ∘ S)).
Qed.

Lemma for_tiles_count (P : Z * Z -> bool)
    (body : nat -> nat -> nat -> string -> result nat)
    (g : list (list string)) :
  (forall n x y t, cell g (Z.of_nat x, Z.of_nat y) = Some t ->
     body n y x t = Ok (if P (Z.of_nat x, Z.of_nat y) then S n else n)) ->
  for_tiles body g 0%nat = Ok (length (List.filter P (all_coords g))).
Proof.
  intros Hbody. unfold for_tiles, for_enumerate, all_coords.
  assert (forall rows i n,
    (forall k row, rows !! k = Some row -> g !! (i + k)%nat = Some row) ->
    for_enumerate_from i
      (fun s y row => for_enumerate_from 0 (fun s x tile => body s y x tile) row s)
      rows n =
    Ok (n + length (List.filter P (concat (imap (fun k row =>
          imap (fun x _ => (Z.of_nat x, Z.of_nat (i + k)%nat)) row) rows))))%nat)
    as H.
  { induction rows as [|row rows IH]; intros i n Hrows; simpl.
    - f_equal. lia.
    - rewrite (for_enumerate_from_count
                 (fun x => P (Z.of_nat x, Z.of_nat i))).
      2:{ intros n' k t Hk. simpl. apply Hbody.
          rewrite cell_of_nat. rewrite <- (Nat.add_0_r i).
          rewrite (Hrows 0%nat row eq_refl). simpl. exact Hk. }
      simpl. rewrite IH.
      2:{ intros k r Hk. replace (S i + k)%nat with (i + S k)%nat by lia.
          now apply Hrows. }
      rewrite List.filter_app, length_app.
      rewrite (filter_imap_coords P i row (fun k => k)).
      rewrite Nat.add_0_r.
      rewrite (imap_ext
        (fun k row0 => imap (fun x _ => (Z.of_nat x, Z.of_nat (S i + k)%nat)) row0)
        ((fun k row0 => imap (fun x _ => (Z.of_nat x, Z.of_nat (i + k)%nat)) row0) ∘ S)
        rows).
      2:{ intros k r _. simpl. apply imap_ext. intros x t _.
          do 2 f_equal. lia. }
      f_equal. lia. }
  rewrite (H g 0%nat 0%nat) by done. done.
Qed.

Lemma length_concat_shape {A} (g g' : list (list A)) :
  length <$> g = length <$> g' -> length (concat g) = length (concat g').
Proof.
  revert g'. induction g as [|row g IH]; intros [|row' g'] E;
    simpl in *; try done.
  injection E as E1 E2. rewrite !length_app, E1. f_equal. now apply IH.
Qed.

Lemma get2_same_shape st (x y : nat) t :
  shape (visible st) = shape (field st) ->
  cell (field st) (Z.of_nat x, Z.of_nat y) = Some t ->
  exists v, cell (visible st) (Z.of_nat x, Z.of_nat y) = Some v /\
    get2 (visible st) (Z.of_nat y) (Z.of_nat x) = Ok v.
Proof.
  intros Hs Ht.
  assert (in_grid (visible st) (Z.of_nat x, Z.of_nat y)) as [v Hv].
  { apply (in_grid_same_shape (field st)); [done|now exists t]. }
  exists v. split; [done|]. now apply get2_cell.
Qed.

Lemma count_unexplored_tiles_exact st :
  shape (visible st) = shape (field st) ->
  count_unexplored_tiles st =
    Ok (length (List.filter (unexplored st) (all_coords (field st)))).
Proof.
  intros Hs. unfold count_unexplored_tiles. apply for_tiles_count.
  intros n x y t Ht. destruct (get2_same_shape st x y t Hs Ht) as (v & Hv & ->).
  unfold unexplored. rewrite Ht, Hv. simpl.
  now destruct (String.eqb t "x").
Qed.

Lemma count_unflagged_mines_exact st :
  shape (visible st) = shape (field st) ->
  count_unflagged_mines st =
    Ok (length (List.filter (unflagged_mine st) (all_coords (field st)))).
Proof.
  intros Hs. unfold count_unflagged_mines. apply for_tiles_count.
  intros n x y t Ht. destruct (get2_same_shape st x y t Hs Ht) as (v & Hv & ->).
  unfold unflagged_mine. rewrite Ht, Hv. simpl.
  now destruct (String.eqb t "x").
Qed.

(** ** Clicks and revealed tiles *)

Lemma revealed_at_spec st c :
  revealed_at st c = true <->
  exists v, cell (visible st) c = Some v /\ Revealed v.
Proof.
  unfold revealed_at, Revealed. destruct (cell (visible st) c) as [v|].
  - rewrite andb_true_iff, !negb_true_iff, !String.eqb_neq. split.
    + intros H. now exists v.
    + now intros (? & [= <-] & H).
  - split; [done|]. now intros (? & [=] & _).
Qed.

Lemma filter_length_mono {A} (p q : A -> bool) (l : list A) :
  (forall a, a ∈ l -> p a = true -> q a = true) ->
  (length (List.filter p l) <= length (List.filter q l))%nat.
Proof.
  induction l as [|a l IH]; intros H; simpl; [done|].
  assert (length (List.filter p l) <= length (List.filter q l))%nat as IH'.
  { apply IH. intros b Hb. apply H. now right. }
  pose proof (H a (list_elem_of_here a l)) as Ha.
  destruct (p a), (q a); simpl; try lia; now specialize (Ha eq_refl).
Qed.

Lemma filter_length_strict {A} (p q : A -> bool) (l : list A) a :
  (forall b, b ∈ l -> p b = true -> q b = true) ->
  a ∈ l -> p a = false -> q a = true ->
  (length (List.filter p l) < length (List.filter q l))%nat.
Proof.
  induction l as [|b l IH]; intros H Ha Hp Hq; [now apply elem_of_nil in Ha|].
  simpl.
  assert (length (List.filter p l) <= length (List.filter q l))%nat as Hle.
  { apply filter_length_mono. intros c Hc. apply H. now right. }
  pose proof (H b (list_elem_of_here b l)) as Hb.
  apply elem_of_cons in Ha as [->|Ha].
  - rewrite Hp, Hq. simpl. lia.
  - assert (length (List.filter p l) < length (List.filter q l))%nat.
    { apply IH; try done. intros c Hc. apply H. now right. }
    destruct (p b), (q b); simpl; try lia; now specialize (Hb eq_refl).
Qed.

Lemma click_reveals st x y :
  Inv st -> running st = true ->
  cell (visible st) (tile_at x y) = Some " " ->
  exists st', handle_mouse x y MOUSE_LEFT st = Ok st' /\
    exists v, cell (visible st') (tile_at x y) = Some v /\ Revealed v.
Proof.
  intros HI Hr Hv.
  assert (in_grid (field st) (tile_at x y)) as [t Ht].
  { apply (in_grid_same_shape (visible st)); [apply HI|now exists " "]. }
  destruct (click_spec st x y t HI Hr Ht Hv)
    as (st' & E & _ & [(-> & _ & _ & _ & Hvis)|(Hne & l & HC)]).
  - exists st'. split; [done|]. exists "x". split; [|split; done].
    rewrite (Hvis _ _ _ Ht Hv). now rewrite decide_True.
  - exists st'. split; [done|]. exists t. split.
    + apply (cascade_end_reached (field st) (visible st) (tile_at x y) t l st');
        try done; try apply HI. constructor.
    + apply (counts_revealed (field st) (tile_at x y)); [apply HI|done|done].
Qed.

(** ** Around a revealed zero *)

Lemma show_upd_zero t v : show_upd t v = "0" -> v = "0".
Proof.
  unfold show_upd. destruct (String.eqb t "x" && negb (String.eqb v "f"));
    [discriminate|done].
Qed.

Lemma toggled_zero v : toggled v = "0" -> v = "0".
Proof.
  unfold toggled. destruct (String.eqb v " "); [discriminate|].
  destruct (String.eqb v "f"); [discriminate|done].
Qed.

Lemma zeros_opened_step st x y b st' :
  Inv st -> zeros_opened st -> handle_mouse x y b st = Ok st' ->
  zeros_opened st'.
Proof.
  intros HI IH E.
  destruct (handle_mouse_step st x y b HI) as (st1 & E1 & HI' & Hf & Hkeep).
  rewrite E in E1. injection E1 as <-.
  assert (forall c, cell (visible st) c = Some "0" ->
    forall c', adjacent c c' -> in_grid (field st') c' ->
      exists v, cell (visible st') c' = Some v /\ Revealed v) as Hold.
  { intros c Hc c' Hadj Hin. rewrite Hf in Hin.
    destruct (IH c c' Hc Hadj Hin) as (v & Hv & Hrev).
    exists v. split; [now apply Hkeep|done]. }
  intros c c' Hc Hadj Hin.
  destruct (running st) eqn:Hr.
  2:{ unfold handle_mouse in E. rewrite Hr in E. simpl in E.
      injection E as <-. now apply (IH c c'). }
  destruct (decide (b = MOUSE_LEFT /\
                    cell (visible st) (tile_at x y) = Some " "))
    as [[-> Hv]|Hq].
  - assert (in_grid (field st) (tile_at x y)) as [t Ht].
    { apply (in_grid_same_shape (visible st)); [apply HI|now exists " "]. }
    assert (in_grid (field st) c) as [tc Htc].
    { rewrite <- Hf. apply (in_grid_same_shape (visible st'));
        [apply HI'|now exists "0"]. }
    assert (in_grid (visible st) c) as [vc Hvc].
    { apply (in_grid_same_shape (field st)); [symmetry; apply HI|now exists tc]. }
    destruct (click_spec st x y t HI Hr Ht Hv)
      as (st2 & E2 & _ & [(-> & _ & _ & _ & Hvis)|(Hne & l & HC)]);
      rewrite E in E2; injection E2 as <-.
    + rewrite (Hvis c tc vc Htc Hvc) in Hc. injection Hc as Hc.
      case_decide; [discriminate|]. apply show_upd_zero in Hc as ->.
      now apply (Hold c).
    + pose proof (cascade_end_reached (field st) (visible st) (tile_at x y)
        t l st' (inv_counts st HI) (inv_shape st HI) (inv_visible st HI)
        Ht Hne HC) as Hshow.
      destruct (String.eqb_spec tc "x") as [->|Hclear].
      { rewrite (casc_mines _ _ _ _ _ _ HC c vc Htc Hvc) in Hc.
        destruct (running st'); [|discriminate].
        injection Hc as ->. now apply (Hold c). }
      rewrite (casc_clear _ _ _ _ _ _ HC c tc vc Htc Hclear Hvc) in Hc.
      case_decide as Hl.
      * injection Hc as ->. rewrite take_ge in Hl by done.
        apply (casc_reached _ _ _ _ _ _ HC) in Hl.
        rewrite Hf in Hin. destruct Hin as [t' Ht'].
        assert (reached (field st) (tile_at x y) c') as Hreach'.
        { apply (reached_next _ _ c c'); try done. now exists t'. }
        exists t'. split; [now apply Hshow|].
        destruct (reached_clear (field st) (tile_at x y) t c'
          (inv_counts st HI) Ht Hne Hreach') as (t'' & Ht'' & Hclear').
        rewrite Ht' in Ht''. injection Ht'' as <-.
        apply (counts_revealed (field st) c'); [apply HI|done|done].
      * injection Hc as ->. now apply (Hold c).
  - rewrite handle_mouse_quiet in E; try done.
    2:{ intros -> Hv. now destruct Hq. }
    injection E as E. apply (Hold c); [|done|done].
    destruct b; try (now subst st').
    destruct (cell (visible st) (tile_at x y)) as [v|] eqn:Hv;
      [|now subst st'].
    subst st'. simpl in Hc.
    rewrite cell_grid_put in Hc by now exists v.
    case_decide as Hcc; [|done]. subst c.
    injection Hc as Hc. apply toggled_zero in Hc. now subst v.
Qed.

(** ** The record of a lost game *)





(** ** The mines of a finished game *)

Lemma mines_shown_step st x y b st' :
  Inv st -> (running st = false -> mines_shown st) ->
  handle_mouse x y b st = Ok st' -> running st' = false -> mines_shown st'.
Proof.
  intros HI IH E Hr'. destruct (running st) eqn:Hr.
  2:{ unfold handle_mouse in E. rewrite Hr in E. simpl in E.
      injection E as <-. now apply IH. }
  destruct (decide (b = MOUSE_LEFT /\
                    cell (visible st) (tile_at x y) = Some " "))
    as [[-> Hv]|Hq].
  - assert (in_grid (field st) (tile_at x y)) as [t Ht].
    { apply (in_grid_same_shape (visible st)); [apply HI|now exists " "]. }
    destruct (click_spec st x y t HI Hr Ht Hv)
      as (st2 & E2 & Hf & [(-> & _ & _ & _ & Hvis)|(Hne & l & HC)]);
      rewrite E in E2; injection E2 as <-; intros c Hc; rewrite Hf in Hc;
      (assert (in_grid (visible st) c) as [v Hcv];
        [apply (in_grid_same_shape (field st));
           [symmetry; apply HI|now exists "x"]|]).
    + rewrite (Hvis c "x" v Hc Hcv). case_decide; [now left|].
      unfold show_upd. simpl.
      destruct (String.eqb_spec v "f") as [->|]; simpl; auto.
    + rewrite (casc_mines _ _ _ _ _ _ HC c v Hc Hcv), Hr'. now right.
  - rewrite handle_mouse_quiet in E; try done.
    2:{ intros -> Hv. now destruct Hq. }
    injection E as <-. exfalso.
    destruct b; try (simpl in Hr'; congruence).
    destruct (cell (visible st) (tile_at x y)); simpl in Hr'; congruence.
Qed.

Lemma reachable_mines_shown st :
  reachable st -> running st = false -> mines_shown st.
Proof.
  induction 1 as [shuffle inputs st _ Hinit|st x y b st' Hreach IH Hm].
  - unfold init_game in Hinit.
    destruct (init_game_config inputs) as [[[w h] m]|]; [|done].
    destruct (create_field shuffle w h m) as [[fld vis]| |]; simpl in *;
      try done.
    now injection Hinit as <-.
  - apply (mines_shown_step st x y b); [now apply reachable_Inv|done|done].
Qed.

(** ** The tiles that the cascade of a click goes through *)

Lemma click_trace st x y t :
  Inv st -> running st = true ->
  cell (field st) (tile_at x y) = Some t ->
  cell (visible st) (tile_at x y) = Some " " ->
  exists l st',
    explore_loop (explore_fuel (add_click st)) [tile_at x y] 0 (add_click st)
      = Ok (l, st') /\
    handle_mouse x y MOUSE_LEFT st = Ok st' /\
    ((t = "x" /\ l = [tile_at x y] /\ running st' = false /\ won st' = false) \/
     (t <> "x" /\
      Cascade (field st) (visible st) (tile_at x y) l (length l) st')).
Proof.
  intros HI Hr Ht Hv.
  destruct (Inv_row0 st HI) as (w & h & row0 & Hw & Hh & Hrect & H0).
  destruct (inv_running st HI Hr) as [Hwon _].
  rewrite (handle_mouse_running st x y _ w h Hrect Hh Hr).
  rewrite decide_True by now exists t.
  unfold tile_at in *. rewrite (get2_cell _ _ _ _ Hv). simpl.
  destruct (String.eqb_spec t "x") as [->|Hne].
  - destruct (explore_mine_spec (add_click st) (x / 40) (y / 40) row0)
      as (st' & El & E & Hr' & Hw' & _); try done.
    { apply (inv_shape st HI). }
    exists [(x / 40, y / 40)%Z], st'. split; [done|]. split; [done|]. left.
    simpl in Hw'. rewrite Hw', Hwon. done.
  - destruct (explore_clear_spec (add_click st) (x / 40) (y / 40) t row0)
      as (l & st' & El & E & HC); try done.
    { apply (inv_counts st HI). }
    { apply (inv_shape st HI). }
    exists l, st'. split; [done|]. split; [done|]. right. done.
Qed.

(** ** Appending to the data file *)









(** ** The session with the file follows the session alone *)



















(** ** What the events of a session do to the session and to the file *)








(** * The properties of the engine *)

(** C1. For every width and height of at least one, every mine count
    between one and [width * height] and every outcome of the shuffle,
    [create_field] returns a grid of [height] rows of [width] tiles with
    exactly [mines] mines, in which every tile that is not a mine holds the
    decimal string of the number of mines among its neighbours inside the
    grid. *)
Theorem create_field_correct shuffle (width height mines : Z) :
  (forall l, l ≡ₚ shuffle l) ->
  (1 <= width)%Z -> (1 <= height)%Z -> (1 <= mines <= width * height)%Z ->
  exists field visible,
    create_field shuffle width height mines = Ok (field, visible) /\
    length field = Z.to_nat height /\
    Forall (fun row => length row = Z.to_nat width) field /\
    Z.of_nat (mine_count field) = mines /\
    forall c t, cell field c = Some t -> t <> "x" ->
      t = str (mine_neighbours field c).
Proof.
  intros Hperm Hw Hh Hm.
  destruct (create_field_spec shuffle width height mines Hperm Hw Hh Hm)
    as (fld & E & Hrect & Hcount & Hcc).
  apply rectangular_rows in Hrect as [Hlen Hrows].
  exists fld, (replicate (Z.to_nat height) (replicate (Z.to_nat width) " ")).
  split; [done|]. split; [done|]. split; [done|]. split; [lia|].
  exact Hcc.
Qed.

Lemma create_field_correct_witness :
  exists field visible,
    create_field mines_last 3 3 1 = Ok (field, visible) /\
    length field = Z.to_nat 3 /\
    Forall (fun row => length row = Z.to_nat 3) field /\
    Z.of_nat (mine_count field) = 1%Z /\
    forall c t, cell field c = Some t -> t <> "x" ->
      t = str (mine_neighbours field c).
Proof.
  apply (create_field_correct mines_last 3 3 1);
    [apply mines_last_perm|lia|lia|lia].
Defined.

(** C2. A left click on a hidden ["0"] tile of a running session reveals
    every tile of the connected region of ["0"] tiles around it and every
    tile bordering that region, none of which is a mine; a tile outside
    that area keeps what it showed, except that the mines are flagged when
    the click wins the game. *)
Theorem cascade_reveals_region st x y :
  reachable st -> running st = true ->
  cell (visible st) (tile_at x y) = Some " " ->
  cell (field st) (tile_at x y) = Some "0" ->
  exists st', handle_mouse x y MOUSE_LEFT st = Ok st' /\
    (forall c t, cascade_area (field st) (tile_at x y) c ->
       cell (field st) c = Some t ->
       t <> "x" /\ cell (visible st') c = Some t) /\
    (forall c v, ~ cascade_area (field st) (tile_at x y) c ->
       cell (visible st) c = Some v ->
       cell (visible st') c = Some v \/
       (cell (field st) c = Some "x" /\ cell (visible st') c = Some "f")).
Proof.
  intros Hreach Hr Hv Hseed. pose proof (reachable_Inv st Hreach) as HI.
  destruct (click_spec st x y "0" HI Hr Hseed Hv)
    as (st' & E & Hf & [(Hx & _)|(Hne & l & HC)]); [done|].
  exists st'. split; [done|]. split.
  - intros c t Harea Ht.
    apply (reached_area _ _ _ Hseed) in Harea.
    destruct (reached_clear _ _ "0" c (inv_counts st HI) Hseed Hne Harea)
      as (t' & Ht' & Hnx).
    rewrite Ht in Ht'. injection Ht' as <-. split; [done|].
    apply (cascade_end_reached (field st) (visible st) (tile_at x y) "0" l st');
      try done; [apply HI|apply HI|apply HI].
  - intros c v Harea Hc.
    assert (in_grid (field st) c) as [t Ht].
    { apply (in_grid_same_shape (visible st)); [apply HI|now exists v]. }
    assert (~ reached (field st) (tile_at x y) c) as Hnr.
    { intros H. now apply (reached_area _ _ _ Hseed) in H. }
    destruct (cascade_end_others _ _ _ _ _ HC c t v Hnr Ht Hc)
      as [H|(-> & _ & H)]; [now left|now right].
Qed.

Lemma cascade_reveals_region_witness :
  exists st', handle_mouse 0 0 MOUSE_LEFT corner_mine = Ok st' /\
    (forall c t, cascade_area (field corner_mine) (tile_at 0 0) c ->
       cell (field corner_mine) c = Some t ->
       t <> "x" /\ cell (visible st') c = Some t) /\
    (forall c v, ~ cascade_area (field corner_mine) (tile_at 0 0) c ->
       cell (visible corner_mine) c = Some v ->
       cell (visible st') c = Some v \/
       (cell (field corner_mine) c = Some "x" /\
        cell (visible st') c = Some "f")).
Proof.
  apply (cascade_reveals_region corner_mine 0 0);
    [apply corner_mine_reachable|reflexivity|reflexivity|reflexivity].
Defined.

(** C3, as the code has it. Every left click on a hidden tile of a running
    session returns, and the session is won after the click if and only if
    the clicked tile is not a mine and, after the reveals of that click,
    every tile that is not a mine is revealed. *)
Theorem won_iff_clear_click st x y :
  reachable st -> running st = true ->
  cell (visible st) (tile_at x y) = Some " " ->
  exists st', handle_mouse x y MOUSE_LEFT st = Ok st' /\
    (won st' = true <->
     cell (field st) (tile_at x y) <> Some "x" /\ all_clear st').
Proof.
  intros Hreach Hr Hv. pose proof (reachable_Inv st Hreach) as HI.
  assert (in_grid (field st) (tile_at x y)) as [t Ht].
  { apply (in_grid_same_shape (visible st)); [apply HI|now exists " "]. }
  destruct (click_spec st x y t HI Hr Ht Hv)
    as (st' & E & Hf & [(-> & _ & Hw & _)|(Hne & l & HC)]);
    exists st'; (split; [done|]).
  - rewrite Hw. split; [done|]. now intros [H _].
  - rewrite (cascade_end_won _ _ _ _ _ HC). rewrite Ht.
    split; [|tauto]. intros H. split; [congruence|done].
Qed.

Lemma won_iff_clear_click_witness :
  exists st', handle_mouse 0 0 MOUSE_LEFT corner_mine = Ok st' /\
    (won st' = true <->
     cell (field corner_mine) (tile_at 0 0) <> Some "x" /\ all_clear st').
Proof.
  apply (won_iff_clear_click corner_mine 0 0);
    [apply corner_mine_reachable|reflexivity|reflexivity].
Defined.

(** C3, as stated, fails on the 1 x 1 field whose only tile is a mine: the
    click loses the game although no tile that is not a mine is left
    unrevealed. *)
Lemma won_iff_all_clear_counterexample :
  ~ (forall st x y,
       reachable st -> running st = true ->
       cell (visible st) (tile_at x y) = Some " " ->
       exists st', handle_mouse x y MOUSE_LEFT st = Ok st' /\
         (won st' = true <-> all_clear st')).
Proof.
  intros H.
  destruct (H lone_mine 0%Z 0%Z lone_mine_reachable eq_refl eq_refl)
    as (st' & E & _ & Hwon).
  assert (handle_mouse 0 0 MOUSE_LEFT lone_mine =
    Ok {| running := false; won := false; field := [["x"]];
          visible := [["x"]]; clicks := 1; mines := 1;
          saved := [{| rec_dimensions := (1%nat, 1%nat); rec_mines := 1;
                       rec_result := (false, 1%nat); rec_clicks := 1 |}] |})
    as E' by (vm_compute; reflexivity).
  rewrite E' in E. injection E as <-.
  assert (true = false) as Habs; [|discriminate Habs].
  symmetry. apply Hwon. apply all_clear_count; reflexivity.
Qed.

(** C4. A mine hit takes precedence over a win. The cascade of a left
    click on a hidden tile of a running session goes through the tiles of
    its work list and reveals each of them. When one of them is a mine,
    the session has ended as a loss once the work list is exhausted: it is
    no longer running and [won] is false. This holds whether or not every
    tile that is not a mine is revealed by then; that case, in which the
    test for a win would succeed as well, is the one of the field whose
    only tile is a mine. *)
Theorem mine_hit_takes_precedence st x y :
  reachable st -> running st = true ->
  cell (visible st) (tile_at x y) = Some " " ->
  exists l st',
    explore_loop (explore_fuel (add_click st)) [tile_at x y] 0 (add_click st)
      = Ok (l, st') /\
    handle_mouse x y MOUSE_LEFT st = Ok st' /\
    ((exists c, c ∈ l /\ cell (field st) c = Some "x") ->
     running st' = false /\ won st' = false /\
     cell (visible st') (tile_at x y) = Some "x").
Proof.
  intros Hreach Hr Hv. pose proof (reachable_Inv st Hreach) as HI.
  assert (in_grid (field st) (tile_at x y)) as [t Ht].
  { apply (in_grid_same_shape (visible st)); [apply HI|now exists " "]. }
  destruct (click_trace st x y t HI Hr Ht Hv)
    as (l & st' & El & E & [(-> & -> & Hr' & Hw')|(Hne & HC)]).
  - exists [tile_at x y], st'. split; [done|]. split; [done|]. intros _.
    split; [done|]. split; [done|].
    destruct (click_spec st x y "x" HI Hr Ht Hv)
      as (st1 & E1 & _ & [(_ & _ & _ & _ & Hvis)|[? _]]); [|done].
    rewrite E in E1. injection E1 as <-.
    rewrite (Hvis _ _ _ Ht Hv). now rewrite decide_True.
  - exists l, st'. split; [done|]. split; [done|].
    intros (c & Hc & Hmine). exfalso.
    apply (casc_reached _ _ _ _ _ _ HC) in Hc.
    destruct (reached_clear (field st) (tile_at x y) t c
                (inv_counts st HI) Ht Hne Hc) as (t' & Ht' & Hclear).
    congruence.
Qed.

Lemma mine_hit_takes_precedence_witness :
  exists l st',
    explore_loop (explore_fuel (add_click lone_mine)) [tile_at 0 0] 0
      (add_click lone_mine) = Ok (l, st') /\
    handle_mouse 0 0 MOUSE_LEFT lone_mine = Ok st' /\
    (exists c, c ∈ l /\ cell (field lone_mine) c = Some "x") /\
    all_clear st' /\
    running st' = false /\ won st' = false /\
    cell (visible st') (tile_at 0 0) = Some "x".
Proof.
  destruct (mine_hit_takes_precedence lone_mine 0 0
              lone_mine_reachable eq_refl eq_refl) as (l & st' & El & E & H).
  exists l, st'. split; [exact El|]. split; [exact E|].
  assert (explore_loop (explore_fuel (add_click lone_mine)) [tile_at 0 0] 0
            (add_click lone_mine) =
    Ok ([(0, 0)%Z],
        {| running := false; won := false; field := [["x"]];
           visible := [["x"]]; clicks := 1; mines := 1;
           saved := [{| rec_dimensions := (1%nat, 1%nat); rec_mines := 1;
                        rec_result := (false, 1%nat); rec_clicks := 1 |}] |}))
    as El' by (vm_compute; reflexivity).
  rewrite El' in El. injection El as <- <-.
  assert (exists c : Z * Z, c ∈ [(0, 0)%Z] /\
            cell (field lone_mine) c = Some "x") as Hmine.
  { exists (0, 0)%Z. split; [apply list_elem_of_here|reflexivity]. }
  assert (all_clear
    {| running := false; won := false; field := [["x"]];
       visible := [["x"]]; clicks := 1; mines := 1;
       saved := [{| rec_dimensions := (1%nat, 1%nat); rec_mines := 1;
                    rec_result := (false, 1%nat); rec_clicks := 1 |}] |})
    as Hclear by (apply all_clear_count; reflexivity).
  split; [exact Hmine|]. split; [exact Hclear|]. exact (H Hmine).
Defined.

(** C5. Every mouse event of a running session returns, and when it wins
    the session every mine is flagged afterwards, so a mine that was
    flagged before still is, and every tile that is not a mine is
    revealed: none is hidden. *)
Theorem win_flags_all_mines st x y b :
  reachable st -> running st = true ->
  exists st', handle_mouse x y b st = Ok st' /\
    (won st' = true ->
     (forall c, cell (field st') c = Some "x" ->
        cell (visible st') c = Some "f") /\
     (forall c, cell (field st) c = Some "x" ->
        cell (visible st) c = Some "f" -> cell (visible st') c = Some "f") /\
     (forall c t v, cell (field st') c = Some t -> t <> "x" ->
        cell (visible st') c = Some v -> v <> " " /\ v <> "f")).
Proof.
  intros Hreach _.
  destruct (handle_mouse_step st x y b (reachable_Inv st Hreach))
    as (st' & E & HI & Hf & _).
  exists st'. split; [done|]. intros Hw.
  destruct (inv_won st' HI Hw) as [Hall Hm].
  split; [exact Hm|]. split; [|exact Hall].
  intros c Hc _. apply Hm. now rewrite Hf.
Qed.

Lemma win_flags_all_mines_witness :
  exists st', handle_mouse 0 0 MOUSE_LEFT corner_mine_flagged = Ok st' /\
    won st' = true /\
    cell (visible corner_mine_flagged) (2, 2)%Z = Some "f" /\
    cell (visible st') (2, 2)%Z = Some "f".
Proof.
  destruct (win_flags_all_mines corner_mine_flagged 0 0 MOUSE_LEFT
              corner_mine_flagged_reachable eq_refl) as (st' & E & H).
  exists st'. split; [exact E|].
  assert (handle_mouse 0 0 MOUSE_LEFT corner_mine_flagged =
    Ok {| running := false; won := true; field := field corner_mine;
          visible := [["0";"0";"0"];["0";"1";"1"];["0";"1";"f"]];
          clicks := 1; mines := 1;
          saved := [{| rec_dimensions := (3%nat, 3%nat); rec_mines := 1;
                       rec_result := (true, 0%nat); rec_clicks := 1 |}] |})
    as E' by (vm_compute; reflexivity).
  rewrite E' in E. injection E as <-.
  split; [reflexivity|]. split; [reflexivity|].
  destruct (H eq_refl) as (_ & Hkeep & _).
  apply Hkeep; reflexivity.
Defined.

(** C6, as the code has it. [create_field] checks nothing: it raises only
    when the width is zero, the [ValueError] of [range], and returns a
    field for every other width. The range of the configuration is the
    business of [init_game], which calls [create_field] only with a width
    and a height of at least one and a mine count between one and
    [width * height]. *)
Theorem configuration_checked_by_init_game shuffle inputs width height mines :
  init_game_config inputs = Some (width, height, mines) ->
  ((1 <= width)%Z /\ (1 <= height)%Z /\ (1 <= mines <= width * height)%Z) /\
  init_game shuffle inputs =
    Some ('(field, visible) ← create_field shuffle width height mines;
          Ok {| running := true; won := false; field := field;
                visible := visible; clicks := 0; mines := mines;
                saved := [] |}) /\
  forall w h m,
    match create_field shuffle w h m with
    | Ok _ => w <> 0%Z
    | Raise e => w = 0%Z /\ e = ValueError
    | OutOfFuel => False
    end.
Proof.
  intros Hcfg. split; [now apply (init_game_config_spec inputs)|].
  split; [unfold init_game; now rewrite Hcfg|].
  intros w h m. apply create_field_raises.
Qed.

Lemma configuration_checked_by_init_game_witness :
  ((1 <= 5)%Z /\ (1 <= 1)%Z /\ (1 <= 5 <= 5 * 1)%Z) /\
  init_game mines_last [Some 5; None; Some 0; Some 1; Some 6; Some 5]%Z =
    Some ('(field, visible) ← create_field mines_last 5 1 5;
          Ok {| running := true; won := false; field := field;
                visible := visible; clicks := 0; mines := 5;
                saved := [] |}) /\
  forall w h m,
    match create_field mines_last w h m with
    | Ok _ => w <> 0%Z
    | Raise e => w = 0%Z /\ e = ValueError
    | OutOfFuel => False
    end.
Proof.
  apply (configuration_checked_by_init_game mines_last
           [Some 5; None; Some 0; Some 1; Some 6; Some 5]%Z 5 1 5).
  reflexivity.
Defined.

(** C6, as stated, fails: for a width of 5, a height of 1 and 6 mines
    [create_field] does not fail but returns a field of two rows of
    mines. *)
Lemma create_field_5_1_6_returns :
  create_field (fun l => l) 5 1 6 =
  Ok ([["x";"x";"x";"x";"x"];["x"]], [[" ";" ";" ";" ";" "]]).
Proof. reflexivity. Qed.

(** C7. From every state of a session every sequence of mouse events
    returns, and a tile that was revealed shows the same symbol
    afterwards: no flag toggle, click, cascade or end of the game hides or
    flags it again. *)
Theorem revealed_is_terminal evs : forall st c v,
  reachable st ->
  cell (visible st) c = Some v -> Revealed v ->
  exists st', handle_events evs st = Ok st' /\
              cell (visible st') c = Some v.
Proof.
  induction evs as [|[[x y] b] evs IH]; intros st c v Hreach Hc Hv; simpl.
  - now exists st.
  - destruct (handle_mouse_step st x y b (reachable_Inv st Hreach))
      as (st1 & E & _ & _ & Hkeep).
    rewrite E. simpl. apply IH; auto.
    now apply (reach_mouse st x y b).
Qed.

Lemma revealed_is_terminal_witness :
  exists st',
    handle_events [(0, 80, MOUSE_RIGHT); (0, 80, MOUSE_RIGHT);
                   (0, 80, MOUSE_LEFT)]%Z two_mines_opened = Ok st' /\
    cell (visible st') (1, 1)%Z = Some "2".
Proof.
  apply (revealed_is_terminal
           [(0, 80, MOUSE_RIGHT); (0, 80, MOUSE_RIGHT); (0, 80, MOUSE_LEFT)]%Z
           two_mines_opened (1, 1)%Z "2").
  - apply two_mines_opened_reachable.
  - reflexivity.
  - split; discriminate.
Defined.

(** C8, as the code has it. Every left click on a hidden tile of a running
    session returns, and it reveals a flagged tile exactly when the
    cascade reaches it, that is when it lies next to a ["0"] tile that the
    cascade reveals; such a tile is never a mine. Every other flagged tile
    keeps its flag. *)
Theorem cascade_reveals_reached_flags st x y :
  reachable st -> running st = true ->
  cell (visible st) (tile_at x y) = Some " " ->
  exists st', handle_mouse x y MOUSE_LEFT st = Ok st' /\
    forall c t,
      cell (visible st) c = Some "f" ->
      cell (field st) c = Some t ->
      (reached (field st) (tile_at x y) c ->
         t <> "x" /\ cell (visible st') c = Some t) /\
      (~ reached (field st) (tile_at x y) c ->
         cell (visible st') c = Some "f").
Proof.
  intros Hreach Hr Hv. pose proof (reachable_Inv st Hreach) as HI.
  assert (in_grid (field st) (tile_at x y)) as [ts Hts].
  { apply (in_grid_same_shape (visible st)); [apply HI|now exists " "]. }
  destruct (click_spec st x y ts HI Hr Hts Hv)
    as (st' & E & Hf & [(-> & _ & _ & _ & Hv')|(Hne & l & HC)]);
    exists st'; (split; [done|]); intros c t Hc Ht.
  - assert (c <> tile_at x y) as Hcs by (intros ->; congruence).
    split.
    + intros H. now apply (reached_from_mine _ _ _ Hts) in H.
    + intros _. rewrite (Hv' c t "f" Ht Hc), decide_False by done.
      unfold show_upd. now rewrite andb_false_r.
  - split.
    + intros H.
      destruct (reached_clear _ _ ts c (inv_counts st HI) Hts Hne H)
        as (t' & Ht' & Hnx).
      rewrite Ht in Ht'. injection Ht' as <-. split; [done|].
      apply (cascade_end_reached (field st) (visible st) (tile_at x y) ts l st');
        try done; [apply HI|apply HI|apply HI].
    + intros H.
      destruct (cascade_end_others _ _ _ _ _ HC c t "f" H Ht Hc)
        as [H'|(_ & _ & H')]; done.
Qed.

Lemma cascade_reveals_reached_flags_witness :
  exists st', handle_mouse 0 0 MOUSE_LEFT centre_flagged = Ok st' /\
    forall c t,
      cell (visible centre_flagged) c = Some "f" ->
      cell (field centre_flagged) c = Some t ->
      (reached (field centre_flagged) (tile_at 0 0) c ->
         t <> "x" /\ cell (visible st') c = Some t) /\
      (~ reached (field centre_flagged) (tile_at 0 0) c ->
         cell (visible st') c = Some "f").
Proof.
  apply (cascade_reveals_reached_flags centre_flagged 0 0);
    [apply centre_flagged_reachable|reflexivity|reflexivity].
Defined.

(** C8, as stated, fails: with a flag on the middle tile of the 3 x 3
    field whose mine is in a corner, a left click on the opposite corner
    cascades over the flagged tile and reveals its ["1"]. *)
Lemma flagged_tile_revealed_counterexample :
  ~ (forall st x y c,
       reachable st -> running st = true ->
       cell (visible st) (tile_at x y) = Some " " ->
       cell (visible st) c = Some "f" ->
       exists st', handle_mouse x y MOUSE_LEFT st = Ok st' /\
                   cell (visible st') c = Some "f").
Proof.
  intros H.
  destruct (H centre_flagged 0%Z 0%Z (1, 1)%Z
              centre_flagged_reachable eq_refl eq_refl eq_refl)
    as (st' & E & Hf).
  assert (handle_mouse 0 0 MOUSE_LEFT centre_flagged =
    Ok {| running := false; won := true; field := field corner_mine;
          visible := [["0";"0";"0"];["0";"1";"1"];["0";"1";"f"]];
          clicks := 1; mines := 1;
          saved := [{| rec_dimensions := (3%nat, 3%nat); rec_mines := 1;
                       rec_result := (true, 0%nat); rec_clicks := 1 |}] |})
    as E' by (vm_compute; reflexivity).
  rewrite E' in E. injection E as <-.
  vm_compute in Hf. discriminate Hf.
Qed.

(** C9. On a rectangular field of [width * height] tiles whose visibility
    grid has the same shape, the cascade started at a coordinate of the
    grid ends: the loop returns a work list and a state after at most
    [width * height + 1] evaluations of its test, for that and any larger
    amount of fuel, and the work list holds at most [width * height]
    coordinates, all distinct and all inside the grid. *)
Theorem explore_tile_terminates (width height : nat) (st : State) (x y : Z) :
  rectangular width height (field st) ->
  shape (visible st) = shape (field st) ->
  in_grid (field st) (x, y) ->
  exists to_explore st',
    (forall fuel, (width * height < fuel)%nat ->
       explore_loop fuel [(x, y)] 0 st = Ok (to_explore, st')) /\
    explore_tile x y st = Ok st' /\
    NoDup to_explore /\
    (forall c, c ∈ to_explore -> in_grid (field st) c) /\
    (length to_explore <= width * height)%nat.
Proof.
  intros Hrect Hshape Hseed.
  assert (exists row0, field st !! 0%nat = Some row0) as [row0 H0].
  { destruct Hseed as [t (_ & _ & row & Hr & _)%cell_Some].
    apply lookup_lt_Some in Hr. apply lookup_lt_is_Some_2. lia. }
  pose proof (length_concat_rectangular _ _ _ Hrect) as Hsize.
  destruct (explore_loop_inv
    (fun l i s => field s = field st /\ shape (visible s) = shape (field st) /\
       NoDup l /\ (forall c, c ∈ l -> in_grid (field st) c) /\
       (i <= length l)%nat)
    (width * height)%nat
    (explore_terminates_inv (field st) row0 H0)) with
    (fuel := S (width * height)) (l := [(x, y)]) (i := 0%nat) (st := st)
    as (l & st' & E & _ & _ & Hnd & Hin & _).
  - intros l i s (Hf & _ & Hnd & Hin & Hi). split; [done|].
    rewrite <- Hsize. now apply work_list_bound.
  - split; [done|]. split; [done|]. split; [apply NoDup_singleton|].
    split; [|simpl; lia]. now intros c ->%list_elem_of_singleton.
  - lia.
  - exists l, st'. split; [|split; [|split; [done|split; [done|]]]].
    + intros fuel Hfuel. apply (explore_loop_more_fuel _ _ _ _ _ _ E). lia.
    + unfold explore_tile, explore_fuel. rewrite Hsize.
      rewrite (explore_loop_more_fuel _ (S (S (width * height))) _ _ _ _ E) by lia.
      done.
    + rewrite <- Hsize. now apply work_list_bound.
Qed.

Lemma explore_tile_terminates_witness :
  exists to_explore st',
    (forall fuel, (3 * 3 < fuel)%nat ->
       explore_loop fuel [(0, 0)%Z] 0 corner_mine = Ok (to_explore, st')) /\
    explore_tile 0 0 corner_mine = Ok st' /\
    NoDup to_explore /\
    (forall c, c ∈ to_explore -> in_grid (field corner_mine) c) /\
    (length to_explore <= 3 * 3)%nat.
Proof.
  apply (explore_tile_terminates 3 3 corner_mine 0 0);
    [reflexivity|reflexivity|exists "0"; reflexivity].
Defined.

(** C10. In every state of a session the visibility grid has the shape of
    the field, and each of its tiles is hidden, flagged, or shows exactly
    the symbol of the field at the same coordinates. *)
Theorem visible_matches_field st :
  reachable st ->
  shape (visible st) = shape (field st) /\
  forall c v, cell (visible st) c = Some v ->
    v = " " \/ v = "f" \/ cell (field st) c = Some v.
Proof.
  intros Hreach. pose proof (reachable_Inv st Hreach) as HI.
  split; [apply HI|]. intros c v Hv.
  assert (in_grid (field st) c) as [t Ht].
  { apply (in_grid_same_shape (visible st)); [apply HI|now exists v]. }
  destruct (inv_visible st HI c t v Ht Hv) as [?|[?|?]]; auto.
  right; right. congruence.
Qed.

Lemma visible_matches_field_witness :
  shape (visible two_mines_opened) = shape (field two_mines_opened) /\
  forall c v, cell (visible two_mines_opened) c = Some v ->
    v = " " \/ v = "f" \/ cell (field two_mines_opened) c = Some v.
Proof.
  apply (visible_matches_field two_mines_opened).
  apply two_mines_opened_reachable.
Defined.

(** * Further properties of the session *)



(** X2. In a running session an event leaves the state exactly as it was
    if and only if it is a middle click, falls outside the grid, is a left
    click on a tile that is not hidden (a flag protects its tile), or is
    a right click on a revealed tile. *)
Theorem ignored_events st x y b :
  reachable st -> running st = true ->
  handle_mouse x y b st = Ok st <->
  (b = MOUSE_MIDDLE \/ ~ in_grid (field st) (tile_at x y) \/
   (b = MOUSE_LEFT /\ cell (visible st) (tile_at x y) <> Some " ") \/
   (b = MOUSE_RIGHT /\ exists v, cell (visible st) (tile_at x y) = Some v /\
                                 Revealed v)).
Proof.
  intros Hreach Hr. pose proof (reachable_Inv st Hreach) as HI.
  assert (in_grid (field st) (tile_at x y) <->
          in_grid (visible st) (tile_at x y)) as Hgrid.
  { split; apply in_grid_same_shape;
      [symmetry; apply HI|apply HI]. }
  destruct (cell (visible st) (tile_at x y)) as [v|] eqn:Hv.
  - assert (in_grid (field st) (tile_at x y)) as Hin.
    { apply Hgrid. now exists v. }
    destruct b.
    + destruct (decide (v = " ")) as [->|Hne].
      * destruct Hin as [t Ht].
        destruct (Inv_row0 st HI) as (w & h & row0 & _ & _ & _ & H0).
        destruct (click_records st x y t row0 HI Hr H0 Ht Hv)
          as (st' & -> & Hc & _).
        split.
        -- intros [= ->]. lia.
        -- intros [?|[Hout|[[_ ?]|[? _]]]]; try done.
           destruct Hout. now exists t.
      * rewrite handle_mouse_quiet; try done.
        -- split; [|done]. intros _. right; right; left.
           split; [done|congruence].
        -- intros _. congruence.
    + rewrite handle_mouse_quiet; try done. split; [auto|done].
    + rewrite handle_mouse_quiet, Hv; try done. split.
      * intros [= E]. right; right; right. split; [done|].
        exists v. split; [done|].
        assert (cell (visible st) (tile_at x y) = Some (toggled v)) as Hv'.
        { rewrite <- E at 1. simpl. rewrite cell_grid_put by now exists v.
          now rewrite decide_True. }
        rewrite Hv in Hv'. injection Hv' as Hv'. unfold toggled in Hv'.
        split; intros ->; simpl in Hv'; done.
      * intros [?|[?|[[? _]|(_ & v' & [= <-] & H1 & H2)]]]; try done.
        unfold toggled.
        destruct (String.eqb_spec v " "); [done|].
        destruct (String.eqb_spec v "f"); [done|].
        rewrite grid_put_same by done. now rewrite set_visible_same.
  - assert (~ in_grid (field st) (tile_at x y)) as Hout.
    { intros [v Hv']%Hgrid. congruence. }
    rewrite handle_mouse_quiet, Hv; try done.
    + split; [auto|]. now destruct b.
    + intros _. congruence.
Qed.

Lemma ignored_events_witness :
  handle_mouse 80 80 MOUSE_LEFT corner_mine_flagged = Ok corner_mine_flagged.
Proof.
  apply (ignored_events corner_mine_flagged 80 80 MOUSE_LEFT).
  - apply corner_mine_flagged_reachable.
  - reflexivity.
  - right; right; left. split; [reflexivity|]. discriminate.
Defined.

(** X3. A right click inside the grid of a running session changes the
    tile it lands on and nothing else: a hidden tile gets a flag, a flag
    is taken off, a revealed tile stays. It ends no game, counts no click
    and saves no record, and a second right click at the same place gives
    back the very state before the first. *)
Theorem right_click_toggles st x y v :
  reachable st -> running st = true ->
  cell (visible st) (tile_at x y) = Some v ->
  exists st', handle_mouse x y MOUSE_RIGHT st = Ok st' /\
    cell (visible st') (tile_at x y) = Some (toggled v) /\
    (forall c, c <> tile_at x y ->
       cell (visible st') c = cell (visible st) c) /\
    running st' = true /\ won st' = won st /\ clicks st' = clicks st /\
    saved st' = saved st /\
    handle_mouse x y MOUSE_RIGHT st' = Ok st.
Proof.
  intros Hreach Hr Hv. pose proof (reachable_Inv st Hreach) as HI.
  assert (handle_mouse x y MOUSE_RIGHT st =
    Ok (set_visible st (grid_put (visible st) (tile_at x y) (toggled v)))) as E.
  { rewrite handle_mouse_quiet, Hv; done. }
  set (st' := set_visible st (grid_put (visible st) (tile_at x y) (toggled v)))
    in *.
  assert (in_grid (visible st) (tile_at x y)) as Hin by now exists v.
  assert (cell (visible st') (tile_at x y) = Some (toggled v)) as Hv'.
  { simpl. rewrite cell_grid_put by done. now rewrite decide_True. }
  exists st'. split; [done|]. split; [done|]. split.
  { intros c Hc. simpl. rewrite cell_grid_put by done.
    now rewrite decide_False. }
  repeat (split; [done|]).
  rewrite handle_mouse_quiet, Hv'; try done.
  - simpl. rewrite grid_put_twice, toggled_twice by done.
    rewrite grid_put_same by done. now destruct st.
  - apply (reachable_Inv st'). now apply (reach_mouse st x y MOUSE_RIGHT).
Qed.

Lemma right_click_toggles_witness :
  exists st', handle_mouse 80 80 MOUSE_RIGHT corner_mine = Ok st' /\
    cell (visible st') (2, 2)%Z = Some "f" /\
    handle_mouse 80 80 MOUSE_RIGHT st' = Ok corner_mine.
Proof.
  destruct (right_click_toggles corner_mine 80 80 " "
              corner_mine_reachable eq_refl eq_refl)
    as (st' & E & Hv & _ & _ & _ & _ & _ & Hback).
  exists st'. split; [exact E|]. split; [exact Hv|exact Hback].
Defined.

(** X4. The click counter counts exactly the left clicks that land on a
    hidden tile of a running session: every such click adds one, whatever
    it reveals, and no other event changes the counter. *)
Theorem clicks_counts_opening_clicks st x y b :
  reachable st ->
  exists st', handle_mouse x y b st = Ok st' /\
    clicks st' =
    match b with
    | MOUSE_LEFT =>
        if running st &&
           bool_decide (cell (visible st) (tile_at x y) = Some " ")
        then S (clicks st) else clicks st
    | _ => clicks st
    end.
Proof.
  intros Hreach. pose proof (reachable_Inv st Hreach) as HI.
  destruct (running st) eqn:Hr.
  2:{ exists st. unfold handle_mouse. rewrite Hr. split; [done|].
      now destruct b. }
  destruct b; simpl.
  - case_bool_decide as Hv.
    + assert (in_grid (field st) (tile_at x y)) as [t Ht].
      { apply (in_grid_same_shape (visible st)); [apply HI|now exists " "]. }
      destruct (Inv_row0 st HI) as (w & h & row0 & _ & _ & _ & H0).
      destruct (click_records st x y t row0 HI Hr H0 Ht Hv)
        as (st' & E & Hc & _).
      now exists st'.
    + rewrite handle_mouse_quiet by done. now eexists.
  - rewrite handle_mouse_quiet by done. now eexists.
  - rewrite handle_mouse_quiet by done. eexists. split; [done|].
    now destruct (cell (visible st) (tile_at x y)).
Qed.

Lemma clicks_counts_opening_clicks_witness :
  exists st', handle_mouse 0 0 MOUSE_LEFT edge_opened = Ok st' /\
    clicks st' = 2%nat.
Proof.
  exact (clicks_counts_opening_clicks edge_opened 0 0 MOUSE_LEFT
           edge_opened_reachable).
Defined.

(** X5. A left click on a hidden mine of a running session ends it as a
    loss, and afterwards every mine that carries no flag is shown, the
    clicked one among them; a flagged mine keeps its flag and every tile
    that is not a mine shows what it showed before. *)
Theorem mine_click_shows_mines st x y :
  reachable st -> running st = true ->
  cell (field st) (tile_at x y) = Some "x" ->
  cell (visible st) (tile_at x y) = Some " " ->
  exists st', handle_mouse x y MOUSE_LEFT st = Ok st' /\
    running st' = false /\ won st' = false /\
    cell (visible st') (tile_at x y) = Some "x" /\
    forall c t v, cell (field st) c = Some t ->
      cell (visible st) c = Some v ->
      cell (visible st') c =
      Some (if String.eqb t "x" && negb (String.eqb v "f") then "x" else v).
Proof.
  intros Hreach Hr Ht Hv.
  destruct (click_spec st x y "x" (reachable_Inv st Hreach) Hr Ht Hv)
    as (st' & E & _ & [(_ & Hr' & Hw' & _ & Hvis)|[? _]]); [|done].
  exists st'. repeat (split; [done|]). split.
  - rewrite (Hvis _ _ _ Ht Hv). now rewrite decide_True.
  - intros c t v Hc Hcv. rewrite (Hvis c t v Hc Hcv).
    case_decide as Heq; [|done]. subst c.
    rewrite Ht in Hc. rewrite Hv in Hcv. now injection Hc as <-; injection Hcv as <-.
Qed.

Lemma mine_click_shows_mines_witness :
  exists st', handle_mouse 0 0 MOUSE_LEFT lone_mine = Ok st' /\
    running st' = false /\ won st' = false /\
    cell (visible st') (0, 0)%Z = Some "x".
Proof.
  destruct (mine_click_shows_mines lone_mine 0 0 lone_mine_reachable
              eq_refl eq_refl eq_refl) as (st' & E & Hr & Hw & Hv & _).
  exists st'. repeat split; assumption.
Defined.

(** X6. A mouse event of a running session ends it as a loss if and only
    if it is a left click on a hidden tile that is a mine. *)
Theorem lost_iff_mine_clicked st x y b :
  reachable st -> running st = true ->
  exists st', handle_mouse x y b st = Ok st' /\
    (running st' = false /\ won st' = false <->
     b = MOUSE_LEFT /\ cell (visible st) (tile_at x y) = Some " " /\
     cell (field st) (tile_at x y) = Some "x").
Proof.
  intros Hreach Hr. pose proof (reachable_Inv st Hreach) as HI.
  destruct (decide (b = MOUSE_LEFT /\
                    cell (visible st) (tile_at x y) = Some " "))
    as [[-> Hv]|Hq].
  - assert (in_grid (field st) (tile_at x y)) as [t Ht].
    { apply (in_grid_same_shape (visible st)); [apply HI|now exists " "]. }
    destruct (click_spec st x y t HI Hr Ht Hv)
      as (st' & E & _ & [(-> & Hr' & Hw' & _)|(Hne & l & HC)]).
    + exists st'. split; [done|]. done.
    + exists st'. split; [done|]. split.
      * intros [Hr' Hw'].
        pose proof (cascade_end_status _ _ _ _ _ HC) as Hst.
        rewrite Hr', Hw' in Hst. done.
      * intros (_ & _ & Hx). congruence.
  - rewrite handle_mouse_quiet; try done.
    + eexists. split; [done|]. split.
      * intros [Hr' _]. destruct b; try (simpl in Hr'; congruence).
        destruct (cell (visible st) (tile_at x y)); simpl in Hr'; congruence.
      * intros (-> & Hv & _). destruct Hq. done.
    + intros -> Hv. destruct Hq. done.
Qed.

Lemma lost_iff_mine_clicked_witness :
  exists st', handle_mouse 0 0 MOUSE_LEFT lone_mine = Ok st' /\
    (running st' = false /\ won st' = false <->
     MOUSE_LEFT = MOUSE_LEFT /\
     cell (visible lone_mine) (tile_at 0 0) = Some " " /\
     cell (field lone_mine) (tile_at 0 0) = Some "x").
Proof.
  exact (lost_iff_mine_clicked lone_mine 0 0 MOUSE_LEFT
           lone_mine_reachable eq_refl).
Defined.

(** X7. A left click on a hidden tile that has mines around it, so that
    it is neither a mine nor a ["0"], reveals that tile and starts no
    cascade: every other tile shows what it showed before, unless the
    click wins the game, which only turns the mines into flags. *)
Theorem number_click_opens_one_tile st x y t :
  reachable st -> running st = true ->
  cell (field st) (tile_at x y) = Some t -> t <> "x" -> t <> "0" ->
  cell (visible st) (tile_at x y) = Some " " ->
  exists st', handle_mouse x y MOUSE_LEFT st = Ok st' /\
    cell (visible st') (tile_at x y) = Some t /\
    forall c v, c <> tile_at x y -> cell (visible st) c = Some v ->
      cell (visible st') c = Some v \/
      (won st' = true /\ cell (field st) c = Some "x" /\
       cell (visible st') c = Some "f").
Proof.
  intros Hreach Hr Ht Hx H0 Hv. pose proof (reachable_Inv st Hreach) as HI.
  destruct (click_spec st x y t HI Hr Ht Hv)
    as (st' & E & _ & [[-> _]|(_ & l & HC)]); [done|].
  exists st'. split; [done|]. split.
  - apply (cascade_end_reached (field st) (visible st) (tile_at x y) t l st');
      try done; try apply HI. constructor.
  - intros c v Hc Hcv.
    assert (in_grid (field st) c) as [t' Ht'].
    { apply (in_grid_same_shape (visible st)); [apply HI|now exists v]. }
    assert (~ reached (field st) (tile_at x y) c) as Hn.
    { intros Hreached. apply Hc.
      apply (reached_from_number (field st) (tile_at x y)); [congruence|done]. }
    destruct (cascade_end_others (field st) (visible st) (tile_at x y) l st'
                HC c t' v Hn Ht' Hcv) as [?|(-> & ? & ?)]; auto.
Qed.

Lemma number_click_opens_one_tile_witness :
  exists st', handle_mouse 40 80 MOUSE_LEFT corner_mine = Ok st' /\
    cell (visible st') (tile_at 40 80) = Some "1" /\
    (cell (visible st') (0, 0)%Z = Some " " \/
     (won st' = true /\ cell (field corner_mine) (0, 0)%Z = Some "x" /\
      cell (visible st') (0, 0)%Z = Some "f")).
Proof.
  assert ("1" <> "x") as Hx by discriminate.
  assert ("1" <> "0") as H0 by discriminate.
  destruct (number_click_opens_one_tile corner_mine 40 80 "1"
              corner_mine_reachable eq_refl eq_refl Hx H0 eq_refl)
    as (st' & E & Hv & H).
  exists st'. split; [exact E|]. split; [exact Hv|].
  apply (H (0, 0)%Z " "); [discriminate|reflexivity].
Defined.



(** X9. The mine counter of a session is the number of mines on its
    field, at every moment of the session, and it lies between one and
    the number of tiles. *)
Theorem mines_counter_is_mine_count st :
  reachable st ->
  Z.of_nat (mine_count (field st)) = mines st /\
  exists w, rectangular w (length (field st)) (field st) /\
    (1 <= mines st <= Z.of_nat w * Z.of_nat (length (field st)))%Z.
Proof.
  induction 1 as [shuffle inputs st Hperm Hinit|st x y b st' Hreach IH Hm].
  - now apply (mines_init shuffle inputs).
  - destruct (handle_mouse_step st x y b (reachable_Inv st Hreach))
      as (st1 & E & _ & Hf & _).
    rewrite E in Hm. injection Hm as ->.
    destruct (handle_mouse_counters st x y b st' E) as [Hmines _].
    now rewrite Hf, Hmines.
Qed.

Lemma mines_counter_is_mine_count_witness :
  Z.of_nat (mine_count (field twice_won)) = mines twice_won /\
  exists w, rectangular w (length (field twice_won)) (field twice_won) /\
    (1 <= mines twice_won <=
     Z.of_nat w * Z.of_nat (length (field twice_won)))%Z.
Proof. exact (mines_counter_is_mine_count twice_won twice_won_reachable). Defined.

(** X10. Drawing a session never fails, and these are its calls, in
    this order: the window is cleared, one sprite is prepared for each
    tile of the visibility grid, row by row, the sprites are drawn, and
    when the game is over the two texts follow. So there are exactly as
    many sprites as the field has tiles. The sprite of a tile is keyed by
    the symbol the tile shows, which is one of the twelve tile symbols,
    and stands at the pixel [(40 x, 40 y)]; a mouse event anywhere in the
    square of 40 by 40 pixels that starts there is mapped back to that
    very tile. The text [YOU WIN!] is drawn exactly when the session is
    won and [GAME OVER!] exactly when it is lost. *)
Theorem draw_shows_session st :
  reachable st ->
  exists calls, draw st = Ok calls /\
    calls =
      clear_window :: begin_sprite_draw ::
      concat (imap (fun y row => imap (fun x key =>
                prepare_sprite key (Z.of_nat x * 40) (Z.of_nat y * 40)) row)
              (visible st)) ++
      draw_sprites ::
      (if running st then []
       else [draw_text (if won st then "YOU WIN!" else "GAME OVER!");
             draw_text "(right click to close)"]) /\
    length (List.filter is_sprite calls) = length (concat (field st)) /\
    (forall key px py, prepare_sprite key px py ∈ calls <->
       exists x y : nat,
         cell (visible st) (Z.of_nat x, Z.of_nat y) = Some key /\
         px = (Z.of_nat x * 40)%Z /\ py = (Z.of_nat y * 40)%Z) /\
    (forall key px py, prepare_sprite key px py ∈ calls ->
       key ∈ tile_symbols /\
       forall dx dy, (0 <= dx < 40)%Z -> (0 <= dy < 40)%Z ->
         cell (visible st) (tile_at (px + dx) (py + dy)) = Some key) /\
    (draw_text "YOU WIN!" ∈ calls <-> won st = true) /\
    (draw_text "GAME OVER!" ∈ calls <-> running st = false /\ won st = false).
Proof.
  intros Hreach. pose proof (reachable_Inv st Hreach) as HI.
  pose proof (reachable_Ledger st Hreach) as HL.
  destruct (Inv_row0 st HI) as (w & h & row0 & _ & _ & _ & H0).
  unfold draw. rewrite for_tiles_append. simpl.
  set (sprites := concat (imap (fun y row => imap (fun x t =>
         prepare_sprite t (Z.of_nat x * 40) (Z.of_nat y * 40)) row)
         (visible st))).
  assert (forall key px py, prepare_sprite key px py ∈ sprites <->
    exists x y : nat,
      cell (visible st) (Z.of_nat x, Z.of_nat y) = Some key /\
      px = (Z.of_nat x * 40)%Z /\ py = (Z.of_nat y * 40)%Z) as Hsprites.
  { intros key px py. unfold sprites. rewrite elem_of_concat_imap. split.
    - intros (x & y & t & Hc & [= -> -> ->]). now exists x, y.
    - intros (x & y & Hc & -> & ->). now exists x, y, key. }
  assert (forall t, draw_text t ∉ sprites) as Htext.
  { intros t. unfold sprites. rewrite elem_of_concat_imap.
    intros (x & y & t' & _ & [=]). }
  set (ending := if negb (running st)
                 then [draw_text (if won st then "YOU WIN!" else "GAME OVER!");
                       draw_text "(right click to close)"]
                 else []).
  exists (clear_window :: begin_sprite_draw :: sprites ++
          draw_sprites :: ending).
  assert (forall key px py,
    prepare_sprite key px py ∈ clear_window :: begin_sprite_draw ::
      sprites ++ draw_sprites :: ending <->
    prepare_sprite key px py ∈ sprites) as Hin.
  { intros key px py. rewrite !elem_of_cons, elem_of_app, elem_of_cons.
    split; [|tauto]. intros [?|[?|[?|[?|He]]]]; try done.
    unfold ending in He. destruct (negb (running st)); [|inversion He].
    rewrite !elem_of_cons in He. destruct He as [?|[?|He]]; try done.
    inversion He. }
  assert (forall t, draw_text t ∈ clear_window :: begin_sprite_draw ::
      sprites ++ draw_sprites :: ending <-> draw_text t ∈ ending) as Hend.
  { intros t. rewrite !elem_of_cons, elem_of_app, elem_of_cons.
    split; [|tauto]. intros [?|[?|[?|[?|He]]]]; try done.
    now destruct (Htext t). }
  split.
  { unfold ending. destruct (running st); simpl.
    - done.
    - pose proof (py_getitem_of_nat _ 0%nat row0 H0) as E0.
      change (Z.of_nat 0) with 0%Z in E0.
      rewrite E0. simpl.
      now rewrite <- app_assoc. }
  split.
  { unfold ending. now destruct (running st). }
  split.
  { simpl. rewrite List.filter_app, length_app. unfold sprites.
    rewrite (sprites_count (fun y x t =>
      prepare_sprite t (Z.of_nat x * 40) (Z.of_nat y * 40))) by done.
    assert (List.filter is_sprite (draw_sprites :: ending) = []) as ->.
    { unfold ending. now destruct (negb (running st)). }
    simpl. rewrite Nat.add_0_r.
    apply length_concat_shape, (inv_shape st HI). }
  split; [intros; now rewrite Hin|]. split.
  { intros key px py (x & y & Hc & -> & ->)%Hin%Hsprites. split.
    - apply (visible_tile_symbol st _ _ HI Hc).
    - intros dx dy Hdx Hdy. unfold tile_at.
      replace ((Z.of_nat x * 40 + dx) / 40)%Z with (Z.of_nat x)
        by (apply (Z.div_unique _ _ _ dx); lia).
      replace ((Z.of_nat y * 40 + dy) / 40)%Z with (Z.of_nat y)
        by (apply (Z.div_unique _ _ _ dy); lia).
      done. }
  unfold Ledger in HL. rewrite !Hend. unfold ending.
  destruct (running st) eqn:Hr; simpl.
  - destruct HL as [_ ->]. split; (split; [intros He; inversion He|]).
    + done.
    + now intros [? _].
  - rewrite !elem_of_cons. destruct (won st); split; split; try done.
    + now left.
    + intros [?|[?|He]]; try done. inversion He.
    + now intros [_ ?].
    + intros [?|[?|He]]; try done. inversion He.
    + now left.
Qed.

Lemma draw_shows_session_witness :
  exists calls, draw twice_won = Ok calls /\
    length (List.filter is_sprite calls) = 9%nat /\
    prepare_sprite "f" 80 80 ∈ calls /\
    cell (visible twice_won) (tile_at 119 80) = Some "f" /\
    draw_text "YOU WIN!" ∈ calls.
Proof.
  destruct (draw_shows_session twice_won twice_won_reachable)
    as (calls & E & _ & Hn & Hs & Hc & Hw & _).
  exists calls. split; [exact E|]. split; [exact Hn|].
  assert (prepare_sprite "f" 80 80 ∈ calls) as Hf.
  { apply Hs. exists 2%nat, 2%nat. repeat split; reflexivity. }
  split; [exact Hf|]. split.
  - apply (proj2 (Hc "f" 80 80 Hf) 39 0)%Z; lia.
  - apply Hw. reflexivity.
Defined.

(** X11. [chunks] on any list and any size. A size of zero raises
    [ValueError] and nothing else does; a negative size gives no chunk at
    all; for a positive size the chunks put together give back the list,
    there are [ceil (len / size)] of them, none is empty, and each has
    [size] items except that the last has what is left. *)
Theorem chunks_splits {A} (l : list A) (size : Z) :
  match chunks l size with
  | Ok rows =>
      size <> 0%Z /\
      ((size < 0)%Z -> rows = []) /\
      ((0 < size)%Z ->
         concat rows = l /\
         Z.of_nat (length rows) = ((Z.of_nat (length l) + size - 1) / size)%Z /\
         forall i row, rows !! i = Some row ->
           (0 < length row)%nat /\
           Z.of_nat (length row) =
             Z.min size (Z.of_nat (length l) - Z.of_nat i * size))
  | Raise e => size = 0%Z /\ e = ValueError
  | OutOfFuel => False
  end.
Proof.
  unfold chunks, py_range_step.
  destruct (Z.eqb_spec size 0) as [->|Hne]; [done|].
  destruct (Z.ltb_spec 0 size) as [Hpos|Hneg]; simpl.
  - split; [done|]. split; [lia|]. intros _.
    destruct (chunks_positive l size Hpos) as (rows & E & H).
    unfold chunks, py_range_step in E.
    rewrite (proj2 (Z.eqb_neq size 0) Hne) in E.
    rewrite (proj2 (Z.ltb_lt 0 size) Hpos) in E. simpl in E.
    injection E as <-. exact H.
  - split; [done|]. split; [|lia]. intros _.
    replace (Z.to_nat ((Z.of_nat (length l) + size + 1) / size)) with 0%nat;
      [done|].
    assert ((Z.of_nat (length l) + size + 1) / size <= 0)%Z; [|lia].
    pose proof (Z.div_mod (Z.of_nat (length l) + size + 1) size Hne).
    pose proof (Z.mod_neg_bound (Z.of_nat (length l) + size + 1) size).
    nia.
Qed.

(** X12. [get_surrounding_tiles] returns the neighbours of a tile that lie
    inside the field, in the order of [around]: row by row, each row from
    left to right. So it never lists the tile itself or a tile outside the
    grid, lists no tile twice and at most eight tiles. This holds at every
    coordinate, also outside the grid. *)
Theorem get_surrounding_tiles_lists st x y :
  get_surrounding_tiles x y st =
    List.filter (fun c => bool_decide (in_grid (field st) c)) (around (x, y)) /\
  NoDup (get_surrounding_tiles x y st) /\
  (length (get_surrounding_tiles x y st) <= 8)%nat.
Proof.
  assert (get_surrounding_tiles x y st =
    List.filter (fun c => bool_decide (in_grid (field st) c)) (around (x, y)))
    as E.
  { unfold get_surrounding_tiles, around.
    change (seqZ (-1) 3) with [-1; 0; 1]%Z.
    rewrite !foldl_three. cbv beta. simpl List.filter.
    rewrite !in_grid_guard.
    change (x - 1)%Z with (x + -1)%Z. change (y - 1)%Z with (y + -1)%Z.
    rewrite !Z.add_0_r.
    generalize ((0 <=? y + -1)%Z && (y + -1 <? Z.of_nat (length (field st)))%Z).
    generalize ((0 <=? y)%Z && (y <? Z.of_nat (length (field st)))%Z).
    generalize ((0 <=? y + 1)%Z && (y + 1 <? Z.of_nat (length (field st)))%Z).
    generalize (item [] (field st) (y + -1)), (item [] (field st) y),
               (item [] (field st) (y + 1)).
    intros ra rb rc r1 r2 r3.
    generalize ((0 <=? x + -1)%Z && (x + -1 <? Z.of_nat (length ra))%Z),
               ((0 <=? x)%Z && (x <? Z.of_nat (length ra))%Z),
               ((0 <=? x + 1)%Z && (x + 1 <? Z.of_nat (length ra))%Z).
    generalize ((0 <=? x + -1)%Z && (x + -1 <? Z.of_nat (length rb))%Z),
               ((0 <=? x)%Z && (x <? Z.of_nat (length rb))%Z),
               ((0 <=? x + 1)%Z && (x + 1 <? Z.of_nat (length rb))%Z).
    generalize ((0 <=? x + -1)%Z && (x + -1 <? Z.of_nat (length rc))%Z),
               ((0 <=? x)%Z && (x <? Z.of_nat (length rc))%Z),
               ((0 <=? x + 1)%Z && (x + 1 <? Z.of_nat (length rc))%Z).
    intros c1 c2 c3 b1 b2 b3 a1 a2 a3.
    destruct r1, a1, a2, a3; simpl; destruct r2, b1, b2, b3; simpl;
      destruct r3, c1, c2, c3; reflexivity. }
  split; [exact E|]. rewrite E. split.
  - apply NoDup_ListNoDup, List.NoDup_filter, NoDup_ListNoDup, NoDup_around.
  - etransitivity; [apply List.filter_length_le|]. done.
Qed.

(** X13. [count_surrounding_mines] counts the mines in the block of three
    by three tiles around the coordinate, the tile at the coordinate
    included: it is the number of mines among the neighbours, plus one
    when the tile itself is a mine, and at most nine. Tiles outside the
    field count as no mine, at every coordinate and for rows of any
    lengths. *)
Theorem count_surrounding_mines_counts_block (g : list (list string)) x y :
  count_surrounding_mines x y g =
    (mine_neighbours g (x, y) + (if is_mine g (x, y) then 1 else 0))%nat /\
  (count_surrounding_mines x y g <= 9)%nat /\
  (cell g (x, y) <> Some "x" ->
   count_surrounding_mines x y g = mine_neighbours g (x, y)).
Proof.
  pose proof (count_surrounding_mines_spec g x y) as E.
  unfold mine_indicator in E.
  pose proof (mine_neighbours_bound g (x, y)) as Hb.
  split; [exact E|]. split.
  - rewrite E. destruct (is_mine g (x, y)); lia.
  - intros Hc. rewrite E. unfold is_mine.
    rewrite bool_decide_eq_false_2 by done. lia.
Qed.


(** X15. What the prompts of [init_game] read. The width is the first
    entry that is a positive integer, the height the next one, and the
    mine count the first integer after it that lies between 1 and
    [width * height]; every entry before each of them is a line that is
    no integer or an integer the prompt refuses. [init_game] goes on with
    these three values exactly when the entries have this form: the
    prompts never give up on their own. *)
Theorem init_game_config_reads inputs width height mines :
  init_game_config inputs = Some (width, height, mines) <->
  exists s1 s2 s3 rest,
    inputs = s1 ++ Some width :: s2 ++ Some height :: s3 ++ Some mines :: rest /\
    Forall (rejected positive) s1 /\ (0 < width)%Z /\
    Forall (rejected positive) s2 /\ (0 < height)%Z /\
    Forall (rejected (mines_in_range width height)) s3 /\
    (1 <= mines <= width * height)%Z.
Proof.
  unfold init_game_config. split.
  - destruct (get_positive_integer inputs) as [[w r1]|] eqn:E1; [|done].
    destruct (get_positive_integer r1) as [[h r2]|] eqn:E2; [|done].
    destruct (ask_mines (length r2) r2 w h) as [[m r3]|] eqn:E3; [|done].
    intros [= -> -> ->].
    apply get_positive_integer_reads in E1 as (s1 & -> & Hs1 & Hw).
    apply get_positive_integer_reads in E2 as (s2 & -> & Hs2 & Hh).
    apply ask_mines_reads in E3 as (s3 & -> & Hs3 & Hm); [|done].
    now exists s1, s2, s3, r3.
  - intros (s1 & s2 & s3 & rest & -> & Hs1 & Hw & Hs2 & Hh & Hs3 & Hm).
    rewrite (proj2 (get_positive_integer_reads _ width
      (s2 ++ Some height :: s3 ++ Some mines :: rest))) by now exists s1.
    rewrite (proj2 (get_positive_integer_reads _ height
      (s3 ++ Some mines :: rest))) by now exists s2.
    rewrite (proj2 (ask_mines_reads width height mines rest _ _ (le_n _)));
      [done|]. now exists s3.
Qed.

(** X16. [make_choice] returns the index of the first option that starts
    with the line the player entered, put in lower case, and [-1] when the
    line is empty or no option starts with it; the result is never any
    other number. *)
Theorem make_choice_first_match lower line options :
  (make_choice lower line options = (-1)%Z <->
   lower line = "" \/
   Forall (fun o => String.prefix (lower line) o = false) options) /\
  (forall i, make_choice lower line options = Z.of_nat i <->
     lower line <> "" /\
     (exists o, options !! i = Some o /\
                String.prefix (lower line) o = true) /\
     forall j o, (j < i)%nat -> options !! j = Some o ->
       String.prefix (lower line) o = false) /\
  (-1 <= make_choice lower line options < Z.of_nat (length options))%Z.
Proof.
  unfold make_choice. set (choice := lower line).
  destruct choice as [|a choice'] eqn:Hc; simpl.
  { split; [tauto|]. split; [|lia]. intros i. split; [lia|].
    now intros [? _]. }
  fold choice in Hc. rewrite <- Hc.
  assert (choice <> "") as Hne by (rewrite Hc; done).
  destruct (make_choice_loop_spec choice options 0)
    as [[E Hall]|(k & o & E & Hk & Ho & Hmin)]; rewrite E; simpl.
  - split; [tauto|]. split.
    + intros i. split; [lia|]. intros (_ & (o & Hi & Ho) & _).
      rewrite Forall_forall in Hall.
      rewrite (Hall o) in Ho; [done|]. eapply list_elem_of_lookup_2, Hi.
    + lia.
  - apply lookup_lt_Some in Hk as Hlt. split; [|split; [|lia]].
    + split; [lia|]. intros [?|Hall]; [done|].
      rewrite Forall_forall in Hall.
      rewrite (Hall o) in Ho; [done|]. eapply list_elem_of_lookup_2, Hk.
    + intros i. split.
      * intros Hi. assert (i = k) as -> by lia.
        split; [done|]. split; [now exists o|done].
      * intros (_ & (o' & Hi & Ho') & Hmin').
        destruct (Nat.lt_trichotomy i k) as [Hlt'|[->|Hgt]]; [|done|].
        -- rewrite (Hmin i o' Hlt' Hi) in Ho'. done.
        -- rewrite (Hmin' k o Hgt Hk) in Ho. done.
Qed.

(** X17. [validate_data] returns 1 exactly for a dictionary whose
    ["games"] is a list of games that each have a string ["date"] and
    ["clock"], a list ["dimensions"] of two integers, an integer
    ["mines"] and ["clicks"], a list ["result"] of a boolean and an
    integer and a float ["time"] (a boolean counts as an integer, an
    integer does not count as a float), or is an empty dictionary or an
    empty string. On all other data it returns -1 or lets a [TypeError]
    escape, which it does whenever the data is no dictionary. *)
Theorem validate_data_accepts data :
  (validate_data data = Return 1%Z <-> valid_data data) /\
  (validate_data data = Return 1%Z \/ validate_data data = Return (-1)%Z \/
   validate_data data = Throw TypeError) /\
  ((forall entries, data <> JDict entries) ->
   validate_data data = Throw TypeError).
Proof.
  destruct (validate_data_spec data) as [H1 H2].
  split; [exact H1|]. split; [exact H2|].
  intros Hd. destruct data; try reflexivity. now destruct (Hd entries).
Qed.



(** X19. What the two counters count. On a state whose visibility grid
    has the shape of the field, [count_unexplored_tiles] returns the
    number of tiles that are not mines and are hidden or flagged, and
    [count_unflagged_mines] the number of mines that carry no flag. *)
Theorem counters_count st :
  shape (visible st) = shape (field st) ->
  count_unexplored_tiles st =
    Ok (length (List.filter (unexplored st) (all_coords (field st)))) /\
  count_unflagged_mines st =
    Ok (length (List.filter (unflagged_mine st) (all_coords (field st)))).
Proof.
  intros Hs. split;
    [now apply count_unexplored_tiles_exact
    |now apply count_unflagged_mines_exact].
Qed.

Lemma counters_count_witness :
  count_unexplored_tiles edge_opened = Ok 7%nat /\
  count_unflagged_mines edge_opened = Ok 1%nat.
Proof. exact (counters_count edge_opened eq_refl). Defined.

(** X20. [create_field] for any mine count. For a width of at least one
    and a height that is not negative it returns, whatever the mine count
    and the outcome of the shuffle, a visibility grid of [height] rows of
    [width] hidden tiles and a field of
    [max mines 0 + max (width * height - mines) 0] tiles with
    [max mines 0] mines, in which every tile that is not a mine shows the
    number of mines around it. The field has the shape of the visibility
    grid exactly when the mine count lies between zero and
    [width * height]. *)
Theorem create_field_any_count shuffle (width height mines : Z) :
  (forall l, l ≡ₚ shuffle l) ->
  (1 <= width)%Z -> (0 <= height)%Z ->
  exists field,
    create_field shuffle width height mines =
      Ok (field, replicate (Z.to_nat height) (replicate (Z.to_nat width) " ")) /\
    length (concat field) =
      (Z.to_nat mines + Z.to_nat (width * height - mines))%nat /\
    mine_count field = Z.to_nat mines /\
    counts_consistent field /\
    (rectangular (Z.to_nat width) (Z.to_nat height) field <->
     (0 <= mines <= width * height)%Z).
Proof.
  intros Hperm Hw Hh. unfold create_field, py_repeat.
  set (tiles := replicate (Z.to_nat mines) "x" ++
                replicate (Z.to_nat (width * height - mines)) "0").
  assert (length (shuffle tiles) =
          (Z.to_nat mines + Z.to_nat (width * height - mines))%nat) as Hlen.
  { rewrite <- (Permutation_length (Hperm tiles)). unfold tiles.
    now rewrite length_app, !length_replicate. }
  destruct (chunks_positive (shuffle tiles) width) as (rows & E & Hcat & _);
    [lia|].
  rewrite E. simpl. exists (fill_counts rows). split; [done|].
  destruct (fill_counts_spec rows) as [Hs _].
  split; [|split; [|split; [apply fill_counts_consistent|]]].
  - rewrite (length_concat_shape _ rows Hs), Hcat. exact Hlen.
  - rewrite (mine_count_ext (fill_counts rows) rows Hs
               (fill_counts_is_mine rows)).
    unfold mine_count. rewrite Hcat.
    rewrite <- (filter_length_perm _ _ _ (Hperm tiles)). unfold tiles.
    rewrite List.filter_app, length_app, !filter_length_replicate. simpl. lia.
  - split.
    + intros Hrect. apply length_concat_rectangular in Hrect.
      rewrite (length_concat_shape _ rows Hs), Hcat, Hlen in Hrect. nia.
    + intros Hm.
      destruct (chunks_spec (shuffle tiles) (Z.to_nat width)
                  (Z.to_nat height)) as (rows' & E' & Hshape & _);
        [lia|rewrite Hlen; nia|].
      rewrite Z2Nat.id in E' by lia. rewrite E in E'. injection E' as <-.
      unfold rectangular. now rewrite Hs.
Qed.

Lemma create_field_any_count_witness :
  exists field,
    create_field mines_last 5 1 6 =
      Ok (field, replicate (Z.to_nat 1) (replicate (Z.to_nat 5) " ")) /\
    length (concat field) = (Z.to_nat 6 + Z.to_nat (5 * 1 - 6))%nat /\
    mine_count field = Z.to_nat 6 /\
    counts_consistent field /\
    (rectangular (Z.to_nat 5) (Z.to_nat 1) field <-> (0 <= 6 <= 5 * 1)%Z).
Proof.
  apply (create_field_any_count mines_last 5 1 6);
    [apply mines_last_perm|lia|lia].
Defined.

(** X21. Every counted click reveals at least one new tile: at every
    moment of a session the click counter is at most the number of
    revealed tiles, and so at most the number of tiles of the field. *)
Theorem clicks_at_most_revealed st :
  reachable st ->
  (clicks st <= length (List.filter (revealed_at st) (all_coords (field st))))%nat /\
  (length (List.filter (revealed_at st) (all_coords (field st))) <=
   length (concat (field st)))%nat.
Proof.
  intros Hreach. split.
  2:{ rewrite <- length_all_coords. apply List.filter_length_le. }
  induction Hreach as [shuffle inputs st _ Hinit|st x y b st' Hreach IH Hm].
  - unfold init_game in Hinit.
    destruct (init_game_config inputs) as [[[w h] m]|]; [|done].
    destruct (create_field shuffle w h m) as [[fld vis]| |]; simpl in *;
      try done.
    injection Hinit as <-. simpl. lia.
  - pose proof (reachable_Inv st Hreach) as HI.
    destruct (handle_mouse_step st x y b HI) as (st1 & E & _ & Hf & Hkeep).
    rewrite E in Hm. injection Hm as ->. rewrite Hf.
    assert (forall c, c ∈ all_coords (field st) ->
              revealed_at st c = true -> revealed_at st' c = true) as Hmono.
    { intros c _ (v & Hv & Hrev)%revealed_at_spec.
      apply revealed_at_spec. exists v. split; [|done]. now apply Hkeep. }
    destruct (decide (running st = true /\ b = MOUSE_LEFT /\
                      cell (visible st) (tile_at x y) = Some " "))
      as [(Hr & -> & Hv)|Hq].
    + destruct (click_reveals st x y HI Hr Hv) as (st2 & E2 & v & Hv' & Hrev).
      rewrite E in E2. injection E2 as <-.
      destruct (handle_mouse_counters st x y _ st' E) as [_ Hc].
      assert (length (List.filter (revealed_at st) (all_coords (field st))) <
              length (List.filter (revealed_at st') (all_coords (field st))))%nat.
      { apply (filter_length_strict _ _ _ (tile_at x y)); [done| | |].
        - apply elem_of_all_coords.
          apply (in_grid_same_shape (visible st)); [apply HI|now exists " "].
        - unfold revealed_at. now rewrite Hv.
        - apply revealed_at_spec. now exists v. }
      lia.
    + assert (clicks st' = clicks st) as ->.
      { destruct (running st) eqn:Hr.
        - rewrite handle_mouse_quiet in E; try done.
          + injection E as <-. destruct b; try done.
            now destruct (cell (visible st) (tile_at x y)).
          + intros -> Hv. now destruct Hq.
        - unfold handle_mouse in E. rewrite Hr in E. simpl in E. congruence. }
      etransitivity; [exact IH|]. now apply filter_length_mono.
Qed.

Lemma clicks_at_most_revealed_witness :
  (clicks twice_won <=
   length (List.filter (revealed_at twice_won) (all_coords (field twice_won))))%nat /\
  (length (List.filter (revealed_at twice_won) (all_coords (field twice_won))) <=
   length (concat (field twice_won)))%nat.
Proof. exact (clicks_at_most_revealed twice_won twice_won_reachable). Defined.

(** X22. Around a revealed ["0"] everything is open: at every moment of a
    session, every tile of the grid that lies next to a tile showing
    ["0"] is revealed, whether the cascade ran to its end, won the game on
    the way, or met flags. *)
Theorem zero_has_open_neighbours st c c' :
  reachable st ->
  cell (visible st) c = Some "0" -> adjacent c c' ->
  in_grid (field st) c' ->
  exists v, cell (visible st) c' = Some v /\ Revealed v /\
            cell (field st) c' = Some v.
Proof.
  intros Hreach Hc Hadj Hin.
  assert (zeros_opened st) as Hz.
  { clear c c' Hc Hadj Hin.
    induction Hreach as [shuffle inputs st Hperm Hinit|st x y b st' Hreach IH Hm].
    - intros c c' Hc _ _. exfalso. unfold init_game in Hinit.
      destruct (init_game_config inputs) as [[[w h] m]|] eqn:Hcfg; [|done].
      apply init_game_config_spec in Hcfg as (Hw & Hh & Hm).
      destruct (create_field_spec shuffle w h m Hperm Hw Hh Hm)
        as (fld & E & _).
      rewrite E in Hinit. simpl in Hinit. injection Hinit as <-.
      simpl in Hc. apply cell_blank in Hc. discriminate.
    - apply (zeros_opened_step st x y b); [now apply reachable_Inv|done|done]. }
  destruct (Hz c c' Hc Hadj Hin) as (v & Hv & Hrev).
  exists v. split; [done|]. split; [done|].
  destruct Hin as [t Ht].
  destruct (inv_visible st (reachable_Inv st Hreach) c' t v Ht Hv)
    as [E|[E|E]]; subst v; try done; now destruct Hrev.
Qed.

Lemma zero_has_open_neighbours_witness :
  exists v, cell (visible twice_won) (1, 1)%Z = Some v /\ Revealed v /\
            cell (field twice_won) (1, 1)%Z = Some v.
Proof.
  apply (zero_has_open_neighbours twice_won (0, 0)%Z (1, 1)%Z).
  - apply twice_won_reachable.
  - reflexivity.
  - split; [discriminate|]. simpl. lia.
  - exists "1". reflexivity.
Defined.



(** X24. When a game is over no mine is hidden: in a session that has
    ended every mine shows a flag or, in a lost game only, itself. *)
Theorem game_over_shows_all_mines st c :
  reachable st -> running st = false ->
  cell (field st) c = Some "x" ->
  cell (visible st) c = Some "f" \/
  (won st = false /\ cell (visible st) c = Some "x").
Proof.
  intros Hreach Hr Hc. destruct (won st) eqn:Hw.
  - left. now apply (inv_won st (reachable_Inv st Hreach) Hw).
  - destruct (reachable_mines_shown st Hreach Hr c Hc); auto.
Qed.

Lemma game_over_shows_all_mines_witness :
  cell (visible twice_won) (2, 2)%Z = Some "f" \/
  (won twice_won = false /\ cell (visible twice_won) (2, 2)%Z = Some "x").
Proof.
  apply (game_over_shows_all_mines twice_won (2, 2)%Z);
    [apply twice_won_reachable|reflexivity|reflexivity].
Defined.
